(** * BambooHR API client: request pipeline, cache, retry and multipart upload

    A shallow embedding of [src/services/bamboohr-client.ts] (class
    [BambooHRClient]) and of the [ApiError] record of [types.ts].

    The asynchronous methods are modelled as computations in a small state
    and exception monad over a [World]: the instance's cache map, the clock
    read by [Date.now()], and a trace of the observable effects ([fetch]
    calls, timer waits, [console.error] lines).  What the network answers and
    what [Math.random()] draws are given by an environment of oracles. *)

From Stdlib Require Import ZArith QArith Qround Qminmax String Ascii List Lia Lqa Bool.
From stdpp Require Import base option gmap strings list pretty.

Set Warnings "-register-all".
Local Open Scope string_scope.
Local Open Scope Z_scope.

(** ** JavaScript values and built-ins used by the client *)

Module JS.

(** A number: the client computes with integers of milliseconds, with the
    fractional jitter of [Math.random()], and with the [NaN] that
    [parseInt] gives on a text without digits.  Finite numbers are
    rationals here. *)
Inductive number : Type :=
| NaN
| Num (q : Q).

Definition of_Z (z : Z) : number := Num (inject_Z z).

Definition mul (a b : number) : number :=
  match a, b with
  | Num x, Num y => Num (x * y)
  | _, _ => NaN
  end.

Definition div (a b : number) : number :=
  match a, b with
  | Num x, Num y => if Qeq_bool y 0 then NaN else Num (x / y)
  | _, _ => NaN
  end.

(** Values of type [unknown]: what [response.json()] yields, what a
    request body or a query parameter holds. *)
Inductive value : Type :=
| VNull
| VBool (b : bool)
| VNum (n : number)
| VStr (s : string)
| VArr (l : list value)
| VObj (fields : list (string * value)).

(** [v !== null] *)
Definition not_null (v : value) : bool :=
  match v with VNull => false | _ => true end.

Definition truthy_string (s : string) : bool :=
  match s with EmptyString => false | _ => true end.

(** ToBoolean on a value. *)
Definition truthy (v : value) : bool :=
  match v with
  | VNull => false
  | VBool b => b
  | VNum NaN => false
  | VNum (Num q) => negb (Qeq_bool q 0)
  | VStr s => truthy_string s
  | VArr _ | VObj _ => true
  end.

(** *** Strings.  A string is a sequence of 8-bit code units (the UTF-8
    bytes of the text), so that [Buffer.from(s, 'utf-8')] is the
    identity. *)

(** [hay.includes(needle)] *)
Fixpoint includes (needle hay : string) : bool :=
  String.prefix needle hay
  || match hay with
     | EmptyString => false
     | String _ rest => includes needle rest
     end.

(** [s.split(sep)] for a one-character separator: never empty. *)
Fixpoint split (sep : ascii) (s : string) : list string :=
  match s with
  | EmptyString => [EmptyString]
  | String c rest =>
      if Ascii.eqb c sep then EmptyString :: split sep rest
      else match split sep rest with
           | [] => [String c EmptyString]
           | seg :: segs => String c seg :: segs
           end
  end.

(** [arr.pop()]: the last element, [None] (undefined) on an empty array. *)
Definition pop (l : list string) : option string := last l.

Definition lower_char (c : ascii) : ascii :=
  let n := nat_of_ascii c in
  if ((65 <=? n) && (n <=? 90))%nat then ascii_of_nat (n + 32) else c.

(** [s.toLowerCase()], on the ASCII letters. *)
Fixpoint toLowerCase (s : string) : string :=
  match s with
  | EmptyString => EmptyString
  | String c rest => String (lower_char c) (toLowerCase rest)
  end.

(** [String(n)] for an integer. *)
Definition show_Z (z : Z) : string := pretty z.

(** *** [parseInt(s)] without a radix *)

Definition is_space (c : ascii) : bool :=
  let n := nat_of_ascii c in
  ((9 <=? n) && (n <=? 13) || (n =? 32))%nat.

Fixpoint skip_spaces (s : string) : string :=
  match s with
  | String c rest => if is_space c then skip_spaces rest else s
  | EmptyString => s
  end.

Definition digit_value (c : ascii) : option Z :=
  let n := Z.of_nat (nat_of_ascii c) in
  if (48 <=? n) && (n <=? 57) then Some (n - 48)
  else if (97 <=? n) && (n <=? 122) then Some (n - 87)
  else if (65 <=? n) && (n <=? 90) then Some (n - 55)
  else None.

(** The digits of the radix at the front of [s], accumulated; [None] when
    there is none. *)
Fixpoint digits (radix : Z) (acc : option Z) (s : string) : option Z :=
  match s with
  | EmptyString => acc
  | String c rest =>
      match digit_value c with
      | Some d =>
          if d <? radix
          then digits radix (Some (radix * default 0 acc + d)) rest
          else acc
      | None => acc
      end
  end.

Definition parseInt (s : string) : number :=
  let s := skip_spaces s in
  let '(sign, s) :=
    match s with
    | String "-" rest => (-1, rest)
    | String "+" rest => (1, rest)
    | _ => (1, s)
    end in
  let '(radix, s) :=
    match s with
    | String "0" (String "x" rest) | String "0" (String "X" rest) => (16, rest)
    | _ => (10, s)
    end in
  match digits radix None s with
  | Some n => of_Z (sign * n)
  | None => NaN
  end.

(** *** Timers.  [setTimeout(f, ms)] of Node: the delay is truncated to an
    integer, and a delay that is [NaN], below 1 or above 2^31-1 is 1. *)
Definition timer_delay (ms : number) : Z :=
  match ms with
  | NaN => 1
  | Num q =>
      let t := Qfloor q in
      if (t <? 1) || (2147483647 <? t) then 1 else t
  end.

End JS.

(** ** HTTP: headers, responses, requests *)

Inductive Method : Type := GET | POST | PUT | DELETE.

Definition Method_eqb (a b : Method) : bool :=
  match a, b with
  | GET, GET | POST, POST | PUT, PUT | DELETE, DELETE => true
  | _, _ => false
  end.

(** A [Headers] object, as the list of its (name, value) pairs. *)
Definition Headers : Type := list (string * string).

(** [headers.get(name)]: names match without regard to case, the values of
    a repeated header are joined with a comma and a space, and an absent
    header gives [None] (null). *)
Definition Headers_get (h : Headers) (name : string) : option string :=
  match List.filter (fun kv => String.eqb (JS.toLowerCase (fst kv)) (JS.toLowerCase name)) h with
  | [] => None
  | kvs => Some (String.concat ", " (List.map snd kvs))
  end.

(** [a || b] on a header value: null and the empty string are falsy. *)
Definition or_else (a : option string) (b : string) : string :=
  match a with
  | Some s => if JS.truthy_string s then s else b
  | None => b
  end.

(** A buffer of bytes. *)
Definition Buffer : Type := string.

Record Response : Type := mkResponse {
  status : Z;
  statusText : string;
  headers : Headers;
  (** [response.text()] *)
  text : string;
  (** [response.json()]: [None] when the body is not JSON and the promise
      rejects with a SyntaxError. *)
  json : option JS.value
}.

(** [response.ok] *)
Definition ok (r : Response) : bool := (200 <=? status r) && (status r <=? 299).

Record Request : Type := mkRequest {
  req_method : Method;
  req_url : string;
  req_headers : Headers;
  req_body : option Buffer
}.

(** ** Errors *)

(** [ApiError] of types.ts. *)
Record ApiError : Type := mkApiError {
  error : string;
  message : string;
  api_status : option Z
}.

Definition with_message (e : ApiError) (m : string) : ApiError :=
  {| error := error e; message := m; api_status := api_status e |}.

(** What a [throw] or a rejected promise carries: one of the client's error
    records, or an [Error] instance of the runtime (the TypeError of a
    [fetch] that could not connect, the SyntaxError of [response.json()]). *)
Inductive Thrown : Type :=
| ThrowRecord (e : ApiError)
| ThrowNative (name msg : string).

(** [(error as ApiError).error], undefined on a native error. *)
Definition thrown_error (t : Thrown) : option string :=
  match t with ThrowRecord e => Some (error e) | ThrowNative _ _ => None end.

(** [(error as ApiError).status] *)
Definition thrown_status (t : Thrown) : option Z :=
  match t with ThrowRecord e => api_status e | ThrowNative _ _ => None end.

(** [(error as Error).message] *)
Definition thrown_message (t : Thrown) : string :=
  match t with ThrowRecord e => message e | ThrowNative _ m => m end.

(** ToBoolean of a caught value: both kinds are objects. *)
Definition thrown_truthy (t : Thrown) : bool := true.

(** ** The world of a client instance *)

Record CacheEntry : Type := mkCacheEntry {
  data : JS.value;
  timestamp : Z
}.

Inductive Event : Type :=
| EvFetch (r : Request)
| EvSleep (ms : JS.number)
| EvConsoleError (line : string).

Record World : Type := mkWorld {
  (** [this.cache] *)
  cache : gmap string CacheEntry;
  (** [Date.now()] *)
  clock : Z;
  (** how many [fetch] calls were issued *)
  fetches : nat;
  (** how many numbers [Math.random()] gave *)
  draws : nat;
  (** the effects so far, the latest last *)
  trace : list Event
}.

(** The outcome of the [n]th [fetch]. *)
Inductive FetchResult : Type :=
| Rejected (name msg : string)
| Responded (r : Response).

(** The environment: the answer and the duration of each [fetch] and the
    draws of [Math.random()], each in [0, 1). *)
Record Env : Type := mkEnv {
  net : nat -> FetchResult;
  latency : nat -> Z;
  random : nat -> Q
}.

(** Built-ins of the runtime that the client calls and that are taken as
    given. *)
Class Runtime : Type := mkRuntime {
  JSON_stringify : JS.value -> string;
  (** [new URLSearchParams()], one [append(key, String(value))] per entry,
      then [toString()] *)
  URLSearchParams_toString : list (string * JS.value) -> string;
  (** [String(n)] *)
  Number_toString : JS.number -> string;
  (** [Buffer.from(s).toString('base64')] *)
  base64_encode : string -> string;
  (** [Buffer.from(s, 'base64')] *)
  base64_decode : string -> Buffer
}.

(** ** The monad of asynchronous methods *)

Inductive Outcome (A : Type) : Type :=
| Returned (a : A)
| Threw (t : Thrown).
Arguments Returned {A} a.
Arguments Threw {A} t.

Definition M (A : Type) : Type := World -> Outcome A * World.

Definition ret {A} (a : A) : M A := fun w => (Returned a, w).

Definition throw {A} (t : Thrown) : M A := fun w => (Threw t, w).

Definition bind {A B} (m : M A) (k : A -> M B) : M B :=
  fun w =>
    match m w with
    | (Returned a, w') => k a w'
    | (Threw t, w') => (Threw t, w')
    end.

(** [try { m } catch (error) { handler }] *)
Definition try_catch {A} (m : M A) (handler : Thrown -> M A) : M A :=
  fun w =>
    match m w with
    | (Returned a, w') => (Returned a, w')
    | (Threw t, w') => handler t w'
    end.

Declare Scope client_scope.
Delimit Scope client_scope with client.
Notation "x <- m ;; k" := (bind m (fun x => k))
  (at level 100, m at next level, right associativity) : client_scope.
Notation "m ;;; k" := (bind m (fun _ => k))
  (at level 100, right associativity) : client_scope.
Local Open Scope client_scope.

Definition emit (ev : Event) (w : World) : World :=
  {| cache := cache w; clock := clock w; fetches := fetches w;
     draws := draws w; trace := trace w ++ [ev] |}.

Definition advance (ms : Z) (w : World) : World :=
  {| cache := cache w; clock := clock w + ms; fetches := fetches w;
     draws := draws w; trace := trace w |}.

Definition with_cache (c : gmap string CacheEntry) (w : World) : World :=
  {| cache := c; clock := clock w; fetches := fetches w;
     draws := draws w; trace := trace w |}.

(** [Date.now()] *)
Definition Date_now : M Z := fun w => (Returned (clock w), w).

(** [console.error(line)] *)
Definition console_error (line : string) : M unit :=
  fun w => (Returned tt, emit (EvConsoleError line) w).

(** [response.json()] and [response.text()] *)
Definition Response_json (r : Response) : M JS.value :=
  match json r with
  | Some v => ret v
  | None => throw (ThrowNative "SyntaxError" "Unexpected token in JSON")
  end.

Definition Response_text (r : Response) : M string := ret (text r).

(** ** The client *)

Record BambooHRConfig : Type := mkConfig {
  apiKey : string;
  companyDomain : string
}.

(** constants.ts *)
Definition API_VERSION : string := "v1".

(** A [Record<string, string | number | boolean>], in insertion order. *)
Definition QueryParams : Type := list (string * JS.value).

(** How one turn of the retry loop of [makeRequest] ends when it does not
    throw: the method returns, or the loop goes on with the new values of
    [lastError] and [retryDelay]. *)
Inductive Step : Type :=
| Return (v : JS.value)
| Continue (lastError : option Thrown) (retryDelay : Q).

Section Client.

Context {rt : Runtime}.
Variable env : Env.
Variable config : BambooHRConfig.

Definition baseUrl : string :=
  "https://" +:+ companyDomain config +:+ ".bamboohr.com/api/" +:+ API_VERSION.

Definition cacheTTL : Z := 5 * 60 * 1000.

(** *** Effects *)

(** [this.cache.get(key)], [this.cache.delete(key)], [this.cache.set(key, e)] *)
Definition cache_get (key : string) : M (option CacheEntry) :=
  fun w => (Returned (cache w !! key), w).

Definition cache_delete (key : string) : M unit :=
  fun w => (Returned tt, with_cache (delete key (cache w)) w).

Definition cache_set (key : string) (e : CacheEntry) : M unit :=
  fun w => (Returned tt, with_cache (<[key := e]> (cache w)) w).

(** [await fetch(url, options)]: the next answer of the network. *)
Definition fetched (r : Request) (w : World) : World :=
  {| cache := cache w; clock := clock w + latency env (fetches w);
     fetches := S (fetches w); draws := draws w;
     trace := trace w ++ [EvFetch r] |}.

Definition fetch (r : Request) : M Response :=
  fun w =>
    match net env (fetches w) with
    | Rejected name msg => (Threw (ThrowNative name msg), fetched r w)
    | Responded resp => (Returned resp, fetched r w)
    end.

(** [await this.sleep(ms)] *)
Definition sleep (ms : JS.number) : M unit :=
  fun w => (Returned tt, advance (JS.timer_delay ms) (emit (EvSleep ms) w)).

(** [Math.random()] *)
Definition drawn (w : World) : World :=
  {| cache := cache w; clock := clock w; fetches := fetches w;
     draws := S (draws w); trace := trace w |}.

Definition Math_random : M Q :=
  fun w => (Returned (random env (draws w)), drawn w).

(** *** Private helpers *)

Definition getCacheKey (endpoint : string) (queryParams : option QueryParams) : string :=
  let params :=
    match queryParams with
    | Some q => JSON_stringify (JS.VObj q)
    | None => ""
    end in
  endpoint +:+ params.

Definition getFromCache (key : string) : M JS.value :=
  entry <- cache_get key ;;
  match entry with
  | None => ret JS.VNull
  | Some entry =>
      now <- Date_now ;;
      if cacheTTL <? now - timestamp entry
      then (cache_delete key ;;; ret JS.VNull)
      else ret (data entry)
  end.

Definition setCache (key : string) (d : JS.value) : M unit :=
  now <- Date_now ;;
  cache_set key {| data := d; timestamp := now |}.

Definition getAuthHeader : string :=
  "Basic " +:+ base64_encode (apiKey config +:+ ":x").

Definition getHeaders (contentType : string) : Headers :=
  [("Authorization", getAuthHeader);
   ("Accept", "application/json");
   ("Content-Type", contentType)].

(** The message of a response that is not ok. *)
Definition errorMessage (response : Response) : string :=
  or_else (Headers_get (headers response) "X-BambooHR-Error-Message")
          ("HTTP " +:+ JS.show_Z (status response) +:+ ": " +:+ statusText response).

Definition api_error (response : Response) : ApiError :=
  {| error := "API_ERROR";
     message := errorMessage response;
     api_status := Some (status response) |}.

(** *** makeRequest *)

(** The fixed messages of [makeRequest]. *)
Definition message_exhausted : string :=
  "Rate limit exceeded. Maximum retry attempts reached. Please try again later.".

Definition message_unauthorized : string :=
  "Authentication failed. The API key is invalid or has been revoked. Please verify BAMBOOHR_API_KEY in your .env file and ensure the key is still active in BambooHR → API Keys settings.".

Definition message_forbidden : string :=
  "Access forbidden. The user associated with this API key lacks permissions for this resource. Generate a new API key with an admin or appropriately permissioned user.".

Definition message_not_found : string :=
  "Resource not found. Verify the employee ID or resource identifier is correct.".

Section MakeRequest.

Variable endpoint : string.
Variable method : Method.
Variable body : option JS.value.
Variable queryParams : option QueryParams.
Variable maxRetries : Z.

Definition request_url : string :=
  let url := baseUrl +:+ endpoint in
  match queryParams with
  | Some q => url +:+ "?" +:+ URLSearchParams_toString q
  | None => url
  end.

Definition request_options : Request :=
  {| req_method := method;
     req_url := request_url;
     req_headers := getHeaders "application/json";
     req_body :=
       match body with
       | Some b =>
           if JS.truthy b && (Method_eqb method POST || Method_eqb method PUT)
           then Some (JSON_stringify b) else None
       | None => None
       end |}.

(** [retryAfter ? parseInt(retryAfter) * 1000 : retryDelay] *)
Definition waitTime (retryAfter : option string) (retryDelay : Q) : JS.number :=
  match retryAfter with
  | Some s =>
      if JS.truthy_string s
      then JS.mul (JS.parseInt s) (JS.of_Z 1000)
      else JS.Num retryDelay
  | None => JS.Num retryDelay
  end.

(** [Math.min(retryDelay * 2 + Math.random() * 1000, 8000)] *)
Definition next_delay (retryDelay r : Q) : Q :=
  Qmin (retryDelay * 2 + r * 1000) 8000.

(** The message of a rate-limited turn that will be tried again. *)
Definition retrying_message (wait : JS.number) (attempt : Z) : string :=
  "Rate limit exceeded. Retrying after "
  +:+ Number_toString (JS.div wait (JS.of_Z 1000))
  +:+ " seconds... (Attempt " +:+ JS.show_Z (attempt + 1)
  +:+ "/" +:+ JS.show_Z maxRetries +:+ ")".

(** The body of the [try] block in turn [attempt]. *)
Definition try_block (attempt : Z) (retryDelay : Q) : M Step :=
  response <- fetch request_options ;;
  if negb (ok response) then
    let error := api_error response in
    if (status response =? 429) || (status response =? 503) then
      let retryAfter := Headers_get (headers response) "Retry-After" in
      let wait := waitTime retryAfter retryDelay in
      if attempt <? maxRetries then
        let error := with_message error (retrying_message wait attempt) in
        console_error (message error) ;;;
        sleep wait ;;;
        r <- Math_random ;;
        ret (Continue (Some (ThrowRecord error)) (next_delay retryDelay r))
      else
        throw (ThrowRecord (with_message error message_exhausted))
    else if status response =? 401 then
      throw (ThrowRecord (with_message error message_unauthorized))
    else if status response =? 403 then
      throw (ThrowRecord (with_message error message_forbidden))
    else if status response =? 404 then
      throw (ThrowRecord (with_message error message_not_found))
    else throw (ThrowRecord error)
  else
    let contentType := Headers_get (headers response) "content-type" in
    if negb (JS.truthy_string (default "" contentType)) || (status response =? 204) then
      ret (Return (JS.VObj []))
    else if JS.includes "application/json" (default "" contentType) then
      d <- Response_json response ;;
      (if Method_eqb method GET
       then setCache (getCacheKey endpoint queryParams) d
       else ret tt) ;;;
      ret (Return d)
    else
      t <- Response_text response ;;
      ret (Return (JS.VStr t)).

(** Whether the [catch] block rethrows at once:
    [error.error && error.status !== 429 && error.status !== 503]. *)
Definition rethrown_at_once (e : Thrown) : bool :=
  JS.truthy_string (default "" (thrown_error e))
  && negb (bool_decide (thrown_status e = Some 429))
  && negb (bool_decide (thrown_status e = Some 503)).

(** The [catch] block in turn [attempt]; [retryDelay] is as the turn found
    it, since the [try] block throws before it assigns. *)
Definition catch_block (attempt : Z) (retryDelay : Q) (e : Thrown) : M Step :=
  if rethrown_at_once e then throw e
  else
    let lastError := e in
    if attempt =? maxRetries then
      if negb (thrown_truthy lastError) then
        throw (ThrowRecord
          {| error := "NETWORK_ERROR";
             message := "Failed to connect to BambooHR API: " +:+ thrown_message e;
             api_status := None |})
      else throw lastError
    else ret (Continue (Some lastError) retryDelay).

Definition fallback (lastError : option Thrown) : M JS.value :=
  throw (default
    (ThrowRecord {| error := "UNKNOWN_ERROR";
                    message := "An unknown error occurred";
                    api_status := None |})
    lastError).

(** One turn of the loop: [try { ... } catch (error) { ... }]. *)
Definition turn (attempt : Z) (retryDelay : Q) : M Step :=
  try_catch (try_block attempt retryDelay) (catch_block attempt retryDelay).

(** [for (let attempt = 0; attempt <= maxRetries; attempt++) { try ... catch ... }]
    followed by the fallback.  [turns] bounds the turns still to run; the
    loop has at most [maxRetries + 1]. *)
Fixpoint retry_loop (turns : nat) (attempt : Z) (lastError : option Thrown)
    (retryDelay : Q) : M JS.value :=
  match turns with
  | O => fallback lastError
  | S turns' =>
      if attempt <=? maxRetries then
        step <- turn attempt retryDelay ;;
        match step with
        | Return v => ret v
        | Continue lastError' retryDelay' =>
            retry_loop turns' (attempt + 1) lastError' retryDelay'
        end
      else fallback lastError
  end.

Definition network : M JS.value :=
  retry_loop (Z.to_nat (maxRetries + 1)) 0 None 1000.

Definition makeRequest : M JS.value :=
  match method with
  | GET =>
      cached <- getFromCache (getCacheKey endpoint queryParams) ;;
      if JS.not_null cached then ret cached else network
  | _ => network
  end.

End MakeRequest.

End Client.

(** ** getReport and uploadFile *)

Inductive Format : Type := FormatJson | FormatXml | FormatCsv.

(** [headers[name] = v] on an object that has the key. *)
Fixpoint set_header (name v : string) (h : Headers) : Headers :=
  match h with
  | [] => [(name, v)]
  | (k, old) :: rest =>
      if String.eqb k name then (k, v) :: rest
      else (k, old) :: set_header name v rest
  end.

Inductive FileData : Type :=
| FileBuffer (b : Buffer)
| FileBase64 (s : string).

(** [{ id?: string }] *)
Record UploadResult : Type := mkUploadResult { id : option string }.

Definition CRLF : string :=
  String (ascii_of_nat 13) (String (ascii_of_nat 10) EmptyString).

(** The double quote character. *)
Definition DQUOTE : string := String (ascii_of_nat 34) EmptyString.

(** The own keys of [contentTypeMap]. *)
Definition contentTypeMap : list (string * string) :=
  [("pdf", "application/pdf");
   ("doc", "application/msword");
   ("docx", "application/vnd.openxmlformats-officedocument.wordprocessingml.document");
   ("xls", "application/vnd.ms-excel");
   ("xlsx", "application/vnd.openxmlformats-officedocument.spreadsheetml.sheet");
   ("png", "image/png");
   ("jpg", "image/jpeg");
   ("jpeg", "image/jpeg");
   ("gif", "image/gif");
   ("txt", "text/plain")].

Definition native_function (name : string) : string :=
  "function " +:+ name +:+ "() { [native code] }".

(** [contentTypeMap] is an object literal: a key it does not own is looked
    up in [Object.prototype].  These are the properties found there, each
    with the text that a template literal makes of its value (a function,
    and for [__proto__] the prototype object itself); all are truthy. *)
Definition Object_prototype : list (string * string) :=
  [("constructor", native_function "Object");
   ("__defineGetter__", native_function "__defineGetter__");
   ("__defineSetter__", native_function "__defineSetter__");
   ("hasOwnProperty", native_function "hasOwnProperty");
   ("__lookupGetter__", native_function "__lookupGetter__");
   ("__lookupSetter__", native_function "__lookupSetter__");
   ("isPrototypeOf", native_function "isPrototypeOf");
   ("propertyIsEnumerable", native_function "propertyIsEnumerable");
   ("toString", native_function "toString");
   ("valueOf", native_function "valueOf");
   ("__proto__", "[object Object]");
   ("toLocaleString", native_function "toLocaleString")].

Fixpoint assoc (key : string) (l : list (string * string)) : option string :=
  match l with
  | [] => None
  | (k, v) :: rest => if String.eqb k key then Some v else assoc key rest
  end.

(** [contentTypeMap[extension]], as the text it has in the header line;
    [None] is undefined. *)
Definition contentTypeMap_get (extension : string) : option string :=
  match assoc extension contentTypeMap with
  | Some v => Some v
  | None => assoc extension Object_prototype
  end.

(** [fileName.split('.').pop()?.toLowerCase() || ''] *)
Definition file_extension (fileName : string) : string :=
  default "" (JS.toLowerCase <$> JS.pop (JS.split "." fileName)).

(** [contentTypeMap[extension] || 'application/octet-stream'] *)
Definition fileContentType (fileName : string) : string :=
  or_else (contentTypeMap_get (file_extension fileName)) "application/octet-stream".

(** The text before the payload. *)
Definition upload_prefix (boundary fileName : string) : string :=
  "--" +:+ boundary +:+ CRLF
  +:+ "Content-Disposition: form-data; name=" +:+ DQUOTE +:+ "file" +:+ DQUOTE
  +:+ "; filename=" +:+ DQUOTE +:+ fileName +:+ DQUOTE +:+ CRLF
  +:+ "Content-Type: " +:+ fileContentType fileName +:+ CRLF +:+ CRLF.

(** [categoryPart]: empty unless [categoryId] is truthy. *)
Definition categoryPart (boundary : string) (categoryId : option string) : string :=
  match categoryId with
  | Some c =>
      if JS.truthy_string c then
        "--" +:+ boundary +:+ CRLF
        +:+ "Content-Disposition: form-data; name=" +:+ DQUOTE +:+ "category" +:+ DQUOTE
        +:+ CRLF +:+ CRLF
        +:+ c +:+ CRLF
      else ""
  | None => ""
  end.

(** [Buffer.concat([prefixBuffer, fileBuffer, suffixBuffer])] *)
Definition fullBody (boundary : string) (fileBuffer : Buffer) (fileName : string)
    (categoryId : option string) : Buffer :=
  let prefixBuffer := upload_prefix boundary fileName in
  let suffixBuffer :=
    CRLF +:+ categoryPart boundary categoryId +:+ "--" +:+ boundary +:+ "--" +:+ CRLF in
  prefixBuffer +:+ fileBuffer +:+ suffixBuffer.

Section Uploads.

Context {rt : Runtime}.
Variable env : Env.
Variable config : BambooHRConfig.

Definition report_request (endpoint : string) (format : Format) : Request :=
  let url := baseUrl config +:+ endpoint in
  let headers := getHeaders config "application/json" in
  let headers :=
    match format with
    | FormatXml => set_header "Accept" "application/xml" headers
    | FormatCsv => set_header "Accept" "text/csv" headers
    | FormatJson => headers
    end in
  {| req_method := GET; req_url := url; req_headers := headers; req_body := None |}.

Definition getReport (endpoint : string) (format : Format) : M JS.value :=
  response <- fetch env (report_request endpoint format) ;;
  if negb (ok response) then throw (ThrowRecord (api_error response))
  else
    match format with
    | FormatJson => Response_json response
    | _ => t <- Response_text response ;; ret (JS.VStr t)
    end.

Definition upload_boundary (now : Z) : string :=
  "----BambooHRFormBoundary" +:+ JS.show_Z now.

Definition upload_request (endpoint : string) (now : Z) (fileData : FileData)
    (fileName : string) (categoryId : option string) : Request :=
  let boundary := upload_boundary now in
  let fileBuffer :=
    match fileData with
    | FileBase64 s => base64_decode s
    | FileBuffer b => b
    end in
  let full := fullBody boundary fileBuffer fileName categoryId in
  {| req_method := POST;
     req_url := baseUrl config +:+ endpoint;
     req_headers :=
       [("Authorization", getAuthHeader config);
        ("Content-Type", "multipart/form-data; boundary=" +:+ boundary);
        ("Content-Length", JS.show_Z (Z.of_nat (String.length full)))];
     req_body := Some full |}.

(** [location ? location.split('/').pop() : undefined] *)
Definition fileId (location : option string) : option string :=
  match location with
  | Some l => if JS.truthy_string l then JS.pop (JS.split "/" l) else None
  | None => None
  end.

Definition uploadFile (endpoint : string) (fileData : FileData)
    (fileName : string) (categoryId : option string) : M UploadResult :=
  now <- Date_now ;;
  response <- fetch env (upload_request endpoint now fileData fileName categoryId) ;;
  if negb (ok response) then throw (ThrowRecord (api_error response))
  else ret {| id := fileId (Headers_get (headers response) "Location") |}.

End Uploads.

(** ** A runtime and environments for the examples *)

Module Plain.

(** Integers print in decimal; another number prints as the quotient of its
    lowest terms. *)
Definition number_toString (n : JS.number) : string :=
  match n with
  | JS.NaN => "NaN"
  | JS.Num q =>
      let r := Qred q in
      match Qden r with
      | xH => JS.show_Z (Qnum r)
      | d => JS.show_Z (Qnum r) +:+ "/" +:+ JS.show_Z (Zpos d)
      end
  end.

Definition quoted (s : string) : string := DQUOTE +:+ s +:+ DQUOTE.

(** [JSON.stringify] on texts that need no escape. *)
Fixpoint stringify (v : JS.value) : string :=
  match v with
  | JS.VNull => "null"
  | JS.VBool true => "true"
  | JS.VBool false => "false"
  | JS.VNum n => number_toString n
  | JS.VStr s => quoted s
  | JS.VArr l => "[" +:+ String.concat "," (List.map stringify l) +:+ "]"
  | JS.VObj fields =>
      "{" +:+ String.concat ","
               (List.map (fun kv => match kv with
                                    | (k, x) => quoted k +:+ ":" +:+ stringify x
                                    end) fields)
          +:+ "}"
  end.

(** [String(v)] of a query parameter. *)
Definition to_text (v : JS.value) : string :=
  match v with
  | JS.VStr s => s
  | _ => stringify v
  end.

(** The query string of keys and values that need no percent-encoding. *)
Definition query_string (q : list (string * JS.value)) : string :=
  String.concat "&" (List.map (fun kv => fst kv +:+ "=" +:+ to_text (snd kv)) q).

Definition alphabet : string :=
  "ABCDEFGHIJKLMNOPQRSTUVWXYZabcdefghijklmnopqrstuvwxyz0123456789+/".

Definition sextet_char (n : Z) : string :=
  match String.get (Z.to_nat n) alphabet with
  | Some c => String c EmptyString
  | None => "="
  end.

Definition byte (c : ascii) : Z := Z.of_nat (nat_of_ascii c).

Fixpoint base64 (s : string) : string :=
  match s with
  | EmptyString => EmptyString
  | String a EmptyString =>
      sextet_char (byte a / 4) +:+ sextet_char (byte a mod 4 * 16) +:+ "=="
  | String a (String b EmptyString) =>
      sextet_char (byte a / 4)
      +:+ sextet_char (byte a mod 4 * 16 + byte b / 16)
      +:+ sextet_char (byte b mod 16 * 4) +:+ "="
  | String a (String b (String c rest)) =>
      sextet_char (byte a / 4)
      +:+ sextet_char (byte a mod 4 * 16 + byte b / 16)
      +:+ sextet_char (byte b mod 16 * 4 + byte c / 64)
      +:+ sextet_char (byte c mod 64)
      +:+ base64 rest
  end.

Fixpoint index_of (c : ascii) (s : string) (i : Z) : option Z :=
  match s with
  | EmptyString => None
  | String d rest => if Ascii.eqb c d then Some i else index_of c rest (i + 1)
  end.

(** The sextets of the alphabet's characters up to the first padding sign;
    other characters are skipped. *)
Fixpoint sextets (s : string) : list Z :=
  match s with
  | EmptyString => []
  | String c rest =>
      if Ascii.eqb c "="%char then []
      else match index_of c alphabet 0 with
           | Some n => n :: sextets rest
           | None => sextets rest
           end
  end.

Definition chr (n : Z) : string := String (ascii_of_nat (Z.to_nat (n mod 256))) EmptyString.

Fixpoint bytes_of (l : list Z) : string :=
  match l with
  | a :: b :: c :: d :: rest =>
      chr (a * 4 + b / 16) +:+ chr (b mod 16 * 16 + c / 4) +:+ chr (c mod 4 * 64 + d)
      +:+ bytes_of rest
  | [a; b; c] => chr (a * 4 + b / 16) +:+ chr (b mod 16 * 16 + c / 4)
  | [a; b] => chr (a * 4 + b / 16)
  | _ => EmptyString
  end.

Definition unbase64 (s : string) : Buffer := bytes_of (sextets s).

#[global] Instance runtime : Runtime :=
  {| JSON_stringify := stringify;
     URLSearchParams_toString := query_string;
     Number_toString := number_toString;
     base64_encode := base64;
     base64_decode := unbase64 |}.

(** The network answers from a list, and refuses to connect after it; every
    call takes 25 ms and every draw is one half. *)
Definition answers (l : list FetchResult) : Env :=
  {| net := fun i => nth i l (Rejected "TypeError" "fetch failed");
     latency := fun _ => 25;
     random := fun _ => (1 # 2)%Q |}.

Definition config : BambooHRConfig :=
  {| apiKey := "secret"; companyDomain := "acme" |}.

Definition start : World :=
  {| cache := ∅; clock := 1700000000000; fetches := 0; draws := 0; trace := [] |}.

Definition respond (code : Z) (reason : string) (h : Headers) (body : string)
    (parsed : option JS.value) : FetchResult :=
  Responded {| status := code; statusText := reason; headers := h;
               text := body; json := parsed |}.

End Plain.

(** ** Notions used to state the properties *)

(** A part of a multipart body: its header lines and its content. *)
Record Part : Type := mkPart {
  part_headers : list string;
  part_content : Buffer
}.

(** A body of parts, each after a delimiter line of the boundary, closed by
    the boundary between two pairs of dashes. *)
Definition encode_part (boundary : string) (p : Part) : string :=
  "--" +:+ boundary +:+ CRLF
  +:+ String.concat EmptyString (List.map (fun h => h +:+ CRLF) (part_headers p))
  +:+ CRLF +:+ part_content p +:+ CRLF.

Definition multipart (boundary : string) (parts : list Part) : Buffer :=
  String.concat EmptyString (List.map (encode_part boundary) parts)
  +:+ "--" +:+ boundary +:+ "--" +:+ CRLF.

Definition file_part (fileName : string) (payload : Buffer) : Part :=
  {| part_headers :=
       ["Content-Disposition: form-data; name=" +:+ DQUOTE +:+ "file" +:+ DQUOTE
          +:+ "; filename=" +:+ DQUOTE +:+ fileName +:+ DQUOTE;
        "Content-Type: " +:+ fileContentType fileName];
     part_content := payload |}.

Definition category_part (c : string) : Part :=
  {| part_headers :=
       ["Content-Disposition: form-data; name=" +:+ DQUOTE +:+ "category" +:+ DQUOTE];
     part_content := c |}.

(** The parts of an upload: the file, then the category when the
    identifier is a text that is not empty. *)
Definition upload_parts (payload : Buffer) (fileName : string)
    (categoryId : option string) : list Part :=
  file_part fileName payload
  :: match categoryId with
     | Some c => if JS.truthy_string c then [category_part c] else []
     | None => []
     end.

(** The status of a rate limit. *)
Definition limited (r : Response) : Prop := status r = 429 \/ status r = 503.

(** The message of an error that ends the request at once. *)
Definition terminal_message (r : Response) : string :=
  if status r =? 401 then message_unauthorized
  else if status r =? 403 then message_forbidden
  else if status r =? 404 then message_not_found
  else errorMessage r.

(** The record thrown for a response [r] that ends the request. *)
Definition failure_of (r : Response) (e : ApiError) : Prop :=
  ok r = false
  /\ error e = "API_ERROR"
  /\ api_status e = Some (status r)
  /\ (limited r /\ message e = message_exhausted
      \/ ~ limited r /\ message e = terminal_message r).

(** What [makeRequest] makes of a 2xx response. *)
Inductive Payload : Type :=
| PayloadEmpty
| PayloadJson
| PayloadText.

Definition payload_kind (r : Response) : Payload :=
  let contentType := Headers_get (headers r) "content-type" in
  if negb (JS.truthy_string (default EmptyString contentType)) || (status r =? 204)
  then PayloadEmpty
  else if JS.includes "application/json" (default EmptyString contentType)
       then PayloadJson
       else PayloadText.

(** A computation that neither reads nor writes the cache: from another
    cache it has the same outcome and leaves that cache as it was. *)
Definition cache_blind {A : Type} (m : M A) : Prop :=
  forall (w : World) (c : gmap string CacheEntry),
    m (with_cache c w) = (fst (m w), with_cache c (snd (m w))).

Section Notions.

Context {rt : Runtime}.
Variable env : Env.
Variable config : BambooHRConfig.
Variable endpoint : string.
Variable method : Method.
Variable body : option JS.value.
Variable queryParams : option QueryParams.
Variable maxRetries : Z.

(** The world in which a request reaches the network: after the lookup of
    a GET, as it is for the other methods. *)
Definition entered (w : World) : World :=
  match method with
  | GET => snd (getFromCache (getCacheKey endpoint queryParams) w)
  | _ => w
  end.

(** The world after a rate-limited turn that will be tried again: the
    [fetch], the line on the console, the wait, the draw. *)
Definition retried (wait : JS.number) (a : Z) (w : World) : World :=
  drawn (advance (JS.timer_delay wait)
           (emit (EvSleep wait)
              (emit (EvConsoleError (retrying_message maxRetries wait a))
                 (fetched env (request_options config endpoint method body queryParams) w)))).

(** The world after the [fetch] of a GET whose JSON answer is stored. *)
Definition stored (d : JS.value) (w : World) : World :=
  let w' := fetched env (request_options config endpoint method body queryParams) w in
  with_cache (<[getCacheKey endpoint queryParams
                 := {| data := d; timestamp := clock w' |}]> (cache w')) w'.

(** The outcomes of one turn of the loop, by what the network answers. *)
Inductive turn_outcome (a : Z) (rd : Q) (w : World) : Outcome Step * World -> Prop :=
| turn_rejected_last (n m : string) :
    net env (fetches w) = Rejected n m -> a = maxRetries ->
    turn_outcome a rd w
      (Threw (ThrowNative n m),
       fetched env (request_options config endpoint method body queryParams) w)
| turn_rejected_again (n m : string) :
    net env (fetches w) = Rejected n m -> a <> maxRetries ->
    turn_outcome a rd w
      (Returned (Continue (Some (ThrowNative n m)) rd),
       fetched env (request_options config endpoint method body queryParams) w)
| turn_failed (r : Response) :
    net env (fetches w) = Responded r ->
    ok r = false -> ~ limited r ->
    turn_outcome a rd w
      (Threw (ThrowRecord (with_message (api_error r) (terminal_message r))),
       fetched env (request_options config endpoint method body queryParams) w)
| turn_limited_again (r : Response) :
    net env (fetches w) = Responded r -> limited r -> a < maxRetries ->
    turn_outcome a rd w
      (Returned (Continue
         (Some (ThrowRecord
            (with_message (api_error r)
               (retrying_message maxRetries
                  (waitTime (Headers_get (headers r) "Retry-After") rd) a))))
         (next_delay rd (random env (draws w)))),
       retried (waitTime (Headers_get (headers r) "Retry-After") rd) a w)
| turn_limited_exhausted (r : Response) :
    net env (fetches w) = Responded r -> limited r -> a = maxRetries ->
    turn_outcome a rd w
      (Threw (ThrowRecord (with_message (api_error r) message_exhausted)),
       fetched env (request_options config endpoint method body queryParams) w)
| turn_empty (r : Response) :
    net env (fetches w) = Responded r -> ok r = true ->
    payload_kind r = PayloadEmpty ->
    turn_outcome a rd w
      (Returned (Return (JS.VObj [])),
       fetched env (request_options config endpoint method body queryParams) w)
| turn_text (r : Response) :
    net env (fetches w) = Responded r -> ok r = true ->
    payload_kind r = PayloadText ->
    turn_outcome a rd w
      (Returned (Return (JS.VStr (text r))),
       fetched env (request_options config endpoint method body queryParams) w)
| turn_json (r : Response) (d : JS.value) :
    net env (fetches w) = Responded r -> ok r = true ->
    payload_kind r = PayloadJson -> json r = Some d ->
    turn_outcome a rd w
      (Returned (Return d),
       if Method_eqb method GET then stored d w
       else fetched env (request_options config endpoint method body queryParams) w)
| turn_bad_json_last (r : Response) :
    net env (fetches w) = Responded r -> ok r = true ->
    payload_kind r = PayloadJson -> json r = None -> a = maxRetries ->
    turn_outcome a rd w
      (Threw (ThrowNative "SyntaxError" "Unexpected token in JSON"),
       fetched env (request_options config endpoint method body queryParams) w)
| turn_bad_json_again (r : Response) :
    net env (fetches w) = Responded r -> ok r = true ->
    payload_kind r = PayloadJson -> json r = None -> a <> maxRetries ->
    turn_outcome a rd w
      (Returned (Continue (Some (ThrowNative "SyntaxError" "Unexpected token in JSON")) rd),
       fetched env (request_options config endpoint method body queryParams) w).

(** The value of [retryDelay] after [k] rate-limited turns, the first of
    which took the draw of index [d0]. *)
Fixpoint backoff (d0 k : nat) : Q :=
  match k with
  | O => 1000
  | S k' => next_delay (backoff d0 k') (random env (d0 + k'))
  end.

(** The events of the [k]th turn of a run of rate-limited answers [rs]
    when the turn is tried again: the fetch, the line on the console, the
    wait. *)
Definition limited_turn_events (rs : nat -> Response) (d0 k : nat) : list Event :=
  let wait := waitTime (Headers_get (headers (rs k)) "Retry-After") (backoff d0 k) in
  [EvFetch (request_options config endpoint method body queryParams);
   EvConsoleError (retrying_message maxRetries wait (Z.of_nat k));
   EvSleep wait].

End Notions.

(** ** The rest of the client *)

Section Photo.

Context {rt : Runtime}.
Variable env : Env.
Variable config : BambooHRConfig.

Definition photo_request (endpoint : string) (photoData : FileData) : Request :=
  let photoBuffer :=
    match photoData with
    | FileBase64 s => base64_decode s
    | FileBuffer b => b
    end in
  {| req_method := POST;
     req_url := baseUrl config +:+ endpoint;
     req_headers :=
       [("Authorization", getAuthHeader config);
        ("Content-Type", "image/jpeg");
        ("Content-Length", JS.show_Z (Z.of_nat (String.length photoBuffer)))];
     req_body := Some photoBuffer |}.

Definition uploadPhoto (endpoint : string) (photoData : FileData) : M unit :=
  response <- fetch env (photo_request endpoint photoData) ;;
  if negb (ok response) then throw (ThrowRecord (api_error response))
  else ret tt.

End Photo.

(** The convenience methods [get], [post], [put] and [delete] of the
    client: [makeRequest] with the default of three retries. *)
Module Convenience.

Section Methods.

Context {rt : Runtime}.
Variable env : Env.
Variable config : BambooHRConfig.

Definition get (endpoint : string) (queryParams : option QueryParams) : M JS.value :=
  makeRequest env config endpoint GET None queryParams 3.

Definition post (endpoint : string) (body : option JS.value)
    (queryParams : option QueryParams) : M JS.value :=
  makeRequest env config endpoint POST body queryParams 3.

Definition put (endpoint : string) (body : option JS.value)
    (queryParams : option QueryParams) : M JS.value :=
  makeRequest env config endpoint PUT body queryParams 3.

Definition delete (endpoint : string) (queryParams : option QueryParams) : M JS.value :=
  makeRequest env config endpoint DELETE None queryParams 3.

End Methods.

End Convenience.

(** ** services/formatting.ts *)

(** constants.ts *)
Definition CHARACTER_LIMIT : Z := 50000.

Definition LF : string := String (ascii_of_nat 10) EmptyString.

(** The texts that [truncateIfNeeded] measures and cuts are sequences of
    UTF-16 code units: [content.length] is their number and
    [substring(0, limit)] the first [limit] of them, so that a character
    outside the basic plane counts for two and may be cut in half. *)
Definition CodeUnit : Type := N.

Definition Text : Type := list CodeUnit.

(** The code units of a text of ASCII characters: one for each. *)
Definition units (s : string) : Text :=
  List.map N_of_ascii (list_ascii_of_string s).

(** [truncateIfNeeded(content, limit)] for an integer [limit];
    [substring(0, limit)] takes a negative limit for 0. *)
Definition truncateIfNeeded (content : Text) (limit : Z) : Text :=
  if Z.of_nat (length content) <=? limit then content
  else
    let truncated := firstn (Z.to_nat limit) content in
    (truncated
     ++ units (LF +:+ LF +:+ "... [Content truncated. Original length: ")
     ++ units (JS.show_Z (Z.of_nat (length content)))
     ++ units " characters, showing first "
     ++ units (JS.show_Z limit)
     ++ units " characters]")%list.

Record PaginationInfo : Type := mkPaginationInfo {
  has_more : bool;
  next_offset : option Z;
  page_total : Z;
  page_count : Z;
  page_offset : Z
}.

(** [createPaginationInfo(total, count, offset, limit)], on integers. *)
Definition createPaginationInfo (total count offset limit : Z) : PaginationInfo :=
  let more := offset + count <? total in
  {| has_more := more;
     next_offset := if more then Some (offset + limit) else None;
     page_total := total;
     page_count := count;
     page_offset := offset |}.

(** [wrapListResponse(items, entityName, additionalMeta)]: the object
    [{ count: items.length, [entityName]: items, ...additionalMeta }] as the
    map of its properties; a later property replaces an earlier one of the
    same name. *)
Definition wrapListResponse (items : list JS.value) (entityName : string)
    (additionalMeta : option (gmap string JS.value)) : gmap string JS.value :=
  default ∅ additionalMeta
  ∪ <[entityName := JS.VArr items]>
      {[ "count" := JS.VNum (JS.of_Z (Z.of_nat (length items))) ]}.

(** [formatError(error)] on what a [catch] receives from the client: an
    error record is an object that is no [Error], a native error is an
    [Error]; [String] of a plain object is the text of [Object]. *)
Definition formatError (error : Thrown) : string :=
  if JS.truthy_string (thrown_message error) then "Error: " +:+ thrown_message error
  else
    match error with
    | ThrowNative _ msg => "Error: " +:+ msg
    | ThrowRecord _ => "Error: " +:+ "[object Object]"
    end.

(** ** config/certification-fields.ts *)

Inductive Category : Type := azure | data_analytics | power_platform | aws | other.

Definition Category_eqb (a b : Category) : bool :=
  match a, b with
  | azure, azure | data_analytics, data_analytics | power_platform, power_platform
  | aws, aws | other, other => true
  | _, _ => false
  end.

Record CertificationFieldConfig : Type := mkCertification {
  completed : string;
  due : string;
  expires : option string;
  cert_name : string;
  category : Category
}.

(** [CERTIFICATION_FIELDS], in the order of its keys. *)
Definition CERTIFICATION_FIELDS : list (string * CertificationFieldConfig) :=
  [
   ("AI-102", mkCertification "4575" "4575.2" (Some "4575.1") "Azure AI Solution" azure);
   ("AI-102-ESI", mkCertification "4576" "4576.2" (Some "4576.1") "AI-102 ESI Prep" azure);
   ("AI-900", mkCertification "4613" "4613.2" (Some "4613.1") "Azure AI Fundamentals" azure);
   ("AZ-104", mkCertification "4524" "4524.2" (Some "4524.1") "Azure Administrator" azure);
   ("AZ-104-ESI", mkCertification "4525" "4525.2" (Some "4525.1") "AZ-104 ESI Prep" azure);
   ("AZ-204", mkCertification "4519" "4519.2" (Some "4519.1") "Azure Developer" azure);
   ("AZ-204-ESI", mkCertification "4520" "4520.2" (Some "4520.1") "AZ-204 ESI Prep" azure);
   ("AZ-305", mkCertification "4529" "4529.2" (Some "4529.1") "Azure Solutions Architect" azure);
   ("AZ-305-ESI", mkCertification "4528" "4528.2" (Some "4528.1") "AZ-305 ESI Prep" azure);
   ("AZ-400", mkCertification "4526" "4526.2" (Some "4526.1") "Azure DevOps" azure);
   ("AZ-400-ESI", mkCertification "4527" "4527.2" (Some "4527.1") "AZ-400 ESI Prep" azure);
   ("AZ-700", mkCertification "4535" "4535.2" (Some "4535.1") "Azure Network Engineer" azure);
   ("AZ-700-ESI", mkCertification "4536" "4536.2" (Some "4536.1") "AZ-700 ESI Prep" azure);
   ("AZ-900", mkCertification "4589" "4589.2" (Some "4589.1") "Azure Fundamentals" azure);
   ("DP-100", mkCertification "4582" "4582.2" (Some "4582.1") "Azure Data Science" data_analytics);
   ("DP-100-ESI", mkCertification "4585" "4585.2" (Some "4585.1") "DP-100 ESI Prep" data_analytics);
   ("DP-203", mkCertification "4521" "4521.2" (Some "4521.1") "Azure Data Engineering" data_analytics);
   ("DP-203-ESI", mkCertification "4522" "4522.2" (Some "4522.1") "DP-203 ESI Prep" data_analytics);
   ("DP-300", mkCertification "4583" "4583.2" (Some "4583.1") "Azure SQL Admin" data_analytics);
   ("DP-300-ESI", mkCertification "4584" "4584.2" (Some "4584.1") "DP-300 ESI Prep" data_analytics);
   ("DP-420", mkCertification "4534" "4534.2" (Some "4534.1") "Azure Cosmos DB" data_analytics);
   ("DP-420-ESI", mkCertification "4533" "4533.2" (Some "4533.1") "DP-420 ESI Prep" data_analytics);
   ("DP-600", mkCertification "4574" "4574.2" (Some "4574.1") "Microsoft Fabric" data_analytics);
   ("PL-300", mkCertification "4523" "4523.2" (Some "4523.1") "Power BI Data Analyst" power_platform);
   ("PL-300-ESI", mkCertification "4581" "4581.2" (Some "4581.1") "PL-300 ESI Prep" power_platform);
   ("PL-400", mkCertification "4580" "4580.2" (Some "4580.1") "Power Platform Developer" power_platform);
   ("PL-400-ESI", mkCertification "4579" "4579.2" (Some "4579.1") "PL-400 ESI Prep" power_platform);
   ("PL-600", mkCertification "4577" "4577.2" (Some "4577.1") "Power Platform Architect" power_platform);
   ("PL-600-ESI", mkCertification "4578" "4578.2" (Some "4578.1") "PL-600 ESI Prep" power_platform);
   ("AWS-CP", mkCertification "4588" "4588.2" (Some "4588.1") "AWS Cloud Practitioner" aws);
   ("AWS-SAA", mkCertification "4587" "4587.2" (Some "4587.1") "AWS Solutions Architect Associate" aws);
   ("JIRA", mkCertification "4532" "4532.2" (None) "Atlassian Jira Fundamentals" other);
   ("KNOWBE4", mkCertification "4530" "4530.2" (Some "4530.1") "KnowBe4 Security Trainings" other);
   ("TKW-ISMS", mkCertification "4531" "4531.2" (Some "4531.1") "TKW Security ISMS" other);
   ("HIGHBRIDGE", mkCertification "4596" "4596.2" (None) "High Bridge Business Bootcamp" other)
  ].

Definition METADATA_FIELDS : list (string * string) :=
  [("skills", "4592"); ("seniority", "4586"); ("teams", "4595")].

Definition certification_field_ids (cert : CertificationFieldConfig) : list string :=
  completed cert
  :: (if JS.truthy_string (due cert) then [due cert] else [])
  ++ match expires cert with
     | Some e => if JS.truthy_string e then [e] else []
     | None => []
     end.

Definition getAllCertificationFieldIds : list string :=
  ["displayName"; "department"; "id"]
  ++ List.flat_map (fun entry => certification_field_ids (snd entry)) CERTIFICATION_FIELDS.

Definition getCertificationFieldsByCategory (c : Category)
  : list (string * CertificationFieldConfig) :=
  List.filter (fun entry => Category_eqb (category (snd entry)) c) CERTIFICATION_FIELDS.

(** The first entry of the table whose [completed] field is [baseFieldId]. *)
Fixpoint code_of_completed (baseFieldId : string)
    (table : list (string * CertificationFieldConfig)) : option string :=
  match table with
  | [] => None
  | (code, config) :: rest =>
      if String.eqb (completed config) baseFieldId then Some code
      else code_of_completed baseFieldId rest
  end.

Definition getCertificationCodeFromFieldId (fieldId : string) : option string :=
  let baseFieldId := hd EmptyString (JS.split "." fieldId) in
  code_of_completed baseFieldId CERTIFICATION_FIELDS.

(** ** tools/assessments.ts: the status of a certification *)

Definition number_sub (a b : JS.number) : JS.number :=
  match a, b with
  | JS.Num x, JS.Num y => JS.Num (x - y)
  | _, _ => JS.NaN
  end.

(** [Math.ceil] *)
Definition Math_ceil (a : JS.number) : JS.number :=
  match a with
  | JS.Num x => JS.Num (inject_Z (Qceiling x))
  | JS.NaN => JS.NaN
  end.

(** [a < b] and [a <= b]: false when either is [NaN]. *)
Definition number_ltb (a b : JS.number) : bool :=
  match a, b with
  | JS.Num x, JS.Num y => negb (Qle_bool y x)
  | _, _ => false
  end.

Definition number_leb (a b : JS.number) : bool :=
  match a, b with
  | JS.Num x, JS.Num y => Qle_bool x y
  | _, _ => false
  end.

Inductive CertificationStatus : Type :=
| status_active
| status_expiring_soon
| status_expired
| status_not_started.

Record StatusResult : Type := mkStatusResult {
  cert_status : CertificationStatus;
  daysUntilDue : option JS.number;
  daysUntilExpires : option JS.number
}.

(** [CERTIFICATION_STATUS_THRESHOLDS.expiringWithinDays] *)
Definition expiringWithinDays : Z := 30.

Definition truthy_text (s : option string) : bool :=
  match s with
  | Some x => JS.truthy_string x
  | None => false
  end.

Section CertificationStatus.

(** [new Date(s).getTime()]: the milliseconds of the date that the text
    denotes, [NaN] for a text that is no date. *)
Variable Date_getTime : string -> JS.number.

(** [now.getTime()] after [now.setHours(0, 0, 0, 0)]: the milliseconds of
    the start of the current day. *)
Variable today : Z.

(** [Math.ceil((date.getTime() - now.getTime()) / (1000 * 60 * 60 * 24))] *)
Definition days_until (date : string) : JS.number :=
  Math_ceil (JS.div (number_sub (Date_getTime date) (JS.of_Z today))
                    (JS.of_Z (1000 * 60 * 60 * 24))).

Definition calculateCertificationStatus (completedDate expiresDate dueDate : option string)
  : StatusResult :=
  if negb (truthy_text completedDate) then
    if truthy_text dueDate then
      let days := days_until (default EmptyString dueDate) in
      if number_ltb days (JS.of_Z 0)
      then {| cert_status := status_expired; daysUntilDue := Some days;
              daysUntilExpires := None |}
      else {| cert_status := status_not_started; daysUntilDue := Some days;
              daysUntilExpires := None |}
    else {| cert_status := status_not_started; daysUntilDue := None;
            daysUntilExpires := None |}
  else if truthy_text expiresDate then
    let days := days_until (default EmptyString expiresDate) in
    if number_ltb days (JS.of_Z 0)
    then {| cert_status := status_expired; daysUntilDue := None;
            daysUntilExpires := Some days |}
    else if number_leb days (JS.of_Z expiringWithinDays)
    then {| cert_status := status_expiring_soon; daysUntilDue := None;
            daysUntilExpires := Some days |}
    else {| cert_status := status_active; daysUntilDue := None;
            daysUntilExpires := Some days |}
  else {| cert_status := status_active; daysUntilDue := None;
          daysUntilExpires := None |}.

End CertificationStatus.

(** ** More notions used to state the properties *)

Definition is_fetch (ev : Event) : bool :=
  match ev with EvFetch _ => true | _ => false end.

Definition is_sleep (ev : Event) : bool :=
  match ev with EvSleep _ => true | _ => false end.

Definition count_fetches (tr : list Event) : nat := length (List.filter is_fetch tr).

Definition count_sleeps (tr : list Event) : nat := length (List.filter is_sleep tr).

(** What a 2xx response yields; [None] when its JSON does not parse. *)
Definition payload (r : Response) : option JS.value :=
  match payload_kind r with
  | PayloadEmpty => Some (JS.VObj [])
  | PayloadJson => json r
  | PayloadText => Some (JS.VStr (text r))
  end.

(** A 2xx response that is declared as JSON and does not parse. *)
Definition bad_json (r : Response) : Prop :=
  ok r = true /\ payload_kind r = PayloadJson /\ json r = None.

(** Every [fetch] among the events is the [fetch] of [r]. *)
Definition fetches_only (r : Request) (tr : list Event) : Prop :=
  Forall (fun ev => match ev with EvFetch r' => r' = r | _ => True end) tr.

(** The record of the fallback after the loop of [makeRequest]. *)
Definition unknown_error : ApiError :=
  {| error := "UNKNOWN_ERROR";
     message := "An unknown error occurred";
     api_status := None |}.

(** A wait is either a delay of the backoff, between 1000 and 8000 ms, or
    what the [Retry-After] header of some answer of the network asks. *)
Definition measured_wait (env : Env) (ev : Event) : Prop :=
  match ev with
  | EvSleep ms =>
      (exists q : Q, ms = JS.Num q /\ (1000 <= q)%Q /\ (q <= 8000)%Q)
      \/ (exists (i : nat) (r : Response) (h : string),
            net env i = Responded r
            /\ Headers_get (headers r) "Retry-After" = Some h
            /\ h <> EmptyString
            /\ ms = JS.mul (JS.parseInt h) (JS.of_Z 1000))
  | _ => True
  end.

(** The events that a call adds: at most four fetches, all of the request
    [r], and at most three waits. *)
Definition within_three_retries (r : Request) (w : World) {A} (run : Outcome A * World)
  : Prop :=
  exists added : list Event,
    trace (snd run) = (trace w ++ added)%list
    /\ fetches_only r added
    /\ fetches (snd run) = (fetches w + count_fetches added)%nat
    /\ (count_fetches added <= 4)%nat
    /\ (count_sleeps added <= 3)%nat.

(** Every [fetch] among the events carries the [Authorization] header of
    the configured key and goes to a URL under the base URL of the
    configured company. *)
Definition authorized {rt : Runtime} (config : BambooHRConfig) (tr : list Event) : Prop :=
  Forall (fun ev => match ev with
                    | EvFetch r =>
                        Headers_get (req_headers r) "Authorization"
                        = Some (getAuthHeader config)
                        /\ String.prefix (baseUrl config) (req_url r) = true
                    | _ => True
                    end) tr.

(** ** tools/assessments.ts: the certifications of a report *)

Definition category_text (c : Category) : string :=
  match c with
  | azure => "azure"
  | data_analytics => "data"
  | power_platform => "power-platform"
  | aws => "aws"
  | other => "other"
  end.

Definition status_text (s : CertificationStatus) : string :=
  match s with
  | status_active => "active"
  | status_expiring_soon => "expiring_soon"
  | status_expired => "expired"
  | status_not_started => "not_started"
  end.

(** [Certification] of types.ts. *)
Module Certification.

Record t : Type := mk {
  employeeId : string;
  employeeName : string;
  certificationCode : string;
  certificationName : string;
  category : Category;
  completedDate : option string;
  dueDate : option string;
  expiresDate : option string;
  status : CertificationStatus;
  daysUntilDue : option JS.number;
  daysUntilExpires : option JS.number
}.

End Certification.

(** A row of a custom report: the properties that are read hold texts. *)
Definition Employee : Type := gmap string string.

(** [filter && filter !== 'all' && value !== filter]: the entry is passed
    over. *)
Definition filtered_out (filter : option string) (value : string) : bool :=
  match filter with
  | Some f => JS.truthy_string f && negb (String.eqb f "all") && negb (String.eqb value f)
  | None => false
  end.

Section Certifications.

Variable Date_getTime : string -> JS.number.
Variable today : Z.

(** The body of the loop of [parseEmployeeCertifications] for one entry of
    the table: [None] where the loop continues without a push. *)
Definition parse_entry (employee : Employee)
    (filterCategory filterStatus filterCode : option string)
    (entry : string * CertificationFieldConfig) : option Certification.t :=
  let '(code, config) := entry in
  if filtered_out filterCategory (category_text (category config)) then None
  else if truthy_text filterCode && negb (String.eqb code (default EmptyString filterCode))
  then None
  else
    let completedDate := employee !! completed config in
    let dueDate := employee !! due config in
    let expiresDate :=
      match expires config with
      | Some e => if JS.truthy_string e then employee !! e else None
      | None => None
      end in
    if negb (truthy_text completedDate) && negb (truthy_text dueDate) then None
    else
      let result :=
        calculateCertificationStatus Date_getTime today completedDate expiresDate dueDate in
      if filtered_out filterStatus (status_text (cert_status result)) then None
      else
        Some {| Certification.employeeId := default EmptyString (employee !! "id");
                Certification.employeeName := default EmptyString (employee !! "displayName");
                Certification.certificationCode := code;
                Certification.certificationName := cert_name config;
                Certification.category := category config;
                Certification.completedDate := completedDate;
                Certification.dueDate := dueDate;
                Certification.expiresDate := expiresDate;
                Certification.status := cert_status result;
                Certification.daysUntilDue := daysUntilDue result;
                Certification.daysUntilExpires := daysUntilExpires result |}.

(** The loop over the entries of a table, in their order. *)
Fixpoint parse_entries (employee : Employee)
    (filterCategory filterStatus filterCode : option string)
    (table : list (string * CertificationFieldConfig)) : list Certification.t :=
  match table with
  | [] => []
  | entry :: rest =>
      match parse_entry employee filterCategory filterStatus filterCode entry with
      | Some cert =>
          cert :: parse_entries employee filterCategory filterStatus filterCode rest
      | None => parse_entries employee filterCategory filterStatus filterCode rest
      end
  end.

Definition parseEmployeeCertifications (employee : Employee)
    (filterCategory filterStatus filterCode : option string) : list Certification.t :=
  parse_entries employee filterCategory filterStatus filterCode CERTIFICATION_FIELDS.

(** [new Date(a) > new Date(b)]: false when either is no date. *)
Definition date_after (a b : string) : bool :=
  number_ltb (Date_getTime b) (Date_getTime a).

(** [bound && date && new Date(date) > new Date(bound)] and its mirror. *)
Definition past_bound (bound date : option string) : bool :=
  truthy_text bound && truthy_text date
  && date_after (default EmptyString date) (default EmptyString bound).

Definition before_bound (bound date : option string) : bool :=
  truthy_text bound && truthy_text date
  && date_after (default EmptyString bound) (default EmptyString date).

(** The predicate of the filter of [filterByDateRange]. *)
Definition in_date_range (dueBefore dueAfter expiresBefore expiresAfter : option string)
    (cert : Certification.t) : bool :=
  if past_bound dueBefore (Certification.dueDate cert) then false
  else if before_bound dueAfter (Certification.dueDate cert) then false
  else if past_bound expiresBefore (Certification.expiresDate cert) then false
  else if before_bound expiresAfter (Certification.expiresDate cert) then false
  else true.

Definition filterByDateRange (certifications : list Certification.t)
    (dueBefore dueAfter expiresBefore expiresAfter : option string)
  : list Certification.t :=
  List.filter (in_date_range dueBefore dueAfter expiresBefore expiresAfter) certifications.

End Certifications.

(** ** Notions for the certifications *)

(** A filter on the category or the status lets a value pass when it is
    not given, empty, [all], or the value itself. *)
Definition admits (filter : option string) (value : string) : Prop :=
  match filter with
  | None => True
  | Some f => f = EmptyString \/ f = "all" \/ f = value
  end.

(** The filter on the code knows no [all]. *)
Definition admits_code (filter : option string) (code : string) : Prop :=
  match filter with
  | None => True
  | Some f => f = EmptyString \/ f = code
  end.

Section DateBounds.

Variable Date_getTime : string -> JS.number.

(** Both texts are dates and the first is the later one. *)
Definition later_than (a b : string) : Prop :=
  exists ta tb : Q,
    Date_getTime a = JS.Num ta /\ Date_getTime b = JS.Num tb /\ (tb < ta)%Q.

(** No date of the certification lies beyond a bound: where the date is
    there and the bound is given, the date is not later than a [Before]
    bound and a [After] bound is not later than the date. *)
Definition within_date_bounds (dueBefore dueAfter expiresBefore expiresAfter : option string)
    (cert : Certification.t) : Prop :=
  (forall d b : string,
      Certification.dueDate cert = Some d -> d <> EmptyString ->
      (dueBefore = Some b -> b <> EmptyString -> ~ later_than d b)
      /\ (dueAfter = Some b -> b <> EmptyString -> ~ later_than b d))
  /\ (forall d b : string,
        Certification.expiresDate cert = Some d -> d <> EmptyString ->
        (expiresBefore = Some b -> b <> EmptyString -> ~ later_than d b)
        /\ (expiresAfter = Some b -> b <> EmptyString -> ~ later_than b d)).

End DateBounds.

(** * Properties *)

(** ** The built-ins at work *)

Example parseInt_2 : JS.parseInt "2" = JS.of_Z 2.
Proof. reflexivity. Qed.

Example parseInt_120s : JS.parseInt " 120 seconds" = JS.of_Z 120.
Proof. reflexivity. Qed.

Example parseInt_date : JS.parseInt "Wed, 21 Oct 2015 07:28:00 GMT" = JS.NaN.
Proof. reflexivity. Qed.

Example split_location : JS.split "/" "/files/987" = [""; "files"; "987"].
Proof. reflexivity. Qed.

Example show_status : JS.show_Z 404 = "404".
Proof. vm_compute. reflexivity. Qed.

Example content_type_pdf : fileContentType "report.pdf" = "application/pdf".
Proof. reflexivity. Qed.

Example content_type_upper : fileContentType "SCAN.JPG" = "image/jpeg".
Proof. reflexivity. Qed.

Example content_type_unknown : fileContentType "archive.zip" = "application/octet-stream".
Proof. reflexivity. Qed.

Example content_type_no_dot : fileContentType "README" = "application/octet-stream".
Proof. reflexivity. Qed.

Example fileId_987 : fileId (Some "/files/987") = Some "987".
Proof. reflexivity. Qed.

Example base64_key : Plain.base64 "secret:x" = "c2VjcmV0Ong=".
Proof. reflexivity. Qed.

Example unbase64_key : Plain.unbase64 "c2VjcmV0Ong=" = "secret:x".
Proof. reflexivity. Qed.

Example stringify_params :
  Plain.stringify (JS.VObj [("fields", JS.VStr "firstName"); ("limit", JS.VNum (JS.of_Z 10))])
  = "{" +:+ DQUOTE +:+ "fields" +:+ DQUOTE +:+ ":" +:+ DQUOTE +:+ "firstName" +:+ DQUOTE
    +:+ "," +:+ DQUOTE +:+ "limit" +:+ DQUOTE +:+ ":10}".
Proof. vm_compute. reflexivity. Qed.

(** ** The world under the effects *)

Lemma with_cache_same (w : World) : with_cache (cache w) w = w.
Proof. destruct w; reflexivity. Qed.

(** ** getReport *)

Section ReportProperties.

Context {rt : Runtime}.
Variable env : Env.
Variable config : BambooHRConfig.

Lemma getReport_any_cache (endpoint : string) (format : Format) (w : World)
    (c : gmap string CacheEntry) :
  getReport env config endpoint format (with_cache c w)
  = (fst (getReport env config endpoint format w),
     with_cache c (fetched env (report_request config endpoint format) w)).
Proof.
  unfold getReport, bind, fetch. cbn [fetches with_cache].
  destruct (net env (fetches w)) as [n m|r]; [reflexivity|].
  destruct (ok r); cbn [negb]; [|reflexivity].
  destruct format; unfold Response_json, Response_text, bind, ret, throw;
    try destruct (json r); reflexivity.
Qed.

(** C10.  Whatever the format, [getReport] goes around the cache and the
    retry loop of the executor: the world after the call is the world
    before it with one [fetch] added, so that the cache is as it was and
    there is no wait and no second attempt; run from any other cache, the
    call has the same outcome and leaves that cache as it was; and a
    response that is not 2xx, 429 and 503 among them, is thrown at once as
    the error record of that response. *)
Theorem getReport_bypasses_cache_and_retry :
  forall (endpoint : string) (format : Format) (w : World),
    let run := getReport env config endpoint format w in
    snd run = fetched env (report_request config endpoint format) w
    /\ cache (snd run) = cache w
    /\ trace (snd run) = (trace w ++ [EvFetch (report_request config endpoint format)])%list
    /\ (forall c : gmap string CacheEntry,
          getReport env config endpoint format (with_cache c w)
          = (fst run, with_cache c (snd run)))
    /\ (forall r : Response,
          net env (fetches w) = Responded r -> ok r = false ->
          fst run = Threw (ThrowRecord (api_error r))).
Proof.
  intros endpoint format w run.
  assert (Hw : snd run = fetched env (report_request config endpoint format) w).
  { pose proof (getReport_any_cache endpoint format w (cache w)) as H.
    rewrite with_cache_same in H. subst run. rewrite H. reflexivity. }
  split; [exact Hw|]. rewrite Hw.
  split; [reflexivity|]. split; [reflexivity|]. split.
  - intros c. apply getReport_any_cache.
  - intros r Hnet Hok. subst run. unfold getReport, bind, fetch.
    rewrite Hnet, Hok. reflexivity.
Qed.

End ReportProperties.

(** A report that meets a rate limit: one attempt, the error of the 429. *)
Lemma getReport_rate_limited_run :
  let env := Plain.answers [Plain.respond 429 "Too Many Requests" [("Retry-After", "2")] "" None;
                            Plain.respond 200 "OK" [("content-type", "application/json")] "[]"
                              (Some (JS.VArr []))] in
  let run := getReport env Plain.config "/reports/7" FormatJson Plain.start in
  fst run = Threw (ThrowRecord {| error := "API_ERROR";
                                  message := "HTTP 429: Too Many Requests";
                                  api_status := Some 429 |})
  /\ fetches (snd run) = 1%nat
  /\ cache (snd run) = ∅.
Proof.
  pose proof (getReport_bypasses_cache_and_retry
                (Plain.answers [Plain.respond 429 "Too Many Requests" [("Retry-After", "2")] "" None;
                                Plain.respond 200 "OK" [("content-type", "application/json")] "[]"
                                  (Some (JS.VArr []))])
                Plain.config "/reports/7" FormatJson Plain.start) as (Hw & Hc & _ & _ & Hthrow).
  cbv zeta. split; [|split].
  - rewrite (Hthrow _ eq_refl eq_refl). vm_compute. reflexivity.
  - rewrite Hw. reflexivity.
  - rewrite Hc. reflexivity.
Defined.

(** ** Texts *)

Lemma append_cons (c : ascii) (s t : string) : String c s +:+ t = String c (s +:+ t).
Proof. reflexivity. Qed.

Lemma append_empty_l (s : string) : EmptyString +:+ s = s.
Proof. reflexivity. Qed.

Lemma append_empty_r (s : string) : s +:+ EmptyString = s.
Proof. induction s as [|c s IH]; [reflexivity|]. rewrite append_cons, IH. reflexivity. Qed.

Lemma append_assoc (s t u : string) : (s +:+ t) +:+ u = s +:+ (t +:+ u).
Proof.
  induction s as [|c s IH]; [reflexivity|].
  rewrite !append_cons, IH. reflexivity.
Qed.

Lemma split_nonempty (sep : ascii) (s : string) : JS.split sep s <> [].
Proof.
  destruct s as [|c s]; simpl; [discriminate|].
  destruct (Ascii.eqb c sep); [discriminate|].
  destruct (JS.split sep s); discriminate.
Qed.

(** A text without the separator is its own single segment. *)
Lemma split_no_separator (seg : string) :
  JS.includes "/" seg = false -> JS.split "/" seg = [seg].
Proof.
  induction seg as [|c seg IH]; [reflexivity|].
  cbn [JS.includes JS.split String.prefix]. intros H.
  apply orb_false_iff in H as [Hc Hrest].
  destruct (Ascii.eqb c "/") eqn:Ec.
  - apply Ascii.eqb_eq in Ec. subst c. simpl in Hc.
    destruct seg; discriminate.
  - rewrite (IH Hrest). reflexivity.
Qed.

(** Splitting distributes over a separator. *)
Lemma split_app (sep : ascii) (pre rest : string) :
  JS.split sep (pre +:+ String sep rest)
  = (JS.split sep pre ++ JS.split sep rest)%list.
Proof.
  induction pre as [|c pre IH].
  - rewrite append_empty_l. cbn [JS.split]. rewrite Ascii.eqb_refl. reflexivity.
  - rewrite append_cons. cbn [JS.split]. rewrite IH.
    destruct (Ascii.eqb c sep); [reflexivity|].
    destruct (JS.split sep pre) as [|s1 ss] eqn:E; [|reflexivity].
    exfalso. exact (split_nonempty _ _ E).
Qed.

(** The last segment of a path is what follows its last slash. *)
Lemma pop_split_trailing (pre seg : string) :
  JS.includes "/" seg = false ->
  JS.pop (JS.split "/" (pre +:+ "/" +:+ seg)) = Some seg.
Proof.
  intros Hseg. unfold JS.pop.
  change ("/" +:+ seg) with (String "/" seg).
  rewrite split_app, (split_no_separator _ Hseg).
  apply last_snoc.
Qed.

(** ** uploadFile *)

Ltac reassoc := repeat rewrite append_assoc; repeat rewrite append_empty_l.

(** The body of an upload is the file part, whose content is the payload as
    it is, then the category part when a category is given, then the
    closing boundary. *)
Lemma fullBody_multipart (boundary : string) (payload : Buffer) (fileName : string)
    (categoryId : option string) :
  fullBody boundary payload fileName categoryId
  = multipart boundary (upload_parts payload fileName categoryId).
Proof.
  unfold fullBody, multipart, upload_parts, upload_prefix, categoryPart.
  destruct categoryId as [c|]; [destruct (JS.truthy_string c)|];
    unfold encode_part, file_part, category_part;
    cbn [List.map String.concat part_headers part_content];
    reassoc; reflexivity.
Qed.

(** The upload of [report.pdf] in category 42: two parts, the first declared
    as [application/pdf]. *)
Lemma fullBody_report_pdf (boundary : string) (payload : Buffer) :
  fullBody boundary payload "report.pdf" (Some "42")
  = multipart boundary
      [ {| part_headers :=
             ["Content-Disposition: form-data; name=" +:+ DQUOTE +:+ "file" +:+ DQUOTE
                +:+ "; filename=" +:+ DQUOTE +:+ "report.pdf" +:+ DQUOTE;
              "Content-Type: application/pdf"];
           part_content := payload |};
        {| part_headers :=
             ["Content-Disposition: form-data; name=" +:+ DQUOTE +:+ "category" +:+ DQUOTE];
           part_content := "42" |} ].
Proof. rewrite fullBody_multipart. reflexivity. Qed.

(** An extension that the table does not own and that [Object.prototype]
    does not have gives the default type. *)
Lemma fileContentType_default (fileName : string) :
  contentTypeMap_get (file_extension fileName) = None ->
  fileContentType fileName = "application/octet-stream".
Proof. unfold fileContentType. intros ->. reflexivity. Qed.

(** C7.  The upload of a file named [notes.constructor]: the extension is
    not a key of the table, yet the lookup finds [constructor] in the
    prototype of the table, and the file part declares as its type the text
    of that function, not [application/octet-stream]. *)
Theorem uploadFile_inherited_extension :
  file_extension "notes.constructor" = "constructor"
  /\ assoc "constructor" contentTypeMap = None
  /\ fileContentType "notes.constructor" = "function Object() { [native code] }"
  /\ fullBody "B" "abc" "notes.constructor" None
     = multipart "B"
         [ {| part_headers :=
                ["Content-Disposition: form-data; name=" +:+ DQUOTE +:+ "file" +:+ DQUOTE
                   +:+ "; filename=" +:+ DQUOTE +:+ "notes.constructor" +:+ DQUOTE;
                 "Content-Type: function Object() { [native code] }"];
              part_content := "abc" |} ].
Proof. repeat split; reflexivity. Qed.

Section UploadProperties.

Context {rt : Runtime}.
Variable env : Env.
Variable config : BambooHRConfig.

(** C8.  [uploadFile] makes one attempt and no more, whatever the answer:
    the world after the call is the world before it with the one [fetch].
    On a 2xx answer it returns as the id what follows the last slash of the
    [Location] header (the whole value when it has no slash), and no id
    when the header is absent; on any other answer it throws the error
    record of the response, whose message is the vendor's header or else
    the status line. *)
Theorem uploadFile_outcome :
  forall (endpoint : string) (fileData : FileData) (fileName : string)
         (categoryId : option string) (w : World),
    let req := upload_request config endpoint (clock w) fileData fileName categoryId in
    let run := uploadFile env config endpoint fileData fileName categoryId w in
    snd run = fetched env req w
    /\ (forall r : Response,
          net env (fetches w) = Responded r -> ok r = true ->
          (forall pre seg : string,
              Headers_get (headers r) "Location" = Some (pre +:+ "/" +:+ seg) ->
              JS.includes "/" seg = false ->
              fst run = Returned {| id := Some seg |})
          /\ (forall l : string,
                Headers_get (headers r) "Location" = Some l ->
                l <> EmptyString -> JS.includes "/" l = false ->
                fst run = Returned {| id := Some l |})
          /\ (Headers_get (headers r) "Location" = None ->
              fst run = Returned {| id := None |}))
    /\ (forall r : Response,
          net env (fetches w) = Responded r -> ok r = false ->
          fst run = Threw (ThrowRecord
            {| error := "API_ERROR";
               message :=
                 or_else (Headers_get (headers r) "X-BambooHR-Error-Message")
                         ("HTTP " +:+ JS.show_Z (status r) +:+ ": " +:+ statusText r);
               api_status := Some (status r) |})).
Proof.
  intros endpoint fileData fileName categoryId w req run.
  subst run req. unfold uploadFile, bind, Date_now, fetch. cbn [fst snd].
  split; [|split].
  - destruct (net env (fetches w)) as [n m|r]; [reflexivity|].
    destruct (ok r); reflexivity.
  - intros r Hnet Hok. rewrite Hnet, Hok. cbn [negb fst]. split; [|split].
    + intros pre seg Hloc Hseg. rewrite Hloc. unfold ret, fileId. cbn [fst].
      replace (JS.truthy_string (pre +:+ "/" +:+ seg)) with true.
      * rewrite (pop_split_trailing _ _ Hseg). reflexivity.
      * destruct pre; reflexivity.
    + intros l Hloc Hl Hseg. rewrite Hloc. unfold ret, fileId. cbn [fst].
      rewrite (split_no_separator _ Hseg).
      destruct l; [congruence | reflexivity].
    + intros Hloc. rewrite Hloc. reflexivity.
  - intros r Hnet Hok. rewrite Hnet, Hok. reflexivity.
Qed.

End UploadProperties.

(** The answer [Location: /files/987] gives the id 987. *)
Lemma uploadFile_location_987 :
  let env := Plain.answers [Plain.respond 201 "Created" [("Location", "/files/987")] "" None] in
  let run := uploadFile env Plain.config "/employees/4/files" (FileBuffer "abc")
               "report.pdf" (Some "42") Plain.start in
  fst run = Returned {| id := Some "987" |} /\ fetches (snd run) = 1%nat.
Proof.
  pose proof (uploadFile_outcome
                (Plain.answers [Plain.respond 201 "Created" [("Location", "/files/987")] "" None])
                Plain.config "/employees/4/files" (FileBuffer "abc")
                "report.pdf" (Some "42") Plain.start) as (Hw & Hok & _).
  cbv zeta. split.
  - destruct (Hok _ eq_refl eq_refl) as [Hloc _].
    exact (Hloc "/files" "987" eq_refl eq_refl).
  - rewrite Hw. reflexivity.
Defined.

(** ** makeRequest: one turn of the loop *)

Section ExecutorProperties.

Context {rt : Runtime}.
Variable env : Env.
Variable config : BambooHRConfig.
Variable endpoint : string.
Variable method : Method.
Variable body : option JS.value.
Variable queryParams : option QueryParams.
Variable maxRetries : Z.

Local Abbreviation req := (request_options config endpoint method body queryParams).
Local Abbreviation key := (getCacheKey endpoint queryParams).
Local Abbreviation the_turn := (turn env config endpoint method body queryParams maxRetries).
Local Abbreviation the_loop := (retry_loop env config endpoint method body queryParams maxRetries).
Local Abbreviation the_network := (network env config endpoint method body queryParams maxRetries).
Local Abbreviation the_request := (makeRequest env config endpoint method body queryParams maxRetries).
Local Abbreviation retry_world := (retried env config endpoint method body queryParams maxRetries).
Local Abbreviation store_world := (stored env config endpoint method body queryParams).
Local Abbreviation enter_world := (entered endpoint method queryParams).
Local Abbreviation limited_turn_events :=
  (limited_turn_events env config endpoint method body queryParams maxRetries).

Lemma limited_not_ok (r : Response) : limited r -> ok r = false.
Proof. unfold ok. intros [-> | ->]; reflexivity. Qed.

Lemma limited_test (r : Response) :
  limited r -> (status r =? 429) || (status r =? 503) = true.
Proof. intros [-> | ->]; reflexivity. Qed.

Lemma not_limited_test (r : Response) :
  status r <> 429 -> status r <> 503 ->
  (status r =? 429) || (status r =? 503) = false.
Proof.
  intros H1 H2. apply orb_false_iff. split; apply Z.eqb_neq; assumption.
Qed.

(** A rejected [fetch]: the turn ends the request only when it is the last
    one; before that the loop goes on at once, without a wait and with the
    delay as it was. *)
Lemma turn_rejected (a : Z) (rd : Q) (w : World) (n m : string) :
  net env (fetches w) = Rejected n m ->
  the_turn a rd w
  = if a =? maxRetries
    then (Threw (ThrowNative n m), fetched env req w)
    else (Returned (Continue (Some (ThrowNative n m)) rd), fetched env req w).
Proof.
  intros Hnet. unfold turn, try_catch, try_block, bind, fetch. rewrite Hnet.
  unfold catch_block, rethrown_at_once. cbn.
  destruct (a =? maxRetries); reflexivity.
Qed.

(** A response that is not 2xx and not a rate limit ends the request. *)
Lemma turn_terminal (a : Z) (rd : Q) (w : World) (r : Response) :
  net env (fetches w) = Responded r ->
  ok r = false -> status r <> 429 -> status r <> 503 ->
  the_turn a rd w
  = (Threw (ThrowRecord (with_message (api_error r) (terminal_message r))),
     fetched env req w).
Proof.
  intros Hnet Hok H429 H503.
  unfold turn, try_catch, try_block, bind, fetch. rewrite Hnet, Hok.
  cbn [negb]. rewrite (not_limited_test r H429 H503).
  assert (Hcatch : forall e,
             api_status e = Some (status r) -> error e = "API_ERROR" ->
             catch_block maxRetries a rd (ThrowRecord e) (fetched env req w)
             = (Threw (ThrowRecord e), fetched env req w)).
  { intros e Hs He. unfold catch_block, rethrown_at_once. cbn. rewrite He, Hs. cbn.
    rewrite !bool_decide_eq_false_2 by congruence. reflexivity. }
  unfold terminal_message.
  destruct (status r =? 401); [apply Hcatch; reflexivity|].
  destruct (status r =? 403); [apply Hcatch; reflexivity|].
  destruct (status r =? 404); [apply Hcatch; reflexivity|].
  unfold throw. rewrite Hcatch by reflexivity. reflexivity.
Qed.

(** A rate-limited response with attempts left: wait, then go on. *)
Lemma turn_limited_retry (a : Z) (rd : Q) (w : World) (r : Response) :
  net env (fetches w) = Responded r -> limited r -> a < maxRetries ->
  let wait := waitTime (Headers_get (headers r) "Retry-After") rd in
  the_turn a rd w
  = (Returned (Continue
       (Some (ThrowRecord (with_message (api_error r) (retrying_message maxRetries wait a))))
       (next_delay rd (random env (draws w)))),
     retry_world wait a w).
Proof.
  intros Hnet Hlim Ha wait.
  unfold turn, try_catch, try_block, bind, fetch.
  rewrite Hnet, (limited_not_ok r Hlim). cbn [negb].
  rewrite (limited_test r Hlim).
  apply Z.ltb_lt in Ha. rewrite Ha. reflexivity.
Qed.

(** A rate-limited response in the last turn: the terminal error. *)
Lemma turn_limited_last (rd : Q) (w : World) (r : Response) :
  net env (fetches w) = Responded r -> limited r ->
  the_turn maxRetries rd w
  = (Threw (ThrowRecord (with_message (api_error r) message_exhausted)),
     fetched env req w).
Proof.
  intros Hnet Hlim.
  unfold turn, try_catch, try_block, bind, fetch.
  rewrite Hnet, (limited_not_ok r Hlim). cbn [negb].
  rewrite (limited_test r Hlim), Z.ltb_irrefl.
  unfold throw, catch_block, rethrown_at_once. cbn.
  rewrite Z.eqb_refl.
  destruct Hlim as [-> | ->]; reflexivity.
Qed.

Lemma turn_ok_empty (a : Z) (rd : Q) (w : World) (r : Response) :
  net env (fetches w) = Responded r -> ok r = true ->
  payload_kind r = PayloadEmpty ->
  the_turn a rd w = (Returned (Return (JS.VObj [])), fetched env req w).
Proof.
  intros Hnet Hok Hkind.
  unfold turn, try_catch, try_block, bind, fetch. rewrite Hnet, Hok. cbn [negb].
  unfold payload_kind in Hkind.
  destruct (negb _ || _); [reflexivity|].
  destruct (JS.includes _ _); discriminate.
Qed.

Lemma turn_ok_text (a : Z) (rd : Q) (w : World) (r : Response) :
  net env (fetches w) = Responded r -> ok r = true ->
  payload_kind r = PayloadText ->
  the_turn a rd w = (Returned (Return (JS.VStr (text r))), fetched env req w).
Proof.
  intros Hnet Hok Hkind.
  unfold turn, try_catch, try_block, bind, fetch. rewrite Hnet, Hok. cbn [negb].
  unfold payload_kind in Hkind.
  destruct (negb _ || _); [discriminate|].
  destruct (JS.includes _ _); [discriminate|reflexivity].
Qed.

Lemma turn_ok_json (a : Z) (rd : Q) (w : World) (r : Response) (d : JS.value) :
  net env (fetches w) = Responded r -> ok r = true ->
  payload_kind r = PayloadJson -> json r = Some d ->
  the_turn a rd w
  = (Returned (Return d),
     if Method_eqb method GET then store_world d w else fetched env req w).
Proof.
  intros Hnet Hok Hkind Hjson.
  unfold turn, try_catch, try_block, bind, fetch. rewrite Hnet, Hok. cbn [negb].
  unfold payload_kind in Hkind.
  destruct (negb _ || _); [discriminate|].
  destruct (JS.includes _ _); [|discriminate].
  unfold Response_json. rewrite Hjson. unfold stored. destruct (Method_eqb method GET); reflexivity.
Qed.

(** A body that is declared as JSON and is not: the SyntaxError is handled
    as a rejected [fetch] is. *)
Lemma turn_ok_bad_json (a : Z) (rd : Q) (w : World) (r : Response) :
  net env (fetches w) = Responded r -> ok r = true ->
  payload_kind r = PayloadJson -> json r = None ->
  let t := ThrowNative "SyntaxError" "Unexpected token in JSON" in
  the_turn a rd w
  = if a =? maxRetries
    then (Threw t, fetched env req w)
    else (Returned (Continue (Some t) rd), fetched env req w).
Proof.
  intros Hnet Hok Hkind Hjson.
  unfold turn, try_catch, try_block, bind, fetch. rewrite Hnet, Hok. cbn [negb].
  unfold payload_kind in Hkind.
  destruct (negb _ || _); [discriminate|].
  destruct (JS.includes _ _); [|discriminate].
  unfold Response_json. rewrite Hjson.
  unfold throw, catch_block, rethrown_at_once. cbn.
  destruct (a =? maxRetries); reflexivity.
Qed.

(** ** makeRequest: the lookup and the first turn *)

Lemma getFromCache_absent (w : World) :
  cache w !! key = None -> getFromCache key w = (Returned JS.VNull, w).
Proof. intros H. unfold getFromCache, bind, cache_get. rewrite H. reflexivity. Qed.

Lemma getFromCache_stale (w : World) (e : CacheEntry) :
  cache w !! key = Some e -> cacheTTL < clock w - timestamp e ->
  getFromCache key w = (Returned JS.VNull, with_cache (delete key (cache w)) w).
Proof.
  intros H Hold. unfold getFromCache, bind, cache_get, Date_now. rewrite H.
  apply Z.ltb_lt in Hold. rewrite Hold. reflexivity.
Qed.

Lemma getFromCache_fresh (w : World) (e : CacheEntry) :
  cache w !! key = Some e -> clock w - timestamp e <= cacheTTL ->
  getFromCache key w = (Returned (data e), w).
Proof.
  intros H Hnew. unfold getFromCache, bind, cache_get, Date_now. rewrite H.
  apply Z.ltb_ge in Hnew. rewrite Hnew. reflexivity.
Qed.

(** The lookup touches the cache alone, and there the key alone. *)
Lemma getFromCache_world (w : World) :
  exists c : gmap string CacheEntry,
    snd (getFromCache key w) = with_cache c w
    /\ (c = cache w \/ c = delete key (cache w)).
Proof.
  destruct (cache w !! key) as [e|] eqn:E.
  - destruct (Z.lt_ge_cases (cacheTTL) (clock w - timestamp e)) as [Hold|Hnew].
    + rewrite (getFromCache_stale w e E Hold). eexists. split; [reflexivity|]. now right.
    + rewrite (getFromCache_fresh w e E Hnew). exists (cache w).
      rewrite with_cache_same. split; [reflexivity|]. now left.
  - rewrite (getFromCache_absent w E). exists (cache w).
    rewrite with_cache_same. split; [reflexivity|]. now left.
Qed.


Lemma entered_world (w : World) :
  exists c : gmap string CacheEntry,
    enter_world w = with_cache c w /\ (c = cache w \/ c = delete key (cache w)).
Proof.
  unfold entered. destruct method; try apply getFromCache_world;
    (exists (cache w); rewrite with_cache_same; split; [reflexivity | now left]).
Qed.

Lemma entered_fetches (w : World) : fetches (enter_world w) = fetches w.
Proof. destruct (entered_world w) as (c & -> & _). reflexivity. Qed.

Lemma entered_trace (w : World) : trace (enter_world w) = trace w.
Proof. destruct (entered_world w) as (c & -> & _). reflexivity. Qed.

Lemma entered_draws (w : World) : draws (enter_world w) = draws w.
Proof. destruct (entered_world w) as (c & -> & _). reflexivity. Qed.

Lemma entered_clock (w : World) : clock (enter_world w) = clock w.
Proof. destruct (entered_world w) as (c & -> & _). reflexivity. Qed.

(** A request reaches the network when it is not a GET, or when the lookup
    of the GET gives null. *)
Lemma makeRequest_enters (w : World) :
  (method = GET -> fst (getFromCache key w) = Returned JS.VNull) ->
  the_request w = the_network (enter_world w).
Proof.
  unfold makeRequest, entered. destruct method; try reflexivity.
  intros H. specialize (H eq_refl). unfold bind.
  destruct (getFromCache key w) as [o w1]. cbn [fst snd] in *. subst o.
  reflexivity.
Qed.

Lemma network_first_turn (w : World) :
  0 <= maxRetries ->
  the_network w
  = match the_turn 0 1000 w with
    | (Returned (Return v), w') => (Returned v, w')
    | (Returned (Continue lastError retryDelay), w') =>
        the_loop (Z.to_nat maxRetries) 1 lastError retryDelay w'
    | (Threw t, w') => (Threw t, w')
    end.
Proof.
  intros Hm. unfold network.
  replace (Z.to_nat (maxRetries + 1)) with (S (Z.to_nat maxRetries)) by lia.
  cbn [retry_loop]. apply Z.leb_le in Hm. rewrite Hm. unfold bind.
  destruct (the_turn 0 1000 w) as [[[v|le rd]|t] w']; reflexivity.
Qed.

(** C4.  A response that is not 2xx and is neither 429 nor 503 (401, 403
    and 404 among them), met by the first attempt of a request that reaches
    the network, ends the request there: the error record of that response
    is thrown, and the world has one [fetch] more and nothing else, no wait
    and no second attempt. *)
Theorem non_retryable_status_fails_at_once :
  forall (w : World) (r : Response),
    0 <= maxRetries ->
    (method = GET -> fst (getFromCache key w) = Returned JS.VNull) ->
    net env (fetches w) = Responded r ->
    ok r = false -> status r <> 429 -> status r <> 503 ->
    let run := the_request w in
    fst run = Threw (ThrowRecord
                {| error := "API_ERROR";
                   message := terminal_message r;
                   api_status := Some (status r) |})
    /\ snd run = fetched env req (enter_world w)
    /\ fetches (snd run) = S (fetches w)
    /\ trace (snd run) = (trace w ++ [EvFetch req])%list
    /\ draws (snd run) = draws w.
Proof.
  intros w r Hm Hmiss Hnet Hok H429 H503 run. subst run.
  rewrite (makeRequest_enters w Hmiss), (network_first_turn _ Hm).
  rewrite <- entered_fetches in Hnet.
  rewrite (turn_terminal 0 1000 _ r Hnet Hok H429 H503). cbn [fst snd fetched fetches trace draws].
  rewrite entered_fetches, entered_trace, entered_draws. repeat split; reflexivity.
Qed.

Lemma payload_kind_empty (r : Response) :
  status r = 204
  \/ Headers_get (headers r) "content-type" = None
  \/ Headers_get (headers r) "content-type" = Some EmptyString ->
  payload_kind r = PayloadEmpty.
Proof.
  unfold payload_kind. intros [-> | [-> | ->]]; cbn; try reflexivity.
  rewrite orb_true_r. reflexivity.
Qed.

Lemma payload_kind_json (r : Response) (c : string) :
  status r <> 204 -> Headers_get (headers r) "content-type" = Some c ->
  JS.includes "application/json" c = true ->
  payload_kind r = PayloadJson.
Proof.
  intros H204 Hct Hinc. unfold payload_kind. rewrite Hct.
  cbn [default from_option Datatypes.id].
  apply Z.eqb_neq in H204. rewrite H204, Hinc.
  destruct c; [discriminate Hinc | reflexivity].
Qed.

Lemma payload_kind_text (r : Response) (c : string) :
  status r <> 204 -> Headers_get (headers r) "content-type" = Some c ->
  c <> EmptyString -> JS.includes "application/json" c = false ->
  payload_kind r = PayloadText.
Proof.
  intros H204 Hct Hc Hinc. unfold payload_kind. rewrite Hct.
  cbn [default from_option Datatypes.id].
  apply Z.eqb_neq in H204. rewrite H204, Hinc.
  destruct c; [congruence | reflexivity].
Qed.

(** C9.  What a 2xx response yields is decided by its status and content
    type: the empty object for status 204 or when the content-type header
    is missing (or has the empty text as its value); the parsed body when
    the content type contains application/json; the text of the body for
    any other content type.  The turn of the loop that meets the response
    returns that value, at any attempt and in any world, and so does a
    request that reaches the network and meets the response first. *)
Theorem success_response_by_content_type :
  forall (r : Response) (v : JS.value),
    ok r = true ->
    let contentType := Headers_get (headers r) "content-type" in
    ((status r = 204 \/ contentType = None \/ contentType = Some EmptyString)
     /\ v = JS.VObj []
     \/ (exists c : string,
           status r <> 204 /\ contentType = Some c
           /\ JS.includes "application/json" c = true /\ json r = Some v)
     \/ (exists c : string,
           status r <> 204 /\ contentType = Some c /\ c <> EmptyString
           /\ JS.includes "application/json" c = false /\ v = JS.VStr (text r))) ->
    (forall (a : Z) (rd : Q) (w : World),
        net env (fetches w) = Responded r ->
        fst (the_turn a rd w) = Returned (Return v))
    /\ (forall w : World,
          0 <= maxRetries ->
          (method = GET -> fst (getFromCache key w) = Returned JS.VNull) ->
          net env (fetches w) = Responded r ->
          fst (the_request w) = Returned v).
Proof.
  intros r v Hok contentType Hcase.
  assert (Hturn : forall (a : Z) (rd : Q) (w : World),
             net env (fetches w) = Responded r ->
             fst (the_turn a rd w) = Returned (Return v)).
  { intros a rd w Hnet. subst contentType.
    destruct Hcase as [[Hempty ->] | [(c & H204 & Hct & Hinc & Hjson)
                                     | (c & H204 & Hct & Hc & Hinc & ->)]].
    - rewrite (turn_ok_empty a rd w r Hnet Hok (payload_kind_empty r Hempty)).
      reflexivity.
    - rewrite (turn_ok_json a rd w r v Hnet Hok (payload_kind_json r c H204 Hct Hinc) Hjson).
      reflexivity.
    - rewrite (turn_ok_text a rd w r Hnet Hok (payload_kind_text r c H204 Hct Hc Hinc)).
      reflexivity. }
  split; [exact Hturn|].
  intros w Hm Hmiss Hnet.
  rewrite (makeRequest_enters w Hmiss), (network_first_turn _ Hm).
  rewrite <- entered_fetches in Hnet.
  specialize (Hturn 0 1000%Q (enter_world w) Hnet).
  destruct (the_turn 0 1000 (enter_world w)) as [o w']. cbn [fst] in Hturn.
  rewrite Hturn. reflexivity.
Qed.

(** ** The outcomes of a turn *)

Lemma limited_dec (r : Response) : {limited r} + {~ limited r}.
Proof.
  unfold limited.
  destruct (Z.eq_dec (status r) 429); [left; now left|].
  destruct (Z.eq_dec (status r) 503); [left; now right|].
  right. intros [H | H]; contradiction.
Qed.

Lemma turn_outcome_holds (a : Z) (rd : Q) (w : World) :
  a <= maxRetries ->
  turn_outcome env config endpoint method body queryParams maxRetries a rd w
    (the_turn a rd w).
Proof.
  intros Ha.
  destruct (net env (fetches w)) as [n m|r] eqn:Hnet.
  - rewrite (turn_rejected a rd w n m Hnet).
    destruct (Z.eqb_spec a maxRetries) as [E|E]; [eapply turn_rejected_last|eapply turn_rejected_again]; eassumption.
  - destruct (ok r) eqn:Hok.
    + destruct (payload_kind r) eqn:Hkind.
      * rewrite (turn_ok_empty a rd w r Hnet Hok Hkind). eapply turn_empty; eassumption.
      * destruct (json r) as [d|] eqn:Hjson.
        -- rewrite (turn_ok_json a rd w r d Hnet Hok Hkind Hjson). eapply turn_json; eassumption.
        -- rewrite (turn_ok_bad_json a rd w r Hnet Hok Hkind Hjson).
           destruct (Z.eqb_spec a maxRetries) as [E|E];
             [eapply turn_bad_json_last|eapply turn_bad_json_again]; eassumption.
      * rewrite (turn_ok_text a rd w r Hnet Hok Hkind). eapply turn_text; eassumption.
    + destruct (limited_dec r) as [Hlim|Hlim].
      * destruct (Z.eq_dec a maxRetries) as [E|E].
        -- subst a. rewrite (turn_limited_last rd w r Hnet Hlim).
           eapply turn_limited_exhausted; eauto.
        -- assert (Hlt : a < maxRetries) by lia.
           rewrite (turn_limited_retry a rd w r Hnet Hlim Hlt).
           eapply turn_limited_again; eassumption.
      * assert (H429 : status r <> 429) by (intros E; apply Hlim; now left).
        assert (H503 : status r <> 503) by (intros E; apply Hlim; now right).
        rewrite (turn_terminal a rd w r Hnet Hok H429 H503).
        eapply turn_failed; eassumption.
Qed.

Lemma loop_step (turns : nat) (a : Z) (le : option Thrown) (rd : Q) (w : World) :
  a <= maxRetries ->
  the_loop (S turns) a le rd w
  = match the_turn a rd w with
    | (Returned (Return v), w') => (Returned v, w')
    | (Returned (Continue le' rd'), w') => the_loop turns (a + 1) le' rd' w'
    | (Threw t, w') => (Threw t, w')
    end.
Proof.
  intros Ha. cbn [retry_loop]. apply Z.leb_le in Ha. rewrite Ha. unfold bind.
  destruct (the_turn a rd w) as [[[v|le' rd']|t] w']; reflexivity.
Qed.

(** The bound on the turns does not cut the loop short: with
    [maxRetries + 1 - attempt] turns the loop ends by its own test, and
    more turns change nothing. *)
Lemma loop_enough_turns (turns : nat) :
  forall (a : Z) (le : option Thrown) (rd : Q) (w : World),
    (Z.to_nat (maxRetries + 1 - a) <= turns)%nat ->
    the_loop turns a le rd w = the_loop (Z.to_nat (maxRetries + 1 - a)) a le rd w.
Proof.
  induction turns as [|turns IH]; intros a le rd w Hturns.
  - replace (Z.to_nat (maxRetries + 1 - a)) with 0%nat by lia. reflexivity.
  - destruct (Z.leb_spec a maxRetries) as [Ha|Ha].
    + replace (Z.to_nat (maxRetries + 1 - a))
        with (S (Z.to_nat (maxRetries + 1 - (a + 1)))) by lia.
      rewrite !(loop_step _ a le rd w Ha).
      destruct (the_turn a rd w) as [[[v|le' rd']|t] w']; try reflexivity.
      apply IH. lia.
    + replace (Z.to_nat (maxRetries + 1 - a)) with 0%nat by lia.
      cbn [retry_loop]. apply Z.leb_gt in Ha. rewrite Ha. reflexivity.
Qed.

(** ** The mutation verbs and the cache *)

Create HintDb blind.

Lemma blind_ret {A} (a : A) : cache_blind (ret a).
Proof. intros w c. reflexivity. Qed.

Lemma blind_throw {A} (t : Thrown) : cache_blind (@throw A t).
Proof. intros w c. reflexivity. Qed.

Lemma blind_bind {A B} (m : M A) (k : A -> M B) :
  cache_blind m -> (forall a, cache_blind (k a)) -> cache_blind (bind m k).
Proof.
  intros Hm Hk w c. unfold bind. rewrite (Hm w c).
  destruct (m w) as [[a|t] w']; cbn [fst snd]; [apply Hk | reflexivity].
Qed.

Lemma blind_try_catch {A} (m : M A) (h : Thrown -> M A) :
  cache_blind m -> (forall t, cache_blind (h t)) -> cache_blind (try_catch m h).
Proof.
  intros Hm Hh w c. unfold try_catch. rewrite (Hm w c).
  destruct (m w) as [[a|t] w']; cbn [fst snd]; [reflexivity | apply Hh].
Qed.

Lemma blind_fetch (r : Request) : cache_blind (fetch env r).
Proof.
  intros w c. unfold fetch. cbn [fetches with_cache].
  destruct (net env (fetches w)); reflexivity.
Qed.

Lemma blind_sleep (ms : JS.number) : cache_blind (sleep ms).
Proof. intros w c. reflexivity. Qed.

Lemma blind_console_error (line : string) : cache_blind (console_error line).
Proof. intros w c. reflexivity. Qed.

Lemma blind_Math_random : cache_blind (Math_random env).
Proof. intros w c. reflexivity. Qed.

Lemma blind_Response_json (r : Response) : cache_blind (Response_json r).
Proof. unfold Response_json. destruct (json r); [apply blind_ret | apply blind_throw]. Qed.

Lemma blind_Response_text (r : Response) : cache_blind (Response_text r).
Proof. apply blind_ret. Qed.

#[local] Hint Resolve blind_ret blind_throw blind_fetch blind_sleep
  blind_console_error blind_Math_random blind_Response_json
  blind_Response_text : blind.

(** Breaks a computation into its binds and branches. *)
Ltac blind_step :=
  match goal with
  | |- cache_blind (bind _ _) => apply blind_bind; [|intros ?]
  | |- cache_blind (try_catch _ _) => apply blind_try_catch; [|intros ?]
  | |- cache_blind (if ?b then _ else _) => destruct b
  | |- cache_blind (match ?x with _ => _ end) => destruct x
  end.

Ltac blind := repeat blind_step; auto with blind.

Lemma blind_catch_block (a : Z) (rd : Q) (t : Thrown) :
  cache_blind (catch_block maxRetries a rd t).
Proof. unfold catch_block. blind. Qed.

Lemma blind_try_block (a : Z) (rd : Q) :
  method <> GET ->
  cache_blind (try_block env config endpoint method body queryParams maxRetries a rd).
Proof.
  intros Hm. unfold try_block.
  assert (E : Method_eqb method GET = false).
  { revert Hm. destruct method; intros Hm; [congruence | reflexivity..]. }
  rewrite E. blind.
Qed.

Lemma blind_turn (a : Z) (rd : Q) : method <> GET -> cache_blind (the_turn a rd).
Proof.
  intros Hm. unfold turn. apply blind_try_catch.
  - apply blind_try_block, Hm.
  - intros t. apply blind_catch_block.
Qed.

Lemma blind_loop (turns : nat) :
  method <> GET ->
  forall (a : Z) (le : option Thrown) (rd : Q), cache_blind (the_loop turns a le rd).
Proof.
  intros Hm. induction turns as [|turns IH]; intros a le rd; cbn [retry_loop].
  - apply blind_throw.
  - destruct (a <=? maxRetries); [|apply blind_throw].
    apply blind_bind; [apply blind_turn, Hm|].
    intros [v|le' rd']; [apply blind_ret | apply IH].
Qed.

Lemma blind_makeRequest : method <> GET -> cache_blind the_request.
Proof.
  intros Hm. pose proof (blind_loop (Z.to_nat (maxRetries + 1)) Hm 0 None 1000) as H.
  revert Hm H. unfold makeRequest, network.
  destruct method; intros Hm H; [congruence | exact H..].
Qed.

Lemma blind_cache {A} (m : M A) (w : World) : cache_blind m -> cache (snd (m w)) = cache w.
Proof.
  intros Hm. pose proof (Hm w (cache w)) as H. rewrite with_cache_same in H.
  rewrite H at 1. reflexivity.
Qed.

(** A turn leaves the cache as it was, unless it is the turn of a GET that
    returns the JSON it has just stored under the key. *)
Lemma turn_cache (a : Z) (rd : Q) (w : World) :
  a <= maxRetries ->
  cache (snd (the_turn a rd w)) = cache w
  \/ (method = GET
      /\ exists d : JS.value,
           fst (the_turn a rd w) = Returned (Return d)
           /\ cache (snd (the_turn a rd w))
              = <[key := {| data := d; timestamp := clock (snd (the_turn a rd w)) |}]> (cache w)).
Proof.
  intros Ha. pose proof (turn_outcome_holds a rd w Ha) as H.
  remember (the_turn a rd w) as t eqn:Et in *. clear Et.
  destruct H; try (left; reflexivity).
  destruct (Method_eqb method GET) eqn:E; [|left; reflexivity].
  right. split; [destruct method; (reflexivity || discriminate)|].
  exists d. split; reflexivity.
Qed.

Lemma loop_cache (turns : nat) :
  forall (a : Z) (le : option Thrown) (rd : Q) (w : World),
    cache (snd (the_loop turns a le rd w)) = cache w
    \/ (method = GET
        /\ exists (d : JS.value) (ts : Z),
             fst (the_loop turns a le rd w) = Returned d
             /\ cache (snd (the_loop turns a le rd w))
                = <[key := {| data := d; timestamp := ts |}]> (cache w)).
Proof.
  induction turns as [|turns IH]; intros a le rd w; [left; reflexivity|].
  destruct (Z.leb_spec a maxRetries) as [Ha|Ha].
  - rewrite (loop_step turns a le rd w Ha).
    destruct (turn_cache a rd w Ha) as [Hc | (Hm & d & Hd & Hc)].
    + destruct (the_turn a rd w) as [[[v|le' rd']|t] w']; cbn [fst snd] in *;
        try (left; exact Hc).
      destruct (IH (a + 1) le' rd' w') as [Hc' | (Hm & d & ts & Hd & Hc')].
      * left. congruence.
      * right. split; [exact Hm|]. exists d, ts. split; [exact Hd|]. congruence.
    + destruct (the_turn a rd w) as [[[v|le' rd']|t] w']; cbn [fst snd] in *;
        try discriminate.
      right. split; [exact Hm|]. injection Hd as ->. eauto.
  - left. cbn [retry_loop]. apply Z.leb_gt in Ha. rewrite Ha. reflexivity.
Qed.

(** What a request may do to the cache: nothing; drop a stale entry of the
    key; or, for a GET that returns [d], hold [d] under the key. *)
Lemma request_cache (w : World) :
  cache (snd (the_request w)) = cache w
  \/ cache (snd (the_request w)) = delete key (cache w)
  \/ (method = GET
      /\ exists (d : JS.value) (ts : Z),
           fst (the_request w) = Returned d
           /\ cache (snd (the_request w))
              = <[key := {| data := d; timestamp := ts |}]> (cache w)).
Proof.
  assert (Hnet : forall w0 : World,
             snd (getFromCache key w) = w0 ->
             cache (snd (the_network w0)) = cache w
             \/ cache (snd (the_network w0)) = delete key (cache w)
             \/ (method = GET
                 /\ exists (d : JS.value) (ts : Z),
                      fst (the_network w0) = Returned d
                      /\ cache (snd (the_network w0))
                         = <[key := {| data := d; timestamp := ts |}]> (cache w))).
  { intros w0 <-. destruct (getFromCache_world w) as (c & Hc & Hcases).
    rewrite Hc.
    destruct (loop_cache (Z.to_nat (maxRetries + 1)) 0 None 1000 (with_cache c w))
      as [H | (Hm & d & ts & Hd & H)].
    - cbn [cache with_cache] in H.
      destruct Hcases as [-> | ->]; [left; exact H | right; left; exact H].
    - right. right. split; [exact Hm|]. exists d, ts. split; [exact Hd|].
      unfold network. rewrite H. cbn [cache with_cache].
      destruct Hcases as [-> | ->]; [reflexivity|]. apply insert_delete_eq. }
  assert (Hother : cache (snd (the_network w)) = cache w
             \/ method = GET
                /\ exists (d : JS.value) (ts : Z),
                     fst (the_network w) = Returned d
                     /\ cache (snd (the_network w))
                        = <[key := {| data := d; timestamp := ts |}]> (cache w))
    by apply loop_cache.
  revert Hnet Hother. unfold makeRequest. destruct method; intros Hnet Hother;
    try (destruct Hother as [H | (Hm & _)]; [left; exact H | discriminate Hm]).
  unfold bind. destruct (getFromCache_world w) as (c & Hc & Hcases).
  destruct (getFromCache key w) as [[cached|t] w0] eqn:Hget; cbn [snd] in *.
  - destruct (JS.not_null cached); [|apply Hnet; reflexivity].
    cbn [snd ret]. subst w0. cbn [cache with_cache].
    destruct Hcases as [-> | ->]; auto.
  - subst w0. cbn [cache with_cache]. destruct Hcases as [-> | ->]; auto.
Qed.

(** C3.  A POST, PUT or DELETE neither reads nor writes the cache: the
    cache after the request is the cache before it, whatever entries it
    holds and however the request ends, and from any other cache the
    request has the same outcome and leaves that cache as it was.  And an
    entry that is in the cache after a request and was not there before is
    the entry of the key of a GET that has returned the data of the
    entry. *)
Theorem mutations_bypass_cache :
  (method <> GET ->
   forall w : World,
     cache (snd (the_request w)) = cache w
     /\ forall c : gmap string CacheEntry,
          the_request (with_cache c w)
          = (fst (the_request w), with_cache c (snd (the_request w))))
  /\ (forall (w : World) (k : string) (e : CacheEntry),
        cache (snd (the_request w)) !! k = Some e ->
        cache w !! k <> Some e ->
        method = GET /\ k = key /\ fst (the_request w) = Returned (data e)).
Proof.
  split.
  - intros Hm w. split.
    + apply blind_cache, blind_makeRequest, Hm.
    + intros c. apply blind_makeRequest, Hm.
  - intros w k e Hafter Hbefore.
    destruct (request_cache w) as [H | [H | (Hm & d & ts & Hd & H)]];
      rewrite H in Hafter.
    + contradiction.
    + apply lookup_delete_Some in Hafter as [_ Hafter]. contradiction.
    + apply lookup_insert_Some in Hafter as [[<- <-] | [_ Hafter]]; [|contradiction].
      split; [exact Hm|]. split; [reflexivity|]. exact Hd.
Qed.

(** ** The errors of a request *)

Lemma loop_throws_record (turns : nat) :
  forall (a : Z) (le : option Thrown) (rd : Q) (w : World) (e : ApiError),
    Z.of_nat turns = maxRetries + 1 - a -> (0 < turns)%nat ->
    fst (the_loop turns a le rd w) = Threw (ThrowRecord e) ->
    exists r : Response, failure_of r e.
Proof.
  induction turns as [|turns IH]; intros a le rd w e Hturns Hpos Hthrow; [lia|].
  assert (Ha : a <= maxRetries) by lia.
  rewrite (loop_step turns a le rd w Ha) in Hthrow.
  pose proof (turn_outcome_holds a rd w Ha) as H.
  remember (the_turn a rd w) as t eqn:Et in *. clear Et.
  destruct H as [n m Hnet E | n m Hnet E | r Hnet Hok Hlim | r Hnet Hlim E
                | r Hnet Hlim E | r Hnet Hok Hk | r Hnet Hok Hk
                | r d Hnet Hok Hk Hj | r Hnet Hok Hk Hj E | r Hnet Hok Hk Hj E];
    cbn [fst snd] in Hthrow; try discriminate Hthrow;
    try (refine (IH (a + 1) _ _ _ e _ _ Hthrow); lia).
  - injection Hthrow as <-. exists r.
    split; [exact Hok|]. split; [reflexivity|]. split; [reflexivity|].
    right. split; [exact Hlim | reflexivity].
  - injection Hthrow as <-. exists r.
    split; [apply limited_not_ok, Hlim|]. split; [reflexivity|]. split; [reflexivity|].
    left. split; [exact Hlim | reflexivity].
Qed.


(** ** Rejected fetches *)

Lemma loop_all_rejected (turns : nat) :
  forall (a : Z) (le : option Thrown) (rd : Q) (w : World),
    Z.of_nat turns = maxRetries + 1 - a -> (0 < turns)%nat ->
    (forall i : nat, (i < turns)%nat ->
       exists n m : string, net env (fetches w + i) = Rejected n m) ->
    (exists n m : string,
        fst (the_loop turns a le rd w) = Threw (ThrowNative n m)
        /\ net env (fetches w + turns - 1) = Rejected n m)
    /\ trace (snd (the_loop turns a le rd w))
       = (trace w ++ repeat (EvFetch req) turns)%list
    /\ fetches (snd (the_loop turns a le rd w)) = (fetches w + turns)%nat
    /\ draws (snd (the_loop turns a le rd w)) = draws w
    /\ cache (snd (the_loop turns a le rd w)) = cache w.
Proof.
  induction turns as [|turns IH]; intros a le rd w Hturns Hpos Hrej; [lia|].
  assert (Ha : a <= maxRetries) by lia.
  destruct (Hrej 0%nat ltac:(lia)) as (n & m & Hnet).
  rewrite Nat.add_0_r in Hnet.
  rewrite (loop_step turns a le rd w Ha), (turn_rejected a rd w n m Hnet).
  destruct (Z.eqb_spec a maxRetries) as [E|E].
  - assert (turns = 0)%nat as -> by lia. cbn [fst snd fetched trace fetches draws cache repeat].
    split; [|repeat split; lia].
    exists n, m. split; [reflexivity|].
    replace (fetches w + 1 - 1)%nat with (fetches w) by lia. exact Hnet.
  - destruct (IH (a + 1) (Some (ThrowNative n m)) rd (fetched env req w))
      as ((n' & m' & Hfst & Hlast) & Htr & Hf & Hd & Hc); [lia | lia | |].
    + intros i Hi. cbn [fetches fetched].
      replace (S (fetches w) + i)%nat with (fetches w + S i)%nat by lia.
      apply Hrej. lia.
    + cbn [fetches fetched trace draws cache] in *.
      split; [|split; [|split; [|split]]].
      * exists n', m'. split; [exact Hfst|].
        replace (fetches w + S turns - 1)%nat with (S (fetches w) + turns - 1)%nat by lia.
        exact Hlast.
      * rewrite Htr, <- List.app_assoc. reflexivity.
      * lia.
      * exact Hd.
      * exact Hc.
Qed.

(** C5.  A rejected [fetch] is not surfaced while attempts are left,
    whether or not a rate limit came before: the turn goes on to the next
    attempt at once, with no wait and with the delay as it was.  A
    rejection in the last turn ends the request with a failure.  So a
    request that reaches the network and whose [maxRetries + 1] fetches are
    all rejected fails after exactly that many fetches of the same
    request. *)
Theorem rejected_fetch_is_retried :
  (forall (a : Z) (rd : Q) (w : World) (n m : string),
      net env (fetches w) = Rejected n m -> a < maxRetries ->
      the_turn a rd w
      = (Returned (Continue (Some (ThrowNative n m)) rd), fetched env req w))
  /\ (forall (rd : Q) (w : World) (n m : string),
        net env (fetches w) = Rejected n m ->
        exists t : Thrown, the_turn maxRetries rd w = (Threw t, fetched env req w))
  /\ (forall w : World,
        0 <= maxRetries ->
        (method = GET -> fst (getFromCache key w) = Returned JS.VNull) ->
        (forall i : nat, (i <= Z.to_nat maxRetries)%nat ->
           exists n m : string, net env (fetches w + i) = Rejected n m) ->
        (exists t : Thrown, fst (the_request w) = Threw t)
        /\ trace (snd (the_request w))
           = (trace w ++ repeat (EvFetch req) (S (Z.to_nat maxRetries)))%list
        /\ fetches (snd (the_request w)) = (fetches w + S (Z.to_nat maxRetries))%nat).
Proof.
  split; [|split].
  - intros a rd w n m Hnet Ha. rewrite (turn_rejected a rd w n m Hnet).
    destruct (Z.eqb_spec a maxRetries); [lia | reflexivity].
  - intros rd w n m Hnet. rewrite (turn_rejected maxRetries rd w n m Hnet).
    rewrite Z.eqb_refl. eexists. reflexivity.
  - intros w Hm Hmiss Hrej.
    rewrite (makeRequest_enters w Hmiss). unfold network.
    replace (Z.to_nat (maxRetries + 1)) with (S (Z.to_nat maxRetries)) by lia.
    destruct (loop_all_rejected (S (Z.to_nat maxRetries)) 0 None 1000 (enter_world w))
      as ((n & m & Hfst & _) & Htr & Hf & _); [lia | lia | |].
    + intros i Hi. rewrite entered_fetches. apply Hrej. lia.
    + rewrite Htr, Hf, entered_trace, entered_fetches.
      split; [exists (ThrowNative n m); exact Hfst|]. split; reflexivity.
Qed.

(** The record of the kind [NETWORK_ERROR] is never thrown: the [catch]
    block tests the error it has just stored, which is an object. *)
Lemma catch_block_never_wraps (a : Z) (rd : Q) (t : Thrown) (w : World) (e : ApiError) :
  fst (catch_block maxRetries a rd t w) = Threw (ThrowRecord e) -> t = ThrowRecord e.
Proof.
  unfold catch_block, thrown_truthy. cbn [negb].
  destruct (rethrown_at_once t); [intros H; injection H as ->; reflexivity|].
  destruct (a =? maxRetries); [intros H; injection H as ->; reflexivity|].
  discriminate.
Qed.

(** ** Rate limits *)

Lemma retried_trace (wait : JS.number) (a : Z) (w : World) :
  trace (retry_world wait a w)
  = (trace w ++ [EvFetch req;
                 EvConsoleError (retrying_message maxRetries wait a);
                 EvSleep wait])%list.
Proof. cbn. rewrite <- !List.app_assoc. reflexivity. Qed.

Lemma loop_all_limited (rs : nat -> Response) (d0 : nat) (turns : nat) :
  forall (k : nat) (le : option Thrown) (w : World),
    Z.of_nat k + Z.of_nat turns = maxRetries + 1 -> (0 < turns)%nat ->
    (forall i : nat, (i < turns)%nat ->
       net env (fetches w + i) = Responded (rs (k + i)%nat) /\ limited (rs (k + i)%nat)) ->
    draws w = (d0 + k)%nat ->
    fst (the_loop turns (Z.of_nat k) le (backoff env d0 k) w)
    = Threw (ThrowRecord
        (with_message (api_error (rs (k + turns - 1)%nat)) message_exhausted))
    /\ trace (snd (the_loop turns (Z.of_nat k) le (backoff env d0 k) w))
       = (trace w ++ flat_map (limited_turn_events rs d0) (seq k (turns - 1))
            ++ [EvFetch req])%list
    /\ fetches (snd (the_loop turns (Z.of_nat k) le (backoff env d0 k) w))
       = (fetches w + turns)%nat.
Proof.
  induction turns as [|turns IH]; intros k le w Hturns Hpos Hlim Hdraws; [lia|].
  assert (Ha : Z.of_nat k <= maxRetries) by lia.
  destruct (Hlim 0%nat ltac:(lia)) as [Hnet Hl].
  replace (k + 0)%nat with k in Hnet, Hl by lia.
  replace (fetches w + 0)%nat with (fetches w) in Hnet by lia.
  rewrite (loop_step turns _ le _ w Ha).
  destruct turns as [|turns].
  - assert (E : Z.of_nat k = maxRetries) by lia. rewrite E.
    rewrite (turn_limited_last _ w _ Hnet Hl).
    replace (k + 1 - 1)%nat with k by lia.
    cbn [fst snd fetched trace fetches seq flat_map Nat.sub app].
    repeat split; lia.
  - assert (Hlt : Z.of_nat k < maxRetries) by lia.
    rewrite (turn_limited_retry _ _ w _ Hnet Hl Hlt). cbv zeta.
    rewrite Hdraws.
    change (next_delay (backoff env d0 k) (random env (d0 + k)))
      with (backoff env d0 (S k)).
    replace (Z.of_nat k + 1) with (Z.of_nat (S k)) by lia.
    match goal with |- context [the_loop _ _ ?l _ ?w0] =>
      destruct (IH (S k) l w0) as (Hfst & Htr & Hf) end.
    + lia.
    + lia.
    + intros i Hi. cbn [fetches retried drawn advance emit fetched].
      replace (S (fetches w) + i)%nat with (fetches w + S i)%nat by lia.
      replace (S k + i)%nat with (k + S i)%nat by lia.
      apply Hlim. lia.
    + cbn [draws retried drawn advance emit fetched]. lia.
    + split; [|split].
      * rewrite Hfst. replace (S k + S turns - 1)%nat with (k + S (S turns) - 1)%nat by lia.
        reflexivity.
      * rewrite Htr, retried_trace.
        replace (S (S turns) - 1)%nat with (S (S turns - 1)) by lia.
        cbn [seq flat_map]. rewrite <- !List.app_assoc. reflexivity.
      * rewrite Hf. cbn [fetches retried drawn advance emit fetched]. lia.
Qed.

Lemma next_delay_bounds (d r : Q) :
  (1000 <= d)%Q -> (d <= 8000)%Q -> (0 <= r)%Q -> (r < 1)%Q ->
  (Qmin (2 * d) 8000 <= next_delay d r)%Q
  /\ (next_delay d r <= 2 * d + 1000)%Q
  /\ (1000 <= next_delay d r)%Q
  /\ (next_delay d r <= 8000)%Q.
Proof.
  intros H1 H2 H3 H4. unfold next_delay.
  destruct (Q.min_spec (d * 2 + r * 1000) 8000) as [[Ha Hb] | [Ha Hb]];
    destruct (Q.min_spec (2 * d) 8000) as [[Hc Hd] | [Hc Hd]];
    rewrite Hb, Hd; repeat split; lra.
Qed.

Lemma backoff_bounds (d0 k : nat) :
  (forall i : nat, (0 <= random env i)%Q /\ (random env i < 1)%Q) ->
  (1000 <= backoff env d0 k)%Q /\ (backoff env d0 k <= 8000)%Q.
Proof.
  intros Hr. induction k as [|k [IH1 IH2]]; [cbn; split; lra|].
  cbn [backoff]. destruct (Hr (d0 + k)%nat) as [Hr1 Hr2].
  destruct (next_delay_bounds _ _ IH1 IH2 Hr1 Hr2) as (_ & _ & H3 & H4).
  split; assumption.
Qed.

Lemma waitTime_seconds (h : string) (n : Z) (rd : Q) :
  h <> EmptyString -> JS.parseInt h = JS.of_Z n ->
  waitTime (Some h) rd = JS.Num (inject_Z n * inject_Z 1000).
Proof.
  intros Hh Hp. unfold waitTime. rewrite Hp.
  destruct h; [congruence | reflexivity].
Qed.

Lemma timer_delay_seconds (n : Z) :
  1 <= n * 1000 <= 2147483647 ->
  JS.timer_delay (JS.Num (inject_Z n * inject_Z 1000)) = n * 1000.
Proof.
  intros [H1 H2]. unfold JS.timer_delay.
  assert (E : Qfloor (inject_Z n * inject_Z 1000) = n * 1000).
  { unfold Qfloor, Qmult, inject_Z. cbn [Qnum Qden Pos.mul]. apply Z.div_1_r. }
  rewrite E.
  destruct (Z.ltb_spec (n * 1000) 1); [lia|].
  destruct (Z.ltb_spec 2147483647 (n * 1000)); [lia|]. reflexivity.
Qed.

(** Rate limits, as far as the timer goes.  A 429 or a 503 with attempts
    left makes the turn wait and go on to try the same request again.  The
    wait is the seconds of the [Retry-After] header times 1000 ms when the
    header is there (2000 ms for the value 2), and the current delay
    otherwise; the timer runs for that long when the wait is between 1 ms
    and 2147483647 ms.  The delay starts at
    1000 ms and after each rate-limited turn becomes the least of 8000 ms
    and twice itself plus a jitter below 1000 ms, so that it stays between
    1000 and 8000 ms.  A request that reaches the network and meets nothing
    but rate limits fetches the same request [maxRetries + 1] times, waits
    between the fetches as said, and then throws the terminal rate-limit
    error. *)
Theorem rate_limit_backoff :
  (forall i : nat, (0 <= random env i)%Q /\ (random env i < 1)%Q) ->
  (forall (a : Z) (rd : Q) (w : World) (r : Response),
      net env (fetches w) = Responded r -> limited r -> a < maxRetries ->
      let wait := waitTime (Headers_get (headers r) "Retry-After") rd in
      the_turn a rd w
      = (Returned (Continue
           (Some (ThrowRecord
              (with_message (api_error r) (retrying_message maxRetries wait a))))
           (next_delay rd (random env (draws w)))),
         retry_world wait a w)
      /\ trace (retry_world wait a w)
         = (trace w ++ [EvFetch req;
                        EvConsoleError (retrying_message maxRetries wait a);
                        EvSleep wait])%list
      /\ clock (retry_world wait a w)
         = clock w + latency env (fetches w) + JS.timer_delay wait)
  /\ (forall (h : string) (n : Z) (rd : Q),
        h <> EmptyString -> JS.parseInt h = JS.of_Z n ->
        waitTime (Some h) rd = JS.Num (inject_Z n * inject_Z 1000)
        /\ (1 <= n * 1000 <= 2147483647 ->
            JS.timer_delay (waitTime (Some h) rd) = n * 1000))
  /\ (forall rd : Q,
        waitTime (Some "2") rd = JS.of_Z 2000
        /\ JS.timer_delay (waitTime (Some "2") rd) = 2000)
  /\ (forall rd : Q, waitTime None rd = JS.Num rd)
  /\ (forall d0 k : nat,
        backoff env d0 0 = 1000%Q
        /\ backoff env d0 (S k)
           = Qmin (backoff env d0 k * 2 + random env (d0 + k) * 1000) 8000
        /\ (1000 <= backoff env d0 k)%Q /\ (backoff env d0 k <= 8000)%Q
        /\ (Qmin (2 * backoff env d0 k) 8000 <= backoff env d0 (S k))%Q
        /\ (backoff env d0 (S k) <= 2 * backoff env d0 k + 1000)%Q)
  /\ (forall (w : World) (rs : nat -> Response),
        0 <= maxRetries ->
        (method = GET -> fst (getFromCache key w) = Returned JS.VNull) ->
        (forall i : nat, (i <= Z.to_nat maxRetries)%nat ->
           net env (fetches w + i) = Responded (rs i) /\ limited (rs i)) ->
        fst (the_request w)
        = Threw (ThrowRecord
            {| error := "API_ERROR";
               message := message_exhausted;
               api_status := Some (status (rs (Z.to_nat maxRetries))) |})
        /\ trace (snd (the_request w))
           = (trace w
              ++ flat_map (limited_turn_events rs (draws w)) (seq 0 (Z.to_nat maxRetries))
              ++ [EvFetch req])%list
        /\ fetches (snd (the_request w)) = (fetches w + S (Z.to_nat maxRetries))%nat).
Proof.
  intros Hrandom.
  split; [|split; [|split; [|split; [|split]]]].
  - intros a rd w r Hnet Hlim Ha wait. split; [|split].
    + apply (turn_limited_retry a rd w r Hnet Hlim Ha).
    + apply retried_trace.
    + reflexivity.
  - intros h n rd Hh Hp. rewrite (waitTime_seconds h n rd Hh Hp).
    split; [reflexivity | apply timer_delay_seconds].
  - intros rd. split; reflexivity.
  - intros rd. reflexivity.
  - intros d0 k. destruct (backoff_bounds d0 k Hrandom) as [H1 H2].
    destruct (Hrandom (d0 + k)%nat) as [Hr1 Hr2].
    destruct (next_delay_bounds _ _ H1 H2 Hr1 Hr2) as (H3 & H4 & _ & _).
    repeat split; assumption.
  - intros w rs Hm Hmiss Hall.
    rewrite (makeRequest_enters w Hmiss). unfold network.
    replace (Z.to_nat (maxRetries + 1)) with (S (Z.to_nat maxRetries)) by lia.
    destruct (loop_all_limited rs (draws w) (S (Z.to_nat maxRetries)) 0 None (enter_world w))
      as (Hfst & Htr & Hf).
    + lia.
    + lia.
    + intros i Hi. rewrite entered_fetches. apply Hall. lia.
    + rewrite entered_draws. lia.
    + cbn [backoff] in Hfst, Htr, Hf. change (Z.of_nat 0) with 0 in Hfst, Htr, Hf.
      replace (0 + S (Z.to_nat maxRetries) - 1)%nat with (Z.to_nat maxRetries) in Hfst by lia.
      replace (S (Z.to_nat maxRetries) - 1)%nat with (Z.to_nat maxRetries) in Htr by lia.
      rewrite Hfst, Htr, Hf, entered_trace, entered_fetches.
      repeat split; reflexivity.
Qed.

(** ** The effort of a request *)

(** A request is either served by the lookup of a GET or handed to the
    network. *)
Lemma request_cases (w : World) :
  the_request w = the_network (enter_world w)
  \/ (method = GET
      /\ exists v : JS.value, the_request w = (Returned v, enter_world w)).
Proof.
  unfold makeRequest, entered. destruct method; try (left; reflexivity).
  unfold bind. destruct (getFromCache key w) as [[cached|t] w0] eqn:Hget; cbn [snd].
  - destruct (JS.not_null cached); [|left; reflexivity].
    right. split; [reflexivity|]. exists cached. reflexivity.
  - exfalso. unfold getFromCache, bind, cache_get, Date_now in Hget.
    destruct (cache w !! key) as [en|]; [|discriminate Hget].
    destruct (cacheTTL <? clock w - timestamp en); discriminate Hget.
Qed.

Lemma count_fetches_app (l1 l2 : list Event) :
  count_fetches (l1 ++ l2) = (count_fetches l1 + count_fetches l2)%nat.
Proof. unfold count_fetches. rewrite List.filter_app, List.length_app. reflexivity. Qed.

Lemma count_sleeps_app (l1 l2 : list Event) :
  count_sleeps (l1 ++ l2) = (count_sleeps l1 + count_sleeps l2)%nat.
Proof. unfold count_sleeps. rewrite List.filter_app, List.length_app. reflexivity. Qed.

(** What one turn adds to the world: one fetch of the request, and, only
    when the turn goes on after a rate limit, one wait and one draw. *)
Lemma turn_effort (a : Z) (rd : Q) (w : World) :
  a <= maxRetries ->
  exists added : list Event,
    trace (snd (the_turn a rd w)) = (trace w ++ added)%list
    /\ fetches (snd (the_turn a rd w)) = S (fetches w)
    /\ fetches_only req added
    /\ count_fetches added = 1%nat
    /\ draws (snd (the_turn a rd w)) = (draws w + count_sleeps added)%nat
    /\ (count_sleeps added = 0%nat
        \/ count_sleeps added = 1%nat /\ a < maxRetries
           /\ exists le rd', fst (the_turn a rd w) = Returned (Continue le rd')).
Proof.
  intros Ha. pose proof (turn_outcome_holds a rd w Ha) as H.
  assert (Hplain : forall o : Outcome Step,
             exists added : list Event,
               trace (fetched env req w) = (trace w ++ added)%list
               /\ fetches (fetched env req w) = S (fetches w)
               /\ fetches_only req added
               /\ count_fetches added = 1%nat
               /\ draws (fetched env req w) = (draws w + count_sleeps added)%nat
               /\ (count_sleeps added = 0%nat
                   \/ count_sleeps added = 1%nat /\ a < maxRetries
                      /\ exists le rd', o = Returned (Continue le rd'))).
  { intros o. exists [EvFetch req]. cbn.
    repeat split; [repeat constructor | lia | left; reflexivity]. }
  remember (the_turn a rd w) as t eqn:Et in *. clear Et.
  destruct H; cbn [fst snd]; try apply Hplain.
  - exists [EvFetch req;
            EvConsoleError (retrying_message maxRetries
              (waitTime (Headers_get (headers r) "Retry-After") rd) a);
            EvSleep (waitTime (Headers_get (headers r) "Retry-After") rd)].
    split; [apply retried_trace|]. cbn.
    repeat split; [repeat constructor | lia |].
    right. repeat split; [assumption|]. eauto.
  - destruct (Method_eqb method GET); [|apply Hplain].
    destruct (Hplain (Returned (Return d))) as (added & Hp1 & Hp2 & Hp3 & Hp4 & Hp5 & Hp6).
    exists added. repeat split; assumption.
Qed.

Lemma loop_effort (turns : nat) :
  forall (a : Z) (le : option Thrown) (rd : Q) (w : World),
  exists added : list Event,
    trace (snd (the_loop turns a le rd w)) = (trace w ++ added)%list
    /\ fetches (snd (the_loop turns a le rd w)) = (fetches w + count_fetches added)%nat
    /\ fetches_only req added
    /\ (count_fetches added <= turns)%nat
    /\ (count_fetches added <= Z.to_nat (maxRetries + 1 - a))%nat
    /\ (count_sleeps added <= Z.to_nat (maxRetries - a))%nat
    /\ (count_sleeps added <= count_fetches added)%nat
    /\ draws (snd (the_loop turns a le rd w)) = (draws w + count_sleeps added)%nat.
Proof.
  induction turns as [|turns IH]; intros a le rd w.
  { exists []. cbn. rewrite List.app_nil_r. repeat split; (lia || constructor). }
  destruct (Z.leb_spec a maxRetries) as [Ha|Ha].
  - rewrite (loop_step turns a le rd w Ha).
    destruct (turn_effort a rd w Ha) as (added1 & Htr & Hf & Hsame & Hcf & Hd & Hs).
    destruct (the_turn a rd w) as [[[v|le' rd']|t] w'] eqn:Et; cbn [fst snd] in *.
    + exists added1. rewrite Htr, Hf, Hd.
      repeat split; try assumption; try lia;
        destruct Hs as [Hs | (_ & _ & le0 & rd0 & Hs)]; (lia || discriminate Hs).
    + destruct (IH (a + 1) le' rd' w') as (added2 & Htr2 & Hf2 & Hsame2 & Hc1 & Hc2 & Hs1 & Hs2 & Hd2).
      exists (added1 ++ added2)%list.
      rewrite Htr2, Hf2, Hd2, Htr, Hf, Hd, count_fetches_app, count_sleeps_app.
      rewrite List.app_assoc.
      repeat split; try (apply Forall_app; split; assumption);
        destruct Hs as [Hs | (Hs & Hlt & _)]; lia.
    + exists added1. rewrite Htr, Hf, Hd.
      repeat split; try assumption; try lia;
        destruct Hs as [Hs | (_ & _ & le0 & rd0 & Hs)]; (lia || discriminate Hs).
  - exists []. cbn [retry_loop]. apply Z.leb_gt in Ha. rewrite Ha. cbn.
    rewrite List.app_nil_r. repeat split; (lia || constructor).
Qed.

(** X1.  Whatever the network answers, a request fetches at most
    [maxRetries + 1] times and waits at most [maxRetries] times, never more
    often than it fetches; every fetch is the fetch of the one request; and
    it draws one random number for each wait. *)
Theorem request_effort_is_bounded :
  forall w : World,
  exists added : list Event,
    trace (snd (the_request w)) = (trace w ++ added)%list
    /\ fetches_only req added
    /\ fetches (snd (the_request w)) = (fetches w + count_fetches added)%nat
    /\ (count_fetches added <= Z.to_nat (maxRetries + 1))%nat
    /\ (count_sleeps added <= Z.to_nat maxRetries)%nat
    /\ (count_sleeps added <= count_fetches added)%nat
    /\ draws (snd (the_request w)) = (draws w + count_sleeps added)%nat.
Proof.
  intros w. destruct (request_cases w) as [Hnet | (_ & v & Hhit)].
  - rewrite Hnet. unfold network.
    destruct (loop_effort (Z.to_nat (maxRetries + 1)) 0 None 1000 (enter_world w))
      as (added & Htr & Hf & Hsame & Hc1 & Hc2 & Hs1 & Hs2 & Hd).
    exists added. rewrite Htr, Hf, Hd, entered_trace, entered_fetches, entered_draws.
    replace (maxRetries - 0) with maxRetries in Hs1 by lia.
    repeat split; assumption.
  - rewrite Hhit. exists []. cbn [fst snd].
    rewrite entered_trace, entered_fetches, entered_draws, List.app_nil_r.
    cbn. repeat split; (lia || constructor).
Qed.

(** ** The fallback, the other keys, the messages *)

Lemma append_cons_nonempty (c : ascii) (s t : string) : String c s +:+ t <> EmptyString.
Proof. rewrite append_cons. discriminate. Qed.

Lemma errorMessage_nonempty (r : Response) : errorMessage r <> EmptyString.
Proof.
  unfold errorMessage, or_else.
  destruct (Headers_get (headers r) "X-BambooHR-Error-Message") as [h|];
    [destruct h; cbn [JS.truthy_string]; [|discriminate]|];
    apply append_cons_nonempty.
Qed.

Lemma terminal_message_nonempty (r : Response) : terminal_message r <> EmptyString.
Proof.
  unfold terminal_message.
  destruct (status r =? 401); [discriminate|].
  destruct (status r =? 403); [discriminate|].
  destruct (status r =? 404); [discriminate|].
  apply errorMessage_nonempty.
Qed.

Lemma network_without_turns (w : World) :
  maxRetries < 0 -> the_network w = (Threw (ThrowRecord unknown_error), w).
Proof.
  intros Hm. unfold network.
  replace (Z.to_nat (maxRetries + 1)) with 0%nat by lia. reflexivity.
Qed.

(** Every record that a request throws has a message. *)
Lemma request_throws_message (w : World) (e : ApiError) :
  fst (the_request w) = Threw (ThrowRecord e) -> message e <> EmptyString.
Proof.
  intros Hthrow.
  destruct (request_cases w) as [Hnet | (_ & v & Hhit)];
    [|rewrite Hhit in Hthrow; discriminate Hthrow].
  rewrite Hnet in Hthrow.
  destruct (Z.lt_ge_cases maxRetries 0) as [Hm|Hm].
  - rewrite (network_without_turns _ Hm) in Hthrow. injection Hthrow as <-. discriminate.
  - destruct (loop_throws_record (Z.to_nat (maxRetries + 1)) 0 None 1000 (enter_world w) e)
      as (r & _ & _ & _ & [[_ ->] | [_ ->]]); [lia | lia | exact Hthrow | discriminate |].
    apply terminal_message_nonempty.
Qed.

(** X2.  The record [UNKNOWN_ERROR] of the fallback after the loop is
    thrown exactly when [maxRetries] is negative: then a request that
    reaches the network throws it without a single fetch; with
    [maxRetries] at least 0 no request ever throws it. *)
Theorem unknown_error_iff_negative_retries :
  forall w : World,
    (method = GET -> fst (getFromCache key w) = Returned JS.VNull) ->
    (fst (the_request w) = Threw (ThrowRecord unknown_error) <-> maxRetries < 0)
    /\ (maxRetries < 0 ->
        the_request w = (Threw (ThrowRecord unknown_error), enter_world w)
        /\ fetches (snd (the_request w)) = fetches w).
Proof.
  intros w Hmiss. rewrite (makeRequest_enters w Hmiss). split; [split|].
  - intros Hthrow. destruct (Z.lt_ge_cases maxRetries 0) as [Hm|Hm]; [exact Hm|].
    exfalso.
    destruct (loop_throws_record (Z.to_nat (maxRetries + 1)) 0 None 1000
                (enter_world w) unknown_error)
      as (r & _ & Hkind & _); [lia | lia | exact Hthrow | discriminate Hkind].
  - intros Hm. rewrite (network_without_turns _ Hm). reflexivity.
  - intros Hm. rewrite (network_without_turns _ Hm). split; [reflexivity|].
    apply entered_fetches.
Qed.

(** X3.  A request leaves the entries of every key but its own as they
    were, however it ends. *)
Theorem other_keys_are_untouched :
  forall (w : World) (k : string),
    k <> key ->
    cache (snd (the_request w)) !! k = cache w !! k.
Proof.
  intros w k Hk.
  destruct (request_cache w) as [H | [H | (_ & d & ts & _ & H)]]; rewrite H.
  - reflexivity.
  - apply lookup_delete_ne. congruence.
  - apply lookup_insert_ne. congruence.
Qed.

(** ** The waits of any run *)

Lemma turn_waits (a : Z) (rd : Q) (w : World) :
  (forall i : nat, (0 <= random env i)%Q /\ (random env i < 1)%Q) ->
  a <= maxRetries -> (1000 <= rd)%Q -> (rd <= 8000)%Q ->
  exists added : list Event,
    trace (snd (the_turn a rd w)) = (trace w ++ added)%list
    /\ Forall (measured_wait env) added
    /\ (forall le rd', fst (the_turn a rd w) = Returned (Continue le rd') ->
        (1000 <= rd')%Q /\ (rd' <= 8000)%Q).
Proof.
  intros Hrandom Ha Hlo Hhi. pose proof (turn_outcome_holds a rd w Ha) as H.
  assert (Hplain : forall o : Outcome Step,
             (forall le rd', o = Returned (Continue le rd') -> rd' = rd) ->
             exists added : list Event,
               trace (fetched env req w) = (trace w ++ added)%list
               /\ Forall (measured_wait env) added
               /\ (forall le rd', o = Returned (Continue le rd') ->
                   (1000 <= rd')%Q /\ (rd' <= 8000)%Q)).
  { intros o Ho. exists [EvFetch req]. split; [reflexivity|]. split.
    - constructor; [exact I | constructor].
    - intros le rd' E. rewrite (Ho le rd' E). split; assumption. }
  remember (the_turn a rd w) as t eqn:Et in *. clear Et.
  destruct H; cbn [fst snd];
    try (apply Hplain; intros le0 rd0 E; (discriminate E || (injection E as _ <-; reflexivity))).
  - eexists. split; [apply retried_trace|]. split.
    + constructor; [exact I|]. constructor; [exact I|].
      constructor; [|constructor]. unfold measured_wait, waitTime.
      destruct (Headers_get (headers r) "Retry-After") as [h|] eqn:Hh.
      * destruct h as [|c h].
        -- left. exists rd. auto.
        -- right. exists (fetches w), r, (String c h). repeat split; (assumption || discriminate || reflexivity).
      * left. exists rd. auto.
    + intros le0 rd0 E. injection E as _ <-.
      destruct (Hrandom (draws w)) as [Hr1 Hr2].
      destruct (next_delay_bounds rd _ Hlo Hhi Hr1 Hr2) as (_ & _ & H3 & H4).
      split; assumption.
  - destruct (Method_eqb method GET);
      apply Hplain; intros le0 rd0 E; discriminate E.
Qed.

Lemma loop_waits (turns : nat) :
  (forall i : nat, (0 <= random env i)%Q /\ (random env i < 1)%Q) ->
  forall (a : Z) (le : option Thrown) (rd : Q) (w : World),
    (1000 <= rd)%Q -> (rd <= 8000)%Q ->
    exists added : list Event,
      trace (snd (the_loop turns a le rd w)) = (trace w ++ added)%list
      /\ Forall (measured_wait env) added.
Proof.
  intros Hrandom. induction turns as [|turns IH]; intros a le rd w Hlo Hhi.
  { exists []. cbn. rewrite List.app_nil_r. split; [reflexivity | constructor]. }
  destruct (Z.leb_spec a maxRetries) as [Ha|Ha].
  - rewrite (loop_step turns a le rd w Ha).
    destruct (turn_waits a rd w Hrandom Ha Hlo Hhi) as (added1 & Htr & Hm & Hrd).
    destruct (the_turn a rd w) as [[[v|le' rd']|t] w'] eqn:Et; cbn [fst snd] in *;
      try (exists added1; split; assumption).
    destruct (Hrd le' rd' eq_refl) as [Hlo' Hhi'].
    destruct (IH (a + 1) le' rd' w' Hlo' Hhi') as (added2 & Htr2 & Hm2).
    exists (added1 ++ added2)%list. split.
    + rewrite Htr2, Htr, List.app_assoc. reflexivity.
    + apply Forall_app. split; assumption.
  - exists []. cbn [retry_loop]. apply Z.leb_gt in Ha. rewrite Ha. cbn.
    rewrite List.app_nil_r. split; [reflexivity | constructor].
Qed.

(** X4.  In any run of a request, whatever the network answers and in
    whatever order, each wait is either a delay of the backoff, between
    1000 and 8000 ms, or the wait that the [Retry-After] header of an
    answer asks; so without such headers no wait is longer than 8000 ms. *)
Theorem every_wait_is_measured :
  (forall i : nat, (0 <= random env i)%Q /\ (random env i < 1)%Q) ->
  forall w : World,
  exists added : list Event,
    trace (snd (the_request w)) = (trace w ++ added)%list
    /\ Forall (measured_wait env) added
    /\ ((forall (i : nat) (r : Response),
           net env i = Responded r -> Headers_get (headers r) "Retry-After" = None) ->
        Forall (fun ev => match ev with
                          | EvSleep ms =>
                              exists q : Q, ms = JS.Num q /\ (1000 <= q)%Q /\ (q <= 8000)%Q
                          | _ => True
                          end) added).
Proof.
  intros Hrandom w.
  assert (H : exists added : list Event,
             trace (snd (the_request w)) = (trace w ++ added)%list
             /\ Forall (measured_wait env) added).
  { destruct (request_cases w) as [Hnet | (_ & v & Hhit)].
    - rewrite Hnet. unfold network.
      destruct (loop_waits (Z.to_nat (maxRetries + 1)) Hrandom 0 None 1000 (enter_world w))
        as (added & Htr & Hm); [lra | lra |].
      exists added. rewrite Htr, entered_trace. split; [reflexivity | exact Hm].
    - rewrite Hhit. exists []. cbn [snd]. rewrite entered_trace, List.app_nil_r.
      split; [reflexivity | constructor]. }
  destruct H as (added & Htr & Hm). exists added.
  split; [exact Htr|]. split; [exact Hm|].
  intros Hnone. eapply Forall_impl; [exact Hm|].
  intros [r0|ms|line] Hev; cbn in *; try exact I.
  destruct Hev as [Hq | (i & r & h & Hnet & Hh & _)]; [exact Hq|].
  rewrite (Hnone i r Hnet) in Hh. discriminate Hh.
Qed.

(** ** Rate limits, then an answer *)

Lemma turn_ok_payload (a : Z) (rd : Q) (w : World) (r : Response) (v : JS.value) :
  net env (fetches w) = Responded r -> ok r = true -> payload r = Some v ->
  fst (the_turn a rd w) = Returned (Return v)
  /\ trace (snd (the_turn a rd w)) = (trace w ++ [EvFetch req])%list
  /\ fetches (snd (the_turn a rd w)) = S (fetches w)
  /\ draws (snd (the_turn a rd w)) = draws w.
Proof.
  intros Hnet Hok Hv. unfold payload in Hv.
  destruct (payload_kind r) eqn:Hkind.
  - injection Hv as <-. rewrite (turn_ok_empty a rd w r Hnet Hok Hkind).
    repeat split; reflexivity.
  - rewrite (turn_ok_json a rd w r v Hnet Hok Hkind Hv).
    destruct (Method_eqb method GET); repeat split; reflexivity.
  - injection Hv as <-. rewrite (turn_ok_text a rd w r Hnet Hok Hkind).
    repeat split; reflexivity.
Qed.

(** The loop through [n] rate-limited answers with attempts left. *)
Lemma loop_limited_prefix (rs : nat -> Response) (d0 : nat) (n : nat) :
  forall (k turns : nat) (le : option Thrown) (w : World),
    Z.of_nat (k + n) <= maxRetries ->
    (forall i : nat, (i < n)%nat ->
       net env (fetches w + i) = Responded (rs (k + i)%nat) /\ limited (rs (k + i)%nat)) ->
    draws w = (d0 + k)%nat ->
    exists (le' : option Thrown) (w' : World),
      the_loop (n + turns) (Z.of_nat k) le (backoff env d0 k) w
      = the_loop turns (Z.of_nat (k + n)) le' (backoff env d0 (k + n)) w'
      /\ trace w' = (trace w ++ flat_map (limited_turn_events rs d0) (seq k n))%list
      /\ fetches w' = (fetches w + n)%nat
      /\ draws w' = (d0 + k + n)%nat.
Proof.
  induction n as [|n IH]; intros k turns le w Hk Hlim Hdraws.
  { exists le, w. replace (k + 0)%nat with k by lia. cbn.
    rewrite List.app_nil_r. repeat split; lia. }
  destruct (Hlim 0%nat ltac:(lia)) as [Hnet Hl].
  replace (k + 0)%nat with k in Hnet, Hl by lia.
  replace (fetches w + 0)%nat with (fetches w) in Hnet by lia.
  cbn [Nat.add].
  rewrite (loop_step (n + turns) (Z.of_nat k) le (backoff env d0 k) w ltac:(lia)).
  rewrite (turn_limited_retry (Z.of_nat k) (backoff env d0 k) w (rs k) Hnet Hl ltac:(lia)).
  cbv zeta.
  rewrite Hdraws.
  change (next_delay (backoff env d0 k) (random env (d0 + k)))
    with (backoff env d0 (S k)).
  replace (Z.of_nat k + 1) with (Z.of_nat (S k)) by lia.
  match goal with |- context [the_loop _ _ ?l _ ?w0] =>
    destruct (IH (S k) turns l w0) as (le' & w' & Heq & Htr & Hf & Hd) end.
  - lia.
  - intros i Hi. cbn [fetches retried drawn advance emit fetched].
    replace (S (fetches w) + i)%nat with (fetches w + S i)%nat by lia.
    replace (S k + i)%nat with (k + S i)%nat by lia.
    apply Hlim. lia.
  - cbn [draws retried drawn advance emit fetched]. lia.
  - exists le', w'. replace (k + S n)%nat with (S k + n)%nat by lia.
    split; [exact Heq|]. split; [|split].
    + rewrite Htr, retried_trace. cbn [seq flat_map].
      rewrite <- !List.app_assoc. reflexivity.
    + rewrite Hf. cbn [fetches retried drawn advance emit fetched]. lia.
    + rewrite Hd. lia.
Qed.

(** X5.  Rate limits that end within the retries do not reach the caller:
    when the first [n] answers are 429 or 503, with [n] at most
    [maxRetries], and the next answer is a 2xx, the request returns what
    that answer yields, after [n + 1] fetches of the same request and the
    [n] waits between them. *)
Theorem rate_limits_then_success :
  forall (w : World) (rs : nat -> Response) (n : nat) (v : JS.value),
    Z.of_nat n <= maxRetries ->
    (method = GET -> fst (getFromCache key w) = Returned JS.VNull) ->
    (forall i : nat, (i < n)%nat ->
       net env (fetches w + i) = Responded (rs i) /\ limited (rs i)) ->
    net env (fetches w + n) = Responded (rs n) ->
    ok (rs n) = true -> payload (rs n) = Some v ->
    fst (the_request w) = Returned v
    /\ trace (snd (the_request w))
       = (trace w ++ flat_map (limited_turn_events rs (draws w)) (seq 0 n)
            ++ [EvFetch req])%list
    /\ fetches (snd (the_request w)) = (fetches w + n + 1)%nat.
Proof.
  intros w rs n v Hn Hmiss Hlim Hnet Hok Hv.
  rewrite (makeRequest_enters w Hmiss). unfold network.
  replace (Z.to_nat (maxRetries + 1)) with (n + S (Z.to_nat maxRetries - n))%nat by lia.
  destruct (loop_limited_prefix rs (draws w) n 0 (S (Z.to_nat maxRetries - n)) None
              (enter_world w))
    as (le' & w' & Heq & Htr & Hf & Hd).
  - cbn [Nat.add]. exact Hn.
  - intros i Hi. rewrite entered_fetches. cbn [Nat.add]. apply Hlim, Hi.
  - rewrite entered_draws. lia.
  - cbn [backoff] in Heq. change (Z.of_nat 0) with 0 in Heq. rewrite Heq.
    cbn [Nat.add]. rewrite (loop_step _ _ le' _ w' Hn).
    rewrite entered_fetches in Hf. rewrite entered_trace in Htr.
    rewrite <- Hf in Hnet.
    destruct (turn_ok_payload (Z.of_nat n) (backoff env (draws w) n) w' (rs n) v Hnet Hok Hv)
      as (Hfst & Htr' & Hf' & _).
    destruct (the_turn (Z.of_nat n) (backoff env (draws w) n) w') as [o w''].
    cbn [fst snd] in *. subst o. cbn [fst snd].
    rewrite Htr', Hf', Htr, Hf, <- List.app_assoc. repeat split; lia.
Qed.

(** ** Bodies that do not parse *)

(** The lookup at the start leaves the cache as it is, unless the method
    is GET and the key has an entry: a stale entry is deleted. *)
Lemma entered_unchanged (w : World) :
  method <> GET \/ cache w !! key = None -> cache (enter_world w) = cache w.
Proof.
  unfold entered. intros [Hm | Hnone].
  - destruct method; [congruence | reflexivity..].
  - destruct method; try reflexivity.
    rewrite (getFromCache_absent w Hnone). reflexivity.
Qed.

Lemma entered_stale (w : World) (e : CacheEntry) :
  method = GET -> cache w !! key = Some e -> cacheTTL < clock w - timestamp e ->
  cache (enter_world w) = delete key (cache w).
Proof.
  unfold entered. intros Hm He Hold. revert Hm.
  destruct method; intros Hm; try discriminate Hm.
  rewrite (getFromCache_stale w e He Hold). reflexivity.
Qed.

Lemma loop_all_bad_json (turns : nat) :
  forall (a : Z) (le : option Thrown) (rd : Q) (w : World),
    Z.of_nat turns = maxRetries + 1 - a -> (0 < turns)%nat ->
    (forall i : nat, (i < turns)%nat ->
       exists r : Response, net env (fetches w + i) = Responded r /\ bad_json r) ->
    (exists msg : string,
        fst (the_loop turns a le rd w) = Threw (ThrowNative "SyntaxError" msg))
    /\ trace (snd (the_loop turns a le rd w))
       = (trace w ++ repeat (EvFetch req) turns)%list
    /\ fetches (snd (the_loop turns a le rd w)) = (fetches w + turns)%nat
    /\ cache (snd (the_loop turns a le rd w)) = cache w.
Proof.
  induction turns as [|turns IH]; intros a le rd w Hturns Hpos Hbad; [lia|].
  assert (Ha : a <= maxRetries) by lia.
  destruct (Hbad 0%nat ltac:(lia)) as (r & Hnet & Hok & Hkind & Hjson).
  rewrite Nat.add_0_r in Hnet.
  rewrite (loop_step turns a le rd w Ha),
    (turn_ok_bad_json a rd w r Hnet Hok Hkind Hjson).
  cbv zeta. destruct (Z.eqb_spec a maxRetries) as [E|E].
  - assert (turns = 0)%nat as -> by lia.
    cbn [fst snd fetched trace fetches cache repeat].
    split; [eexists; reflexivity|]. repeat split; lia.
  - destruct (IH (a + 1) (Some (ThrowNative "SyntaxError" "Unexpected token in JSON")) rd
                (fetched env req w))
      as (Hfst & Htr & Hf & Hc); [lia | lia | |].
    + intros i Hi. cbn [fetches fetched].
      replace (S (fetches w) + i)%nat with (fetches w + S i)%nat by lia.
      apply Hbad. lia.
    + cbn [fetches fetched trace cache] in *.
      split; [exact Hfst|]. split; [|split].
      * rewrite Htr, <- List.app_assoc. reflexivity.
      * lia.
      * exact Hc.
Qed.

(** X6.  A 2xx answer that is declared as JSON and whose body does not
    parse is handled as a failure to connect, for a POST, PUT or DELETE as
    for a GET: while attempts are left the same request is sent again at
    once, without a wait; when none of the [maxRetries + 1] bodies parses,
    the request throws the SyntaxError of the last one, after
    [maxRetries + 1] fetches, and stores nothing: the cache is as the
    lookup at the start of the call left it, that is, as it was for a POST,
    a PUT or a DELETE and for a GET whose key had no entry, and without the
    entry of the key for a GET whose entry was older than the TTL. *)
Theorem unparsable_json_is_sent_again :
  (forall (a : Z) (rd : Q) (w : World) (r : Response),
      net env (fetches w) = Responded r -> bad_json r -> a < maxRetries ->
      exists t : Thrown,
        the_turn a rd w = (Returned (Continue (Some t) rd), fetched env req w))
  /\ (forall w : World,
        0 <= maxRetries ->
        (method = GET -> fst (getFromCache key w) = Returned JS.VNull) ->
        (forall i : nat, (i <= Z.to_nat maxRetries)%nat ->
           exists r : Response, net env (fetches w + i) = Responded r /\ bad_json r) ->
        (exists msg : string,
            fst (the_request w) = Threw (ThrowNative "SyntaxError" msg))
        /\ trace (snd (the_request w))
           = (trace w ++ repeat (EvFetch req) (S (Z.to_nat maxRetries)))%list
        /\ fetches (snd (the_request w)) = (fetches w + S (Z.to_nat maxRetries))%nat
        /\ cache (snd (the_request w)) = cache (enter_world w)
        /\ (method <> GET \/ cache w !! key = None ->
            cache (snd (the_request w)) = cache w)
        /\ (forall e : CacheEntry,
              method = GET -> cache w !! key = Some e ->
              cacheTTL < clock w - timestamp e ->
              cache (snd (the_request w)) = delete key (cache w)
              /\ cache (snd (the_request w)) !! key = None)).
Proof.
  split.
  - intros a rd w r Hnet (Hok & Hkind & Hjson) Ha.
    rewrite (turn_ok_bad_json a rd w r Hnet Hok Hkind Hjson). cbv zeta.
    destruct (Z.eqb_spec a maxRetries); [lia|]. eexists. reflexivity.
  - intros w Hm Hmiss Hbad.
    rewrite (makeRequest_enters w Hmiss). unfold network.
    replace (Z.to_nat (maxRetries + 1)) with (S (Z.to_nat maxRetries)) by lia.
    destruct (loop_all_bad_json (S (Z.to_nat maxRetries)) 0 None 1000 (enter_world w))
      as (Hfst & Htr & Hf & Hc); [lia | lia | |].
    + intros i Hi. rewrite entered_fetches. apply Hbad. lia.
    + rewrite Htr, Hf, Hc, entered_trace, entered_fetches.
      split; [exact Hfst|]. split; [reflexivity|]. split; [reflexivity|].
      split; [reflexivity|]. split.
      * intros Hsame. apply entered_unchanged. exact Hsame.
      * intros e Hget He Hold. rewrite (entered_stale w e Hget He Hold).
        split; [reflexivity | apply lookup_delete_eq].
Qed.


(** ** Retry-After headers that ask no usable wait *)

Lemma timer_delay_out_of_range (n : Z) :
  n <= 0 \/ 2147483 < n -> JS.timer_delay (JS.Num (inject_Z n * inject_Z 1000)) = 1.
Proof.
  intros Hn. unfold JS.timer_delay.
  assert (E : Qfloor (inject_Z n * inject_Z 1000) = n * 1000).
  { unfold Qfloor, Qmult, inject_Z. cbn [Qnum Qden Pos.mul]. apply Z.div_1_r. }
  rewrite E.
  destruct (Z.ltb_spec (n * 1000) 1); [reflexivity|].
  destruct (Z.ltb_spec 2147483647 (n * 1000)); [reflexivity | lia].
Qed.

(** X7.  With attempts left, a rate-limited answer whose [Retry-After]
    header does not start with a number (an HTTP date, say) makes the wait
    [NaN], and one that asks no more than 0 seconds or more than 2147483
    seconds makes a wait outside the range of a timer: in both cases the
    timer runs for 1 ms and the request goes out again at once.  A header
    with an empty value counts as no header: the wait is the delay of the
    backoff. *)
Theorem retry_after_without_usable_wait :
  forall (a : Z) (rd : Q) (w : World) (r : Response) (h : string),
    net env (fetches w) = Responded r -> limited r -> a < maxRetries ->
    Headers_get (headers r) "Retry-After" = Some h ->
    let after := snd (the_turn a rd w) in
    (h <> EmptyString -> JS.parseInt h = JS.NaN ->
     last (trace after) = Some (EvSleep JS.NaN)
     /\ clock after = clock w + latency env (fetches w) + 1)
    /\ (forall n : Z,
          h <> EmptyString -> JS.parseInt h = JS.of_Z n -> n <= 0 \/ 2147483 < n ->
          last (trace after) = Some (EvSleep (JS.Num (inject_Z n * inject_Z 1000)))
          /\ clock after = clock w + latency env (fetches w) + 1)
    /\ (h = EmptyString -> last (trace after) = Some (EvSleep (JS.Num rd))).
Proof.
  intros a rd w r h Hnet Hlim Ha Hh after. subst after.
  rewrite (turn_limited_retry a rd w r Hnet Hlim Ha). cbv zeta. cbn [snd].
  rewrite Hh. unfold retried.
  cbn [trace clock drawn advance emit fetched].
  split; [|split].
  - intros Hne Hnan.
    assert (Hwait : waitTime (Some h) rd = JS.NaN).
    { unfold waitTime. rewrite Hnan. destruct h; [congruence | reflexivity]. }
    rewrite Hwait. split; [|reflexivity].
    apply last_snoc.
  - intros n Hne Hn Hrange.
    rewrite (waitTime_seconds h n rd Hne Hn), (timer_delay_out_of_range n Hrange).
    split; [|reflexivity].
    apply last_snoc.
  - intros ->. cbn [waitTime JS.truthy_string].
    apply last_snoc.
Qed.


(** ** A refresh that fails *)

(** X8.  A GET whose entry is older than the TTL drops the entry before it
    tries the network and does not fall back on it: when the request then
    throws, whatever the error, the cache is the cache before the call
    without the entry of the key. *)
Theorem failed_refresh_drops_the_entry :
  forall (w : World) (e : CacheEntry) (t : Thrown),
    method = GET ->
    cache w !! key = Some e -> cacheTTL < clock w - timestamp e ->
    fst (the_request w) = Threw t ->
    cache (snd (the_request w)) = delete key (cache w)
    /\ cache (snd (the_request w)) !! key = None.
Proof.
  intros w e t Hm Hentry Hold Hthrow.
  assert (Hcache : cache (snd (the_request w)) = delete key (cache w)).
  { assert (Hmiss : method = GET -> fst (getFromCache key w) = Returned JS.VNull).
    { intros _. rewrite (getFromCache_stale w e Hentry Hold). reflexivity. }
    rewrite (makeRequest_enters w Hmiss) in *.
    assert (Henter : cache (enter_world w) = delete key (cache w)).
    { unfold entered. clear Hmiss Hthrow. revert Hm.
      destruct method; intros Hm; try discriminate Hm.
      rewrite (getFromCache_stale w e Hentry Hold). reflexivity. }
    unfold network in *.
    destruct (loop_cache (Z.to_nat (maxRetries + 1)) 0 None 1000 (enter_world w))
      as [Hc | (_ & d & ts & Hret & _)].
    - rewrite Hc. exact Henter.
    - rewrite Hret in Hthrow. discriminate Hthrow. }
  split; [exact Hcache|]. rewrite Hcache. apply lookup_delete_eq.
Qed.


(** ** How a request that returns has ended *)

Lemma payload_kind_inv (r : Response) :
  match payload_kind r with
  | PayloadEmpty =>
      status r = 204
      \/ Headers_get (headers r) "content-type" = None
      \/ Headers_get (headers r) "content-type" = Some EmptyString
  | PayloadJson =>
      status r <> 204
      /\ exists c : string,
           Headers_get (headers r) "content-type" = Some c
           /\ c <> EmptyString /\ JS.includes "application/json" c = true
  | PayloadText =>
      status r <> 204
      /\ exists c : string,
           Headers_get (headers r) "content-type" = Some c
           /\ c <> EmptyString /\ JS.includes "application/json" c = false
  end.
Proof.
  unfold payload_kind.
  destruct (Headers_get (headers r) "content-type") as [c|]; [|right; left; reflexivity].
  change (default EmptyString (Some c)) with c.
  destruct c as [|x c]; [right; right; reflexivity|].
  cbn [JS.truthy_string negb orb].
  destruct (Z.eqb_spec (status r) 204) as [E|E]; [left; exact E|].
  destruct (JS.includes "application/json" (String x c)) eqn:Hinc;
    (split; [exact E|]); exists (String x c); repeat split; (discriminate || assumption).
Qed.

(** The value that a loop returns is what the last answer of the network
    yields, a 2xx; the cache is as the loop found it, unless the answer is
    JSON and the method GET: then the value is stored under the key with
    the clock of the return. *)
Lemma loop_returns (turns : nat) :
  forall (a : Z) (le : option Thrown) (rd : Q) (w : World) (v : JS.value),
    fst (the_loop turns a le rd w) = Returned v ->
    exists r : Response,
      net env (pred (fetches (snd (the_loop turns a le rd w)))) = Responded r
      /\ ok r = true
      /\ match payload_kind r with
         | PayloadEmpty =>
             v = JS.VObj [] /\ cache (snd (the_loop turns a le rd w)) = cache w
         | PayloadJson =>
             json r = Some v
             /\ cache (snd (the_loop turns a le rd w))
                = if Method_eqb method GET
                  then <[key := {| data := v;
                                   timestamp := clock (snd (the_loop turns a le rd w)) |}]>
                         (cache w)
                  else cache w
         | PayloadText =>
             v = JS.VStr (text r) /\ cache (snd (the_loop turns a le rd w)) = cache w
         end.
Proof.
  induction turns as [|turns IH]; intros a le rd w v Hret.
  { cbn in Hret. destruct le; discriminate Hret. }
  destruct (Z.leb_spec a maxRetries) as [Ha|Ha].
  - rewrite (loop_step turns a le rd w Ha) in *.
    pose proof (turn_outcome_holds a rd w Ha) as H.
    pose proof (turn_cache a rd w Ha) as Hcache.
    remember (the_turn a rd w) as t eqn:Et in *.
    destruct H as [n m Hnet E | n m Hnet E | r Hnet Hok Hlim | r Hnet Hlim E | r Hnet Hlim E
                  | r Hnet Hok Hkind | r Hnet Hok Hkind | r d Hnet Hok Hkind Hjson
                  | r Hnet Hok Hkind Hjson E | r Hnet Hok Hkind Hjson E];
      cbn [fst snd] in *; try discriminate Hret.
    + (* a rejection, tried again *)
      destruct (IH _ _ _ _ v Hret) as (r & Hr & Hok & Hk).
      exists r. split; [exact Hr|]. split; [exact Hok|]. exact Hk.
    + (* a rate limit, tried again *)
      destruct (IH _ _ _ _ v Hret) as (r' & Hr & Hok & Hk).
      exists r'. split; [exact Hr|]. split; [exact Hok|].
      destruct Hcache as [Hc | (_ & d & Hd & _)]; [|discriminate Hd].
      rewrite Hc in Hk. exact Hk.
    + (* the empty answer *)
      injection Hret as <-. exists r. cbn [fetches fetched pred cache].
      split; [exact Hnet|]. split; [exact Hok|]. rewrite Hkind. split; reflexivity.
    + (* the text *)
      injection Hret as <-. exists r. cbn [fetches fetched pred cache].
      split; [exact Hnet|]. split; [exact Hok|]. rewrite Hkind. split; reflexivity.
    + (* the JSON *)
      injection Hret as <-. exists r.
      destruct (Method_eqb method GET); unfold stored;
        cbn [fetches fetched pred cache clock with_cache];
        (split; [exact Hnet|]); (split; [exact Hok|]); rewrite Hkind; split;
        (exact Hjson || reflexivity).
    + (* a body that does not parse, tried again *)
      destruct (IH _ _ _ _ v Hret) as (r' & Hr & Hok' & Hk).
      exists r'. split; [exact Hr|]. split; [exact Hok'|]. exact Hk.
  - cbn [retry_loop] in Hret. apply Z.leb_gt in Ha. rewrite Ha in Hret.
    cbn in Hret. destruct le; discriminate Hret.
Qed.

(** A request that throws has stored nothing. *)
Lemma network_throws_cache (w : World) (t : Thrown) :
  fst (the_network w) = Threw t -> cache (snd (the_network w)) = cache w.
Proof.
  unfold network. intros Hthrow.
  destruct (loop_cache (Z.to_nat (maxRetries + 1)) 0 None 1000 w)
    as [Hc | (_ & d & ts & Hret & _)]; [exact Hc|].
  rewrite Hret in Hthrow. discriminate Hthrow.
Qed.

End ExecutorProperties.

(** ** GET requests and the cache *)

Section CacheProperties.

Context {rt : Runtime}.
Variable env : Env.
Variable config : BambooHRConfig.
Variable endpoint : string.
Variable body : option JS.value.
Variable queryParams : option QueryParams.
Variable maxRetries : Z.

Local Abbreviation key := (getCacheKey endpoint queryParams).
Local Abbreviation req := (request_options config endpoint GET body queryParams).
Local Abbreviation get_request := (makeRequest env config endpoint GET body queryParams maxRetries).
Local Abbreviation get_network := (network env config endpoint GET body queryParams maxRetries).

(** C1.  A GET whose key has an entry that is not older than the TTL, with
    data other than null, returns the data of the entry and leaves the
    world as it was: no fetch.  A GET whose key has no entry, or a stale
    one, goes to the network; when the first answer is a 2xx other than 204
    with a content type containing application/json and a body that
    parses, the parsed body is returned and is the entry of the key from
    then on, stamped with the clock of that moment.  The lookup of an entry
    older than the TTL gives null and deletes the entry.  And however many
    attempts such a GET takes: when it returns, the value is what the last
    answer of the network, a 2xx, yields, and only an answer read as JSON
    is stored, under the key and stamped with the clock of the return; an
    answer returned as the empty object or as text is not stored, and a GET
    that throws stores nothing: the key is then without an entry and the
    other entries are as they were. *)
Theorem get_requests_and_the_cache :
  forall w : World,
    (forall e : CacheEntry,
        cache w !! key = Some e -> clock w - timestamp e <= cacheTTL ->
        data e <> JS.VNull ->
        get_request w = (Returned (data e), w))
    /\ (forall (r : Response) (c : string) (d : JS.value),
          0 <= maxRetries ->
          (cache w !! key = None
           \/ exists e : CacheEntry,
                cache w !! key = Some e /\ cacheTTL < clock w - timestamp e) ->
          net env (fetches w) = Responded r -> ok r = true -> status r <> 204 ->
          Headers_get (headers r) "content-type" = Some c ->
          JS.includes "application/json" c = true ->
          json r = Some d ->
          fst (get_request w) = Returned d
          /\ cache (snd (get_request w))
             = <[key := {| data := d; timestamp := clock (snd (get_request w)) |}]> (cache w)
          /\ clock (snd (get_request w)) = clock w + latency env (fetches w)
          /\ trace (snd (get_request w)) = (trace w ++ [EvFetch req])%list)
    /\ (forall e : CacheEntry,
          cache w !! key = Some e -> cacheTTL < clock w - timestamp e ->
          getFromCache key w = (Returned JS.VNull, with_cache (delete key (cache w)) w)
          /\ cache (snd (getFromCache key w)) !! key = None
          /\ get_request w = get_network (with_cache (delete key (cache w)) w))
    /\ (0 <= maxRetries ->
        (cache w !! key = None
         \/ exists e : CacheEntry,
              cache w !! key = Some e /\ cacheTTL < clock w - timestamp e) ->
        (forall v : JS.value,
            fst (get_request w) = Returned v ->
            exists r : Response,
              net env (pred (fetches (snd (get_request w)))) = Responded r
              /\ ok r = true
              /\ (((status r = 204
                    \/ Headers_get (headers r) "content-type" = None
                    \/ Headers_get (headers r) "content-type" = Some EmptyString)
                   /\ v = JS.VObj []
                   /\ cache (snd (get_request w)) = delete key (cache w))
                  \/ ((status r <> 204
                       /\ exists c : string,
                            Headers_get (headers r) "content-type" = Some c
                            /\ c <> EmptyString
                            /\ JS.includes "application/json" c = true)
                      /\ json r = Some v
                      /\ cache (snd (get_request w))
                         = <[key := {| data := v;
                                       timestamp := clock (snd (get_request w)) |}]>
                             (cache w))
                  \/ ((status r <> 204
                       /\ exists c : string,
                            Headers_get (headers r) "content-type" = Some c
                            /\ c <> EmptyString
                            /\ JS.includes "application/json" c = false)
                      /\ v = JS.VStr (text r)
                      /\ cache (snd (get_request w)) = delete key (cache w))))
        /\ (forall t : Thrown,
              fst (get_request w) = Threw t ->
              cache (snd (get_request w)) = delete key (cache w)
              /\ cache (snd (get_request w)) !! key = None)).
Proof.
  intros w. split; [|split; [|split]].
  - intros e He Hfresh Hdata. unfold makeRequest, bind.
    rewrite (getFromCache_fresh _ _ w e He Hfresh).
    destruct (data e); try reflexivity. congruence.
  - intros r c d Hm Hmiss Hnet Hok H204 Hct Hinc Hjson.
    assert (Hget : exists c0 : gmap string CacheEntry,
               getFromCache key w = (Returned JS.VNull, with_cache c0 w)
               /\ <[key := {| data := d; timestamp := clock w + latency env (fetches w) |}]> c0
                  = <[key := {| data := d; timestamp := clock w + latency env (fetches w) |}]> (cache w)).
    { destruct Hmiss as [Hnone | (e & He & Hold)].
      - exists (cache w). rewrite with_cache_same. split; [|reflexivity].
        apply getFromCache_absent, Hnone.
      - exists (delete key (cache w)). split; [|apply insert_delete_eq].
        apply (getFromCache_stale _ _ w e He Hold). }
    destruct Hget as (c0 & Hget & Hins).
    unfold makeRequest, bind. rewrite Hget. cbn [JS.not_null].
    rewrite (network_first_turn env config endpoint GET body queryParams maxRetries _ Hm).
    pose proof (payload_kind_json r c H204 Hct Hinc) as Hkind.
    rewrite (turn_ok_json env config endpoint GET body queryParams maxRetries
               0 1000 (with_cache c0 w) r d Hnet Hok Hkind Hjson).
    cbn [Method_eqb fst snd stored fetched with_cache cache clock trace fetches].
    rewrite Hins. repeat split; reflexivity.
  - intros e He Hold.
    pose proof (getFromCache_stale _ _ w e He Hold) as Hget.
    split; [exact Hget|]. split.
    + rewrite Hget. cbn [snd cache with_cache]. apply lookup_delete_eq.
    + unfold makeRequest, bind. rewrite Hget. reflexivity.
  - intros Hm Hmiss.
    assert (Hget : exists c0 : gmap string CacheEntry,
               getFromCache key w = (Returned JS.VNull, with_cache c0 w)
               /\ c0 = delete key (cache w)).
    { destruct Hmiss as [Hnone | (e & He & Hold)].
      - exists (cache w). rewrite with_cache_same. split.
        + apply getFromCache_absent, Hnone.
        + symmetry. apply delete_id, Hnone.
      - exists (delete key (cache w)). split; [|reflexivity].
        apply (getFromCache_stale _ _ w e He Hold). }
    destruct Hget as (c0 & Hget & Hc0).
    assert (Hrun : get_request w = get_network (with_cache c0 w)).
    { unfold makeRequest, bind. rewrite Hget. reflexivity. }
    rewrite Hrun. split.
    + intros v Hret. unfold network in *.
      destruct (loop_returns env config endpoint GET body queryParams maxRetries
                  (Z.to_nat (maxRetries + 1)) 0 None 1000 (with_cache c0 w) v Hret)
        as (r & Hnet & Hok & Hkind).
      exists r. split; [exact Hnet|]. split; [exact Hok|].
      pose proof (payload_kind_inv r) as Hinv.
      cbn [cache with_cache Method_eqb] in Hkind.
      destruct (payload_kind r).
      * left. destruct Hkind as [Hv Hc]. rewrite Hc, Hc0.
        split; [exact Hinv|]. split; [exact Hv | reflexivity].
      * right. left. destruct Hkind as [Hv Hc]. rewrite Hc, Hc0.
        split; [exact Hinv|]. split; [exact Hv|]. apply insert_delete_eq.
      * right. right. destruct Hkind as [Hv Hc]. rewrite Hc, Hc0.
        split; [exact Hinv|]. split; [exact Hv | reflexivity].
    + intros t Hthrow.
      rewrite (network_throws_cache env config endpoint GET body queryParams maxRetries
                 (with_cache c0 w) t Hthrow).
      cbn [cache with_cache]. rewrite Hc0. split; [reflexivity | apply lookup_delete_eq].
Qed.

End CacheProperties.

(** * Runs *)

(** C1 fails as it is stated.  A GET that misses the cache and succeeds
    with a text body returns the text and stores nothing under its key.
    And a GET whose key has a fresh entry with the data null goes to the
    network all the same. *)
Lemma text_answer_is_not_cached :
  let csv := Plain.answers [Plain.respond 200 "OK" [("Content-Type", "text/csv")] "id,name" None] in
  let run := makeRequest csv Plain.config "/reports/1" GET None None 3 Plain.start in
  let null := Plain.answers [Plain.respond 200 "OK" [("Content-Type", "application/json")] "null"
                               (Some JS.VNull)] in
  let w := with_cache {[ "/flag" := {| data := JS.VNull; timestamp := clock Plain.start |} ]}
             Plain.start in
  (getCacheKey "/reports/1" None = "/reports/1"
   /\ fst run = Returned (JS.VStr "id,name")
   /\ cache (snd run) !! "/reports/1" = None)
  /\ (getCacheKey "/flag" None = "/flag"
      /\ clock w - clock Plain.start <= cacheTTL
      /\ fetches (snd (makeRequest null Plain.config "/flag" GET None None 3 w)) = 1%nat).
Proof. vm_compute. repeat split; (reflexivity || discriminate). Qed.

(** A fresh entry is returned without a fetch; a JSON answer is stored; a
    text that comes after a rate limit is returned and not stored. *)
Lemma cache_hit_and_store_run :
  let env := Plain.answers [Plain.respond 200 "OK" [("Content-Type", "application/json")] "[1]"
                              (Some (JS.VArr [JS.VNum (JS.of_Z 1)]))] in
  let hit := with_cache {[ "/employees/1" := {| data := JS.VStr "cached"; timestamp := clock Plain.start - 300000 |} ]} Plain.start in
  let csv := Plain.answers [Plain.respond 503 "Service Unavailable" [] "" None;
                            Plain.respond 200 "OK" [("Content-Type", "text/csv")] "id,name"
                              None] in
  makeRequest env Plain.config "/employees/1" GET None None 3 hit = (Returned (JS.VStr "cached"), hit)
  /\ fst (makeRequest env Plain.config "/employees/1" GET None None 3 Plain.start)
     = Returned (JS.VArr [JS.VNum (JS.of_Z 1)])
  /\ cache (snd (makeRequest env Plain.config "/employees/1" GET None None 3 Plain.start))
       !! "/employees/1"
     = Some {| data := JS.VArr [JS.VNum (JS.of_Z 1)]; timestamp := clock Plain.start + 25 |}
  /\ fst (makeRequest csv Plain.config "/reports/1" GET None None 3 Plain.start)
     = Returned (JS.VStr "id,name")
  /\ cache (snd (makeRequest csv Plain.config "/reports/1" GET None None 3 Plain.start))
       !! "/reports/1"
     = None.
Proof.
  cbv zeta.
  set (env := Plain.answers [Plain.respond 200 "OK" [("Content-Type", "application/json")] "[1]"
                                (Some (JS.VArr [JS.VNum (JS.of_Z 1)]))]).
  set (hit := with_cache {[ "/employees/1" := {| data := JS.VStr "cached"; timestamp := clock Plain.start - 300000 |} ]} Plain.start).
  set (csv := Plain.answers [Plain.respond 503 "Service Unavailable" [] "" None;
                             Plain.respond 200 "OK" [("Content-Type", "text/csv")] "id,name"
                               None]).
  destruct (get_requests_and_the_cache env Plain.config "/employees/1" None None 3 hit)
    as (Hhit & _ & _).
  destruct (get_requests_and_the_cache env Plain.config "/employees/1" None None 3 Plain.start)
    as (_ & Hmiss & _).
  destruct (get_requests_and_the_cache csv Plain.config "/reports/1" None None 3 Plain.start)
    as (_ & _ & _ & Hany).
  split; [|split; [|split; [|split]]].
  - apply (Hhit {| data := JS.VStr "cached"; timestamp := clock Plain.start - 300000 |}).
    + vm_compute. reflexivity.
    + vm_compute. discriminate.
    + discriminate.
  - apply (Hmiss _ "application/json" _ ltac:(lia) (or_introl eq_refl) eq_refl eq_refl
             ltac:(discriminate) eq_refl eq_refl eq_refl).
  - destruct (Hmiss _ "application/json" _ ltac:(lia) (or_introl eq_refl) eq_refl eq_refl
                ltac:(discriminate) eq_refl eq_refl eq_refl) as (_ & Hc & Hclock & _).
    rewrite Hc, Hclock. vm_compute. reflexivity.
  - vm_compute. reflexivity.
  - destruct (Hany ltac:(lia) (or_introl eq_refl)) as [Hret _].
    destruct (Hret (JS.VStr "id,name") ltac:(vm_compute; reflexivity))
      as (r & Hnet & _ & Hcases).
    vm_compute in Hnet. injection Hnet as <-.
    destruct Hcases as [(_ & _ & Hc) | [((_ & c & Hct & _ & Hinc) & _) | (_ & _ & Hc)]].
    + rewrite Hc. vm_compute. reflexivity.
    + vm_compute in Hct. injection Hct as <-. vm_compute in Hinc. discriminate Hinc.
    + rewrite Hc. vm_compute. reflexivity.
Defined.

(** Two rate limits with one retry allowed: the wait of the header, then
    the terminal error. *)
Lemma retry_after_two_seconds_run :
  let r1 := {| status := 429; statusText := "Too Many Requests";
               headers := [("Retry-After", "2")]; text := EmptyString; json := None |} in
  let r2 := {| status := 503; statusText := "Service Unavailable";
               headers := []; text := EmptyString; json := None |} in
  let env := Plain.answers [Responded r1; Responded r2] in
  let req := request_options Plain.config "/employees/1" POST None None in
  let run := makeRequest env Plain.config "/employees/1" POST None None 1 Plain.start in
  fst run = Threw (ThrowRecord {| error := "API_ERROR";
                                  message := message_exhausted;
                                  api_status := Some 503 |})
  /\ trace (snd run)
     = [EvFetch req;
        EvConsoleError "Rate limit exceeded. Retrying after 2 seconds... (Attempt 1/1)";
        EvSleep (JS.of_Z 2000);
        EvFetch req].
Proof.
  cbv zeta.
  set (r1 := {| status := 429; statusText := "Too Many Requests";
                headers := [("Retry-After", "2")]; text := EmptyString; json := None |}).
  set (r2 := {| status := 503; statusText := "Service Unavailable";
                headers := []; text := EmptyString; json := None |}).
  set (env := Plain.answers [Responded r1; Responded r2]).
  assert (Hrandom : forall i : nat, (0 <= random env i)%Q /\ (random env i < 1)%Q).
  { intros i. split; vm_compute; congruence. }
  destruct (rate_limit_backoff env Plain.config "/employees/1" POST None None 1 Hrandom)
    as (_ & _ & _ & _ & _ & Hall).
  destruct (Hall Plain.start (fun i => match i with O => r1 | _ => r2 end)) as (Hfst & Htr & _).
  - lia.
  - discriminate.
  - intros [|[|i]] Hi; [split; [reflexivity | left; reflexivity]
                       | split; [reflexivity | right; reflexivity]
                       | cbn in Hi; lia].
  - split; [exact Hfst|]. rewrite Htr. vm_compute. reflexivity.
Defined.

(** C2.  A rate limit whose [Retry-After] asks more than a timer holds.
    The answer 429 with [Retry-After: 2147484], attempts left: the wait is
    2147484 seconds times 1000 ms, as the header asks and as the line on
    the console says, and [sleep] hands it to the timer; the timer does not
    hold it and runs for 1 ms, so that the request goes out again at once:
    the second answer is returned 1 ms and the two round trips after the
    start, not 2147484000 ms after the first answer. *)
Theorem retry_after_beyond_the_timer :
  let r := {| status := 429; statusText := "Too Many Requests";
              headers := [("Retry-After", "2147484")];
              text := EmptyString; json := None |} in
  let env := Plain.answers [Responded r;
                            Plain.respond 200 "OK" [("Content-Type", "application/json")]
                              "[1]" (Some (JS.VArr [JS.VNum (JS.of_Z 1)]))] in
  let req := request_options Plain.config "/employees/1" GET None None in
  let run := makeRequest env Plain.config "/employees/1" GET None None 3 Plain.start in
  JS.parseInt "2147484" = JS.of_Z 2147484
  /\ waitTime (Headers_get (headers r) "Retry-After") 1000 = JS.of_Z (2147484 * 1000)
  /\ JS.timer_delay (JS.of_Z (2147484 * 1000)) = 1
  /\ fst run = Returned (JS.VArr [JS.VNum (JS.of_Z 1)])
  /\ trace (snd run)
     = [EvFetch req;
        EvConsoleError
          "Rate limit exceeded. Retrying after 2147484 seconds... (Attempt 1/3)";
        EvSleep (JS.of_Z (2147484 * 1000));
        EvFetch req]
  /\ clock (snd run) = clock Plain.start + 25 + 1 + 25.
Proof. vm_compute. repeat split; reflexivity. Qed.

(** A POST on the path of a cached GET leaves the entry as it is and does
    not return it. *)
Lemma post_on_cached_path_run :
  let env := Plain.answers [Plain.respond 200 "OK" [("Content-Type", "application/json")] "[2]"
                              (Some (JS.VArr [JS.VNum (JS.of_Z 2)]))] in
  let w := with_cache {[ "/employees/1" := {| data := JS.VStr "cached"; timestamp := clock Plain.start |} ]} Plain.start in
  let run := makeRequest env Plain.config "/employees/1" POST None None 3 w in
  fst run = Returned (JS.VArr [JS.VNum (JS.of_Z 2)])
  /\ cache (snd run) = cache w.
Proof.
  cbv zeta. split.
  - vm_compute. reflexivity.
  - apply (proj1 (mutations_bypass_cache _ Plain.config "/employees/1" POST None None 3)).
    discriminate.
Defined.

(** A 401 on the first attempt of a GET: one fetch, the error. *)
Lemma unauthorized_run :
  let env := Plain.answers [Plain.respond 401 "Unauthorized" [] "" None;
                            Plain.respond 200 "OK" [] "" None] in
  let run := makeRequest env Plain.config "/employees/1" GET None None 3 Plain.start in
  fst run = Threw (ThrowRecord {| error := "API_ERROR";
                                  message := message_unauthorized;
                                  api_status := Some 401 |})
  /\ fetches (snd run) = 1%nat
  /\ trace (snd run) = [EvFetch (request_options Plain.config "/employees/1" GET None None)].
Proof.
  cbv zeta.
  destruct (non_retryable_status_fails_at_once
              (Plain.answers [Plain.respond 401 "Unauthorized" [] "" None;
                              Plain.respond 200 "OK" [] "" None])
              Plain.config "/employees/1" GET None None 3 Plain.start _
              ltac:(lia) (fun _ => eq_refl) eq_refl eq_refl
              ltac:(discriminate) ltac:(discriminate))
    as (Hfst & _ & Hf & Htr & _).
  split; [exact Hfst|]. split; [exact Hf | exact Htr].
Defined.

(** C5 fails as it is stated: the first attempt cannot connect, no rate
    limit came before, and yet the request is tried again at once and
    returns what the second attempt gets. *)
Lemma first_rejection_is_retried :
  let env := Plain.answers [Rejected "TypeError" "fetch failed";
                            Plain.respond 200 "OK" [("Content-Type", "application/json")] "[3]"
                              (Some (JS.VArr [JS.VNum (JS.of_Z 3)]))] in
  let req := request_options Plain.config "/employees/1" GET None None in
  let run := makeRequest env Plain.config "/employees/1" GET None None 3 Plain.start in
  fst run = Returned (JS.VArr [JS.VNum (JS.of_Z 3)])
  /\ trace (snd run) = [EvFetch req; EvFetch req].
Proof. vm_compute. split; reflexivity. Qed.

(** Four rejections with three retries allowed: four fetches, then the
    failure. *)
Lemma all_rejected_run :
  let env := Plain.answers [] in
  let req := request_options Plain.config "/employees/1" DELETE None None in
  let run := makeRequest env Plain.config "/employees/1" DELETE None None 3 Plain.start in
  (exists t : Thrown, fst run = Threw t)
  /\ trace (snd run) = [EvFetch req; EvFetch req; EvFetch req; EvFetch req].
Proof.
  cbv zeta.
  destruct (proj2 (proj2 (rejected_fetch_is_retried (Plain.answers []) Plain.config
                            "/employees/1" DELETE None None 3)) Plain.start)
    as (Hfst & Htr & _).
  - lia.
  - discriminate.
  - intros i _. exists "TypeError", "fetch failed". cbn. destruct i as [|[|[|[|i]]]]; reflexivity.
  - split; [exact Hfst | exact Htr].
Defined.



(** A JSON answer is parsed, whatever the case of the header's name. *)
Lemma json_answer_run :
  let r := {| status := 200; statusText := "OK";
              headers := [("Content-Type", "application/json; charset=utf-8")];
              text := "[4]"; json := Some (JS.VArr [JS.VNum (JS.of_Z 4)]) |} in
  fst (makeRequest (Plain.answers [Responded r]) Plain.config "/employees/1" PUT None None 3
         Plain.start)
  = Returned (JS.VArr [JS.VNum (JS.of_Z 4)]).
Proof.
  cbv zeta.
  set (r := {| status := 200; statusText := "OK";
               headers := [("Content-Type", "application/json; charset=utf-8")];
               text := "[4]"; json := Some (JS.VArr [JS.VNum (JS.of_Z 4)]) |}).
  refine (proj2 (success_response_by_content_type
                   (Plain.answers [Responded r])
                   Plain.config "/employees/1" PUT None None 3 r _ eq_refl _)
            Plain.start ltac:(lia) ltac:(discriminate) eq_refl).
  right. left. exists "application/json; charset=utf-8".
  split; [discriminate|]. repeat split; reflexivity.
Defined.

(** * The client beyond one request *)

(** ** A stored answer and the requests after it *)

Section LaterRequests.

Context {rt : Runtime}.
Variable env : Env.
Variable config : BambooHRConfig.
Variable endpoint : string.
Variable queryParams : option QueryParams.

Local Abbreviation key := (getCacheKey endpoint queryParams).

(** X9.  What a GET stores serves the GETs after it.  When a GET that
    misses the cache gets a 2xx JSON answer that parses to a value other
    than null, any later GET of the same endpoint and query parameters on a
    cache that still holds the entry returns that value without touching
    the network or the world, whatever its body, its retries and the
    answers the network would give, as long as no more than the TTL has
    passed since the answer arrived; once more has passed, the later GET
    deletes the entry and goes to the network. *)
Theorem stored_answer_serves_later_gets :
  forall (body : option JS.value) (maxRetries : Z) (w : World) (r : Response) (v : JS.value),
    0 <= maxRetries ->
    fst (getFromCache key w) = Returned JS.VNull ->
    net env (fetches w) = Responded r -> ok r = true ->
    payload_kind r = PayloadJson -> json r = Some v -> v <> JS.VNull ->
    let first := makeRequest env config endpoint GET body queryParams maxRetries w in
    fst first = Returned v
    /\ clock (snd first) = clock w + latency env (fetches w)
    /\ forall (env' : Env) (body' : option JS.value) (maxRetries' : Z) (later : World),
         cache later !! key = cache (snd first) !! key ->
         (clock later - clock (snd first) <= cacheTTL ->
          makeRequest env' config endpoint GET body' queryParams maxRetries' later
          = (Returned v, later))
         /\ (cacheTTL < clock later - clock (snd first) ->
             makeRequest env' config endpoint GET body' queryParams maxRetries' later
             = network env' config endpoint GET body' queryParams maxRetries'
                 (with_cache (delete key (cache later)) later)).
Proof.
  intros body maxRetries w r v Hm Hmiss Hnet Hok Hkind Hjson Hv first.
  assert (Hfirst : first
                   = (Returned v,
                      stored env config endpoint GET body queryParams v
                        (entered endpoint GET queryParams w))).
  { subst first.
    rewrite (makeRequest_enters env config endpoint GET body queryParams maxRetries w
               (fun _ => Hmiss)).
    rewrite (network_first_turn env config endpoint GET body queryParams maxRetries _ Hm).
    rewrite (turn_ok_json env config endpoint GET body queryParams maxRetries 0 1000 _ r v);
      [reflexivity | | assumption..].
    rewrite entered_fetches. exact Hnet. }
  rewrite Hfirst. cbn [fst snd].
  assert (Hclock : clock (stored env config endpoint GET body queryParams v
                            (entered endpoint GET queryParams w))
                   = clock w + latency env (fetches w)).
  { unfold stored. cbn [clock with_cache fetched].
    rewrite entered_clock, entered_fetches. reflexivity. }
  split; [reflexivity|]. split; [exact Hclock|].
  intros env' body' maxRetries' later Hsame.
  assert (Hentry : cache later !! key
                   = Some {| data := v;
                             timestamp := clock (stored env config endpoint GET body queryParams v
                                                   (entered endpoint GET queryParams w)) |}).
  { rewrite Hsame. unfold stored. cbn [cache with_cache clock fetched].
    apply lookup_insert_eq. }
  split; intros Hage.
  - unfold makeRequest, bind.
    rewrite (getFromCache_fresh _ _ later _ Hentry Hage). cbn [data].
    destruct v; [congruence | reflexivity..].
  - unfold makeRequest, bind.
    rewrite (getFromCache_stale _ _ later _ Hentry Hage). reflexivity.
Qed.

End LaterRequests.

(** ** get, post, put, delete *)

Section ConvenienceProperties.

Context {rt : Runtime}.
Variable env : Env.
Variable config : BambooHRConfig.

Lemma makeRequest_within_three_retries (endpoint : string) (method : Method)
    (body : option JS.value) (queryParams : option QueryParams) (w : World) :
  within_three_retries (request_options config endpoint method body queryParams) w
    (makeRequest env config endpoint method body queryParams 3 w).
Proof.
  unfold within_three_retries.
  destruct (request_cases env config endpoint method body queryParams 3 w)
    as [Hnet | (_ & v & Hhit)].
  - rewrite Hnet. unfold network.
    destruct (loop_effort env config endpoint method body queryParams 3
                (Z.to_nat (3 + 1)) 0 None 1000 (entered endpoint method queryParams w))
      as (added & Htr & Hf & Hsame & Hc1 & _ & Hs1 & _).
    exists added. rewrite Htr, Hf, entered_trace, entered_fetches.
    change (Z.to_nat (3 + 1)) with 4%nat in Hc1.
    change (Z.to_nat (3 - 0)) with 3%nat in Hs1.
    repeat split; assumption.
  - rewrite Hhit. exists []. cbn [fst snd].
    rewrite entered_trace, entered_fetches, List.app_nil_r.
    cbn. repeat split; (lia || constructor).
Qed.

(** X10.  Each of [get], [post], [put] and [delete] sends one and the same
    request at most four times and waits at most three times, whatever the
    network answers.  The request of [get] and of [delete] has no body;
    the request of [post] and of [put] has as its body the text of the
    given value when there is one and it is truthy, and none otherwise (so
    a body that is [0], [false], the empty text or [null] is not sent).
    [post], [put] and [delete] leave the cache as it was. *)
Theorem convenience_methods :
  forall (endpoint : string) (body : option JS.value) (queryParams : option QueryParams)
         (w : World),
    let sent (method : Method) (b : option Buffer) :=
      {| req_method := method;
         req_url := request_url config endpoint queryParams;
         req_headers := getHeaders config "application/json";
         req_body := b |} in
    let text_of (b : option JS.value) :=
      match b with
      | Some x => if JS.truthy x then Some (JSON_stringify x) else None
      | None => None
      end in
    within_three_retries (sent GET None) w (Convenience.get env config endpoint queryParams w)
    /\ within_three_retries (sent DELETE None) w
         (Convenience.delete env config endpoint queryParams w)
    /\ within_three_retries (sent POST (text_of body)) w
         (Convenience.post env config endpoint body queryParams w)
    /\ within_three_retries (sent PUT (text_of body)) w
         (Convenience.put env config endpoint body queryParams w)
    /\ cache (snd (Convenience.post env config endpoint body queryParams w)) = cache w
    /\ cache (snd (Convenience.put env config endpoint body queryParams w)) = cache w
    /\ cache (snd (Convenience.delete env config endpoint queryParams w)) = cache w.
Proof.
  intros endpoint body queryParams w sent text_of.
  assert (Hpost : request_options config endpoint POST body queryParams
                  = sent POST (text_of body)).
  { unfold request_options. subst sent text_of. cbn [Method_eqb orb].
    f_equal. destruct body as [b|]; [|reflexivity].
    rewrite andb_true_r. reflexivity. }
  assert (Hput : request_options config endpoint PUT body queryParams
                 = sent PUT (text_of body)).
  { unfold request_options. subst sent text_of. cbn [Method_eqb orb].
    f_equal. destruct body as [b|]; [|reflexivity].
    rewrite andb_true_r. reflexivity. }
  split; [|split; [|split; [|split; [|split; [|split]]]]].
  - apply (makeRequest_within_three_retries endpoint GET None queryParams w).
  - apply (makeRequest_within_three_retries endpoint DELETE None queryParams w).
  - rewrite <- Hpost. apply makeRequest_within_three_retries.
  - rewrite <- Hput. apply makeRequest_within_three_retries.
  - apply blind_cache, blind_makeRequest. discriminate.
  - apply blind_cache, blind_makeRequest. discriminate.
  - apply blind_cache, blind_makeRequest. discriminate.
Qed.

End ConvenienceProperties.

(** ** The calls of one attempt: uploadPhoto, uploadFile, getReport *)

Lemma split_without (sep : ascii) (seg : string) :
  JS.includes (String sep EmptyString) seg = false -> JS.split sep seg = [seg].
Proof.
  induction seg as [|c seg IH]; [reflexivity|].
  cbn [JS.includes JS.split String.prefix]. intros H.
  apply orb_false_iff in H as [Hc Hrest].
  destruct (Ascii.eqb c sep) eqn:Ec.
  - apply Ascii.eqb_eq in Ec. subst c.
    destruct (ascii_dec sep sep) as [_|Hne]; [|congruence].
    destruct seg; discriminate.
  - rewrite (IH Hrest). reflexivity.
Qed.

Lemma truthy_append_cons (pre : string) (c : ascii) (rest : string) :
  JS.truthy_string (pre +:+ String c rest) = true.
Proof. destruct pre; reflexivity. Qed.

Section SingleAttemptProperties.

Context {rt : Runtime}.
Variable env : Env.
Variable config : BambooHRConfig.

(** X11.  [uploadPhoto] makes one attempt and no more: the world after the
    call is the world before it with the one [fetch], a POST whose body is
    the photo's bytes as they are (decoded first when the photo comes as
    base64 text), declared as [image/jpeg] with their number as the length.
    A 2xx answer returns nothing, whatever its headers and body; any other
    answer, 429 and 503 among them, throws the error record of the
    response; a [fetch] that cannot connect throws its own error. *)
Theorem uploadPhoto_outcome :
  forall (endpoint : string) (photoData : FileData) (w : World),
    let bytes := match photoData with
                 | FileBase64 s => base64_decode s
                 | FileBuffer b => b
                 end in
    let req := {| req_method := POST;
                  req_url := baseUrl config +:+ endpoint;
                  req_headers :=
                    [("Authorization", getAuthHeader config);
                     ("Content-Type", "image/jpeg");
                     ("Content-Length", JS.show_Z (Z.of_nat (String.length bytes)))];
                  req_body := Some bytes |} in
    let run := uploadPhoto env config endpoint photoData w in
    snd run = fetched env req w
    /\ cache (snd run) = cache w
    /\ trace (snd run) = (trace w ++ [EvFetch req])%list
    /\ (forall r : Response,
          net env (fetches w) = Responded r -> ok r = true -> fst run = Returned tt)
    /\ (forall r : Response,
          net env (fetches w) = Responded r -> ok r = false ->
          fst run = Threw (ThrowRecord
            {| error := "API_ERROR";
               message :=
                 or_else (Headers_get (headers r) "X-BambooHR-Error-Message")
                         ("HTTP " +:+ JS.show_Z (status r) +:+ ": " +:+ statusText r);
               api_status := Some (status r) |}))
    /\ (forall name msg : string,
          net env (fetches w) = Rejected name msg ->
          fst run = Threw (ThrowNative name msg)).
Proof.
  intros endpoint photoData w bytes req run.
  assert (Hreq : photo_request config endpoint photoData = req) by reflexivity.
  subst run. unfold uploadPhoto, bind, fetch. rewrite Hreq.
  destruct (net env (fetches w)) as [n m|r] eqn:Hnet; cbn [fst snd] in *.
  - repeat split; try reflexivity; try discriminate.
    intros name msg [= -> ->]. reflexivity.
  - destruct (ok r) eqn:Hok; cbn [negb fst snd] in *.
    + repeat split; try reflexivity; try discriminate.
      intros r' [= <-] Hok'. congruence.
    + repeat split; try reflexivity; try discriminate.
      * intros r' [= <-] Hok'. congruence.
      * intros r' [= <-] _. reflexivity.
Qed.

(** X12.  The edges of [uploadFile] that the [Location] header and the
    network leave: a [fetch] that cannot connect throws its own error after
    the one attempt; on a 2xx answer an empty [Location] gives no id, and a
    [Location] that ends in a slash gives the empty text as the id. *)
Theorem uploadFile_edges :
  forall (endpoint : string) (fileData : FileData) (fileName : string)
         (categoryId : option string) (w : World),
    let run := uploadFile env config endpoint fileData fileName categoryId w in
    (forall name msg : string,
        net env (fetches w) = Rejected name msg ->
        fst run = Threw (ThrowNative name msg)
        /\ fetches (snd run) = S (fetches w)
        /\ cache (snd run) = cache w)
    /\ (forall r : Response,
          net env (fetches w) = Responded r -> ok r = true ->
          (Headers_get (headers r) "Location" = Some EmptyString ->
           fst run = Returned {| id := None |})
          /\ (forall pre : string,
                Headers_get (headers r) "Location" = Some (pre +:+ "/") ->
                fst run = Returned {| id := Some EmptyString |})).
Proof.
  intros endpoint fileData fileName categoryId w run. subst run.
  unfold uploadFile, bind, Date_now, fetch. cbn [fst snd]. split.
  - intros name msg Hnet. rewrite Hnet. repeat split; reflexivity.
  - intros r Hnet Hok. rewrite Hnet, Hok. cbn [negb fst]. split.
    + intros Hloc. rewrite Hloc. reflexivity.
    + intros pre Hloc. rewrite Hloc. unfold ret, fileId. cbn [fst].
      rewrite truthy_append_cons. unfold JS.pop.
      rewrite split_app. cbn [JS.split].
      rewrite last_snoc. reflexivity.
Qed.

(** X13.  What [getReport] makes of an answer.  A 2xx answer is read by
    the format that was asked and not by its status or its content type: as
    JSON for [json], so that a body that does not parse (the empty body of
    a 204 as well) throws the SyntaxError of the parser, after the one
    attempt; as text for [xml] and [csv].  A [fetch] that cannot connect
    throws its own error.  The request is a GET without a body that accepts
    the type of the format. *)
Theorem getReport_outcome :
  forall (endpoint : string) (format : Format) (w : World),
    let run := getReport env config endpoint format w in
    (forall r : Response,
        net env (fetches w) = Responded r -> ok r = true ->
        fst run
        = match format with
          | FormatJson =>
              match json r with
              | Some v => Returned v
              | None => Threw (ThrowNative "SyntaxError" "Unexpected token in JSON")
              end
          | _ => Returned (JS.VStr (text r))
          end)
    /\ (forall name msg : string,
          net env (fetches w) = Rejected name msg ->
          fst run = Threw (ThrowNative name msg))
    /\ fetches (snd run) = S (fetches w)
    /\ report_request config endpoint format
       = {| req_method := GET;
            req_url := baseUrl config +:+ endpoint;
            req_headers :=
              [("Authorization", getAuthHeader config);
               ("Accept", match format with
                          | FormatJson => "application/json"
                          | FormatXml => "application/xml"
                          | FormatCsv => "text/csv"
                          end);
               ("Content-Type", "application/json")];
            req_body := None |}.
Proof.
  intros endpoint format w run. subst run.
  unfold getReport, bind, fetch. split; [|split; [|split]].
  - intros r Hnet Hok. rewrite Hnet, Hok. cbn [negb].
    destruct format; unfold Response_json, Response_text, bind, ret, throw;
      try destruct (json r); reflexivity.
  - intros name msg Hnet. rewrite Hnet. reflexivity.
  - destruct (net env (fetches w)) as [n m|r]; [reflexivity|].
    destruct (ok r); cbn [negb]; [|reflexivity].
    destruct format; unfold Response_json, Response_text, bind, ret, throw;
      try destruct (json r); reflexivity.
  - destruct format; reflexivity.
Qed.

End SingleAttemptProperties.

(** ** formatError on what the client throws *)

Section ErrorTexts.

Context {rt : Runtime}.
Variable env : Env.
Variable config : BambooHRConfig.

Lemma getReport_throws_record (endpoint : string) (format : Format) (w : World)
    (e : ApiError) :
  fst (getReport env config endpoint format w) = Threw (ThrowRecord e) ->
  exists r : Response, e = api_error r.
Proof.
  unfold getReport, bind, fetch.
  destruct (net env (fetches w)) as [n m|r]; [discriminate|].
  destruct (ok r); cbn [negb].
  - destruct format; unfold Response_json, Response_text, bind, ret, throw;
      try destruct (json r); discriminate.
  - intros [= <-]. exists r. reflexivity.
Qed.

Lemma uploadFile_throws_record (endpoint : string) (fileData : FileData)
    (fileName : string) (categoryId : option string) (w : World) (e : ApiError) :
  fst (uploadFile env config endpoint fileData fileName categoryId w) = Threw (ThrowRecord e) ->
  exists r : Response, e = api_error r.
Proof.
  unfold uploadFile, bind, Date_now, fetch. cbn [fst snd].
  destruct (net env (fetches w)) as [n m|r]; [discriminate|].
  destruct (ok r); cbn [negb]; [discriminate|].
  intros [= <-]. exists r. reflexivity.
Qed.

Lemma uploadPhoto_throws_record (endpoint : string) (photoData : FileData) (w : World)
    (e : ApiError) :
  fst (uploadPhoto env config endpoint photoData w) = Threw (ThrowRecord e) ->
  exists r : Response, e = api_error r.
Proof.
  unfold uploadPhoto, bind, fetch.
  destruct (net env (fetches w)) as [n m|r]; [discriminate|].
  destruct (ok r); cbn [negb]; [discriminate|].
  intros [= <-]. exists r. reflexivity.
Qed.

Lemma formatError_message (t : Thrown) :
  match t with ThrowRecord e => message e <> EmptyString | ThrowNative _ _ => True end ->
  formatError t = "Error: " +:+ thrown_message t.
Proof.
  unfold formatError. destruct t as [e|n m]; cbn [thrown_message].
  - intros He. destruct (message e); [congruence | reflexivity].
  - intros _. destruct m; reflexivity.
Qed.

(** X14.  Whatever [makeRequest], [getReport], [uploadFile] or
    [uploadPhoto] throws, [formatError] turns it into [Error: ] followed by
    its message: every error record of the client has a message that is not
    empty, so that the text of a plain object never shows.  That text is
    what a record with an empty message would give. *)
Theorem formatError_of_client_errors :
  (forall t : Thrown,
      (exists endpoint method body queryParams maxRetries w,
          fst (makeRequest env config endpoint method body queryParams maxRetries w) = Threw t)
      \/ (exists endpoint format w,
             fst (getReport env config endpoint format w) = Threw t)
      \/ (exists endpoint fileData fileName categoryId w,
             fst (uploadFile env config endpoint fileData fileName categoryId w) = Threw t)
      \/ (exists endpoint photoData w,
             fst (uploadPhoto env config endpoint photoData w) = Threw t) ->
      formatError t = "Error: " +:+ thrown_message t
      /\ match t with
         | ThrowRecord e => message e <> EmptyString
         | ThrowNative _ _ => True
         end)
  /\ (forall (kind : string) (code : option Z),
        formatError (ThrowRecord {| error := kind; message := EmptyString; api_status := code |})
        = "Error: [object Object]").
Proof.
  split; [|reflexivity].
  intros t Hthrown.
  assert (Hmsg : match t with
                 | ThrowRecord e => message e <> EmptyString
                 | ThrowNative _ _ => True
                 end).
  { destruct t as [e|n m]; [|exact I].
    destruct Hthrown as [(endpoint & method & body & queryParams & maxRetries & w & H)
                        | [(endpoint & format & w & H)
                          | [(endpoint & fileData & fileName & categoryId & w & H)
                            | (endpoint & photoData & w & H)]]].
    - exact (request_throws_message env config endpoint method body queryParams maxRetries w e H).
    - destruct (getReport_throws_record _ _ _ _ H) as (r & ->). apply errorMessage_nonempty.
    - destruct (uploadFile_throws_record _ _ _ _ _ _ H) as (r & ->). apply errorMessage_nonempty.
    - destruct (uploadPhoto_throws_record _ _ _ _ H) as (r & ->). apply errorMessage_nonempty. }
  split; [apply formatError_message|]; exact Hmsg.
Qed.

End ErrorTexts.

(** ** services/formatting.ts *)

(** X15.  [truncateIfNeeded] returns a content that fits the limit as it
    is, counted in UTF-16 code units.  A longer content is cut to its first
    [limit] code units (to nothing when the limit is negative) and a notice
    is added after them: the result is then longer than the limit, by more
    than 80 code units. *)
Theorem truncateIfNeeded_cases :
  forall (content : Text) (limit : Z),
    (Z.of_nat (length content) <= limit -> truncateIfNeeded content limit = content)
    /\ (limit < Z.of_nat (length content) ->
        exists notice : Text,
          notice
          = (units (LF +:+ LF +:+ "... [Content truncated. Original length: ")
             ++ units (JS.show_Z (Z.of_nat (length content)))
             ++ units " characters, showing first "
             ++ units (JS.show_Z limit)
             ++ units " characters]")%list
          /\ truncateIfNeeded content limit
             = (firstn (Z.to_nat limit) content ++ notice)%list
          /\ length (firstn (Z.to_nat limit) content) = Z.to_nat limit
          /\ (80 < length notice)%nat
          /\ limit + 80 < Z.of_nat (length (truncateIfNeeded content limit))).
Proof.
  intros content limit. unfold truncateIfNeeded. split.
  - intros Hfits. apply Z.leb_le in Hfits. rewrite Hfits. reflexivity.
  - intros Hlong. apply Z.leb_gt in Hlong. rewrite Hlong. cbv zeta.
    apply Z.leb_gt in Hlong.
    set (kept := firstn (Z.to_nat limit) content).
    set (notice := (units (LF +:+ LF +:+ "... [Content truncated. Original length: ")
                    ++ units (JS.show_Z (Z.of_nat (length content)))
                    ++ units " characters, showing first "
                    ++ units (JS.show_Z limit)
                    ++ units " characters]")%list).
    assert (Hkept : length kept = Z.to_nat limit).
    { subst kept. rewrite List.length_firstn. lia. }
    assert (Hnotice : (80 < length notice)%nat).
    { subst notice. rewrite !List.length_app.
      change (length (units (LF +:+ LF +:+ "... [Content truncated. Original length: ")))
        with 43%nat.
      change (length (units " characters, showing first ")) with 27%nat.
      change (length (units " characters]")) with 12%nat. lia. }
    exists notice. split; [reflexivity|]. split; [reflexivity|].
    split; [exact Hkept|]. split; [exact Hnotice|].
    rewrite List.length_app, Hkept. lia.
Qed.

(** X16.  [createPaginationInfo] says that there is more exactly when the
    page ends before the total, and gives a next offset exactly then: the
    offset plus the limit.  After a full page ([count = limit]) the next
    offset is the index of the first item that was not returned, and it is
    below the total; after a short page that is not the last, the next
    offset passes over [limit - count] items. *)
Theorem createPaginationInfo_next_offset :
  forall total count offset limit : Z,
    let page := createPaginationInfo total count offset limit in
    (has_more page = true <-> offset + count < total)
    /\ (next_offset page = None <-> has_more page = false)
    /\ (forall n : Z, next_offset page = Some n -> n = offset + limit)
    /\ (count = limit ->
        forall n : Z, next_offset page = Some n -> n = offset + count /\ n < total)
    /\ (count < limit -> offset + count < total ->
        exists n : Z, next_offset page = Some n /\ n - (offset + count) = limit - count)
    /\ page_total page = total /\ page_count page = count /\ page_offset page = offset.
Proof.
  intros total count offset limit page. subst page. unfold createPaginationInfo.
  cbn [has_more next_offset page_total page_count page_offset].
  destruct (Z.ltb_spec (offset + count) total) as [Hmore|Hlast].
  - split; [split; [intros _; exact Hmore | reflexivity]|].
    split; [split; discriminate|].
    split; [intros n [= <-]; reflexivity|].
    split; [intros -> n [= <-]; split; [reflexivity | exact Hmore]|].
    split; [|repeat split].
    intros _ _. exists (offset + limit). split; [reflexivity | lia].
  - split; [split; [discriminate | lia]|].
    split; [split; reflexivity|].
    split; [discriminate|].
    split; [discriminate|].
    split; [lia | repeat split].
Qed.

(** X17.  In the object of [wrapListResponse] the properties of
    [additionalMeta] come last and replace the others: every one of them is
    in the result as given.  The property named by [entityName] holds the
    items unless [additionalMeta] has that name; [count] is the number of
    items unless [additionalMeta] has a [count] or the entity is itself
    named [count], in which case [count] holds the items. *)
Theorem wrapListResponse_properties :
  forall (items : list JS.value) (entityName : string)
         (additionalMeta : option (gmap string JS.value)),
    let meta := default ∅ additionalMeta in
    let result := wrapListResponse items entityName additionalMeta in
    (forall (k : string) (v : JS.value), meta !! k = Some v -> result !! k = Some v)
    /\ (meta !! entityName = None -> result !! entityName = Some (JS.VArr items))
    /\ (meta !! "count" = None -> entityName <> "count" ->
        result !! "count" = Some (JS.VNum (JS.of_Z (Z.of_nat (length items)))))
    /\ (meta !! "count" = None -> entityName = "count" ->
        result !! "count" = Some (JS.VArr items))
    /\ (forall k : string,
          is_Some (result !! k) <-> is_Some (meta !! k) \/ k = entityName \/ k = "count").
Proof.
  intros items entityName additionalMeta meta result. subst result.
  unfold wrapListResponse. fold meta.
  split; [|split; [|split; [|split]]].
  - intros k v Hk. apply lookup_union_Some_l. exact Hk.
  - intros Hk. rewrite lookup_union_r by exact Hk. apply lookup_insert_eq.
  - intros Hk Hne. rewrite lookup_union_r by exact Hk.
    rewrite lookup_insert_ne by congruence. apply lookup_singleton_eq.
  - intros Hk ->. rewrite lookup_union_r by exact Hk. apply lookup_insert_eq.
  - intros k. rewrite lookup_union_is_Some.
    destruct (decide (k = entityName)) as [->|Hne].
    + rewrite lookup_insert_eq. split; [intros _; right; left; reflexivity|].
      intros _. right. eexists. reflexivity.
    + rewrite lookup_insert_ne by congruence.
      destruct (decide (k = "count")) as [->|Hnc].
      * rewrite lookup_singleton_eq. split; [intros _; right; right; reflexivity|].
        intros _. right. eexists. reflexivity.
      * rewrite lookup_singleton_ne by congruence.
        split; [intros [H|[x H]]; [left; exact H | discriminate H]|].
        intros [H|[H|H]]; [left; exact H | congruence | congruence].
Qed.

(** ** The content type of an upload *)

Lemma file_extension_last (base ext : string) :
  JS.includes "." ext = false ->
  file_extension (base +:+ "." +:+ ext) = JS.toLowerCase ext.
Proof.
  intros Hext. unfold file_extension, JS.pop.
  change ("." +:+ ext) with (String "." ext).
  rewrite split_app, (split_without "." ext Hext), last_snoc. reflexivity.
Qed.

Lemma file_extension_whole (name : string) :
  JS.includes "." name = false -> file_extension name = JS.toLowerCase name.
Proof.
  intros Hname. unfold file_extension, JS.pop.
  rewrite (split_without "." name Hname). reflexivity.
Qed.

(** X18.  The content type that an upload declares depends on the file
    name only through the text after its last dot, in lower case: that
    text is looked up in the table object, as [contentTypeMap_get] does,
    with the default type when nothing is found.  A name without a dot is
    looked up as
    a whole (a file named [pdf] is declared as a PDF), and a name that ends
    in a dot gets the default type.  Every extension of the table, after
    any base name, gets the type of its entry. *)
Theorem fileContentType_by_extension :
  (forall base ext : string,
      JS.includes "." ext = false ->
      fileContentType (base +:+ "." +:+ ext)
      = or_else (contentTypeMap_get (JS.toLowerCase ext)) "application/octet-stream")
  /\ (forall name : string,
        JS.includes "." name = false ->
        fileContentType name
        = or_else (contentTypeMap_get (JS.toLowerCase name)) "application/octet-stream")
  /\ (forall base : string, fileContentType (base +:+ ".") = "application/octet-stream")
  /\ (forall (base ext type : string),
        In (ext, type) contentTypeMap -> fileContentType (base +:+ "." +:+ ext) = type).
Proof.
  split; [|split; [|split]].
  - intros base ext Hext. unfold fileContentType.
    rewrite (file_extension_last base ext Hext). reflexivity.
  - intros name Hname. unfold fileContentType.
    rewrite (file_extension_whole name Hname). reflexivity.
  - intros base. unfold fileContentType.
    change (base +:+ ".") with (base +:+ "." +:+ EmptyString).
    rewrite (file_extension_last base EmptyString eq_refl). reflexivity.
  - intros base ext type Hin. unfold fileContentType.
    cbn [In contentTypeMap] in Hin.
    repeat (destruct Hin as [[= <- <-]|Hin];
            [rewrite file_extension_last by reflexivity; reflexivity|]).
    destruct Hin.
Qed.

(** ** config/certification-fields.ts *)

Lemma getCertificationCodeFromFieldId_suffix (base suffix : string) :
  JS.includes "." base = false ->
  getCertificationCodeFromFieldId (base +:+ "." +:+ suffix)
  = code_of_completed base CERTIFICATION_FIELDS.
Proof.
  intros Hbase. unfold getCertificationCodeFromFieldId. cbv zeta.
  change ("." +:+ suffix) with (String "." suffix).
  rewrite split_app, (split_without "." base Hbase). reflexivity.
Qed.

Lemma getCertificationCodeFromFieldId_base (base : string) :
  JS.includes "." base = false ->
  getCertificationCodeFromFieldId base = code_of_completed base CERTIFICATION_FIELDS.
Proof.
  intros Hbase. unfold getCertificationCodeFromFieldId. cbv zeta.
  rewrite (split_without "." base Hbase). reflexivity.
Qed.

Lemma code_of_completed_found (baseFieldId code : string)
    (table : list (string * CertificationFieldConfig)) :
  code_of_completed baseFieldId table = Some code ->
  exists config : CertificationFieldConfig,
    In (code, config) table /\ completed config = baseFieldId.
Proof.
  induction table as [|[c config] rest IH]; [discriminate|].
  cbn [code_of_completed].
  destruct (String.eqb_spec (completed config) baseFieldId) as [E|E].
  - intros [= <-]. exists config. split; [left; reflexivity | exact E].
  - intros H. destruct (IH H) as (config' & Hin & Hc).
    exists config'. split; [right; exact Hin | exact Hc].
Qed.

(** X19.  The code of a certification is found again from each of its
    field ids: from the [completed], the [due] and the [expires] field of
    every entry of the table.  The lookup reads a field id up to its first
    dot only, whatever follows it, and a code that it gives belongs to an
    entry whose [completed] field is that text.  The ids that
    [getAllCertificationFieldIds] lists are all different, and each one but
    the three employee fields leads back to a code. *)
Theorem certification_code_of_field_ids :
  (forall (code : string) (config : CertificationFieldConfig),
      In (code, config) CERTIFICATION_FIELDS ->
      getCertificationCodeFromFieldId (completed config) = Some code
      /\ getCertificationCodeFromFieldId (due config) = Some code
      /\ (forall e : string,
             expires config = Some e -> getCertificationCodeFromFieldId e = Some code))
  /\ (forall base suffix : string,
        JS.includes "." base = false ->
        getCertificationCodeFromFieldId (base +:+ "." +:+ suffix)
        = getCertificationCodeFromFieldId base)
  /\ (forall fieldId code : string,
        getCertificationCodeFromFieldId fieldId = Some code ->
        exists config : CertificationFieldConfig,
          In (code, config) CERTIFICATION_FIELDS
          /\ completed config = hd EmptyString (JS.split "." fieldId))
  /\ NoDup getAllCertificationFieldIds
  /\ (forall fieldId : string,
        In fieldId getAllCertificationFieldIds ->
        In fieldId ["displayName"; "department"; "id"]
        \/ exists code : string, getCertificationCodeFromFieldId fieldId = Some code).
Proof.
  split; [|split; [|split; [|split]]].
  - assert (H : forallb
                  (fun entry : string * CertificationFieldConfig =>
                     bool_decide (getCertificationCodeFromFieldId (completed (snd entry))
                                  = Some (fst entry))
                     && bool_decide (getCertificationCodeFromFieldId (due (snd entry))
                                     = Some (fst entry))
                     && match expires (snd entry) with
                        | Some e => bool_decide (getCertificationCodeFromFieldId e
                                                 = Some (fst entry))
                        | None => true
                        end)
                  CERTIFICATION_FIELDS = true) by (vm_compute; reflexivity).
    intros code config Hin.
    pose proof (proj1 (forallb_forall _ _) H (code, config) Hin) as Hentry.
    cbn [fst snd] in Hentry.
    apply andb_true_iff in Hentry as [Hentry He].
    apply andb_true_iff in Hentry as [Hc Hd].
    apply bool_decide_eq_true_1 in Hc, Hd.
    split; [exact Hc|]. split; [exact Hd|].
    intros e Hexp. rewrite Hexp in He. apply bool_decide_eq_true_1 in He. exact He.
  - intros base suffix Hbase.
    rewrite (getCertificationCodeFromFieldId_suffix base suffix Hbase),
      (getCertificationCodeFromFieldId_base base Hbase). reflexivity.
  - intros fieldId code H. apply code_of_completed_found. exact H.
  - apply (bool_decide_eq_true_1 (NoDup getAllCertificationFieldIds)).
    vm_compute. reflexivity.
  - assert (H : forallb
                  (fun fieldId : string =>
                     bool_decide (In fieldId ["displayName"; "department"; "id"])
                     || match getCertificationCodeFromFieldId fieldId with
                        | Some _ => true
                        | None => false
                        end)
                  getAllCertificationFieldIds = true) by (vm_compute; reflexivity).
    intros fieldId Hin.
    pose proof (proj1 (forallb_forall _ _) H fieldId Hin) as Hid.
    apply orb_true_iff in Hid as [Hid|Hid].
    + left. apply bool_decide_eq_true_1 in Hid. exact Hid.
    + right. destruct (getCertificationCodeFromFieldId fieldId) as [code|];
        [exists code; reflexivity | discriminate].
Qed.

(** ** tools/assessments.ts: the status of a certification *)

Lemma Qceiling_le_iff (x : Q) (n : Z) : Qceiling x <= n <-> (x <= inject_Z n)%Q.
Proof.
  split.
  - intros H. apply Qle_trans with (inject_Z (Qceiling x)); [apply Qle_ceiling|].
    rewrite <- Zle_Qle. exact H.
  - intros H. pose proof (Qceiling_lt x) as Hlt.
    assert (Hz : (inject_Z (Qceiling x - 1) < inject_Z n)%Q)
      by (eapply Qlt_le_trans; [exact Hlt | exact H]).
    rewrite <- Zlt_Qlt in Hz. lia.
Qed.

Lemma quotient_le_iff (a n : Z) :
  ((inject_Z a / inject_Z 86400000 <= inject_Z n)%Q) <-> a <= n * 86400000.
Proof.
  unfold Qdiv, Qle. cbn. split; intros H; lia.
Qed.

Section StatusProperties.

Variable Date_getTime : string -> JS.number.
Variable today : Z.

Local Abbreviation day := 86400000.

Lemma days_until_time (date : string) (t : Z) :
  Date_getTime date = JS.of_Z t ->
  exists days : Z,
    days_until Date_getTime today date = JS.of_Z days
    /\ forall n : Z, days <= n <-> t <= today + n * day.
Proof.
  intros Ht. unfold days_until. rewrite Ht.
  exists (Qceiling ((inject_Z t - inject_Z today) / inject_Z day)).
  split; [reflexivity|].
  intros n. rewrite Qceiling_le_iff.
  assert (E : ((inject_Z t - inject_Z today) / inject_Z day
               == inject_Z (t - today) / inject_Z day)%Q).
  { unfold Zminus. rewrite inject_Z_plus, inject_Z_opp. reflexivity. }
  rewrite E, quotient_le_iff. lia.
Qed.

Lemma number_ltb_0 (days : Z) : number_ltb (JS.of_Z days) (JS.of_Z 0) = true <-> days <= -1.
Proof.
  unfold number_ltb, JS.of_Z. rewrite negb_true_iff.
  destruct (Qle_bool (inject_Z 0) (inject_Z days)) eqn:E.
  - apply Qle_bool_iff in E. rewrite <- Zle_Qle in E. split; [discriminate | lia].
  - split; [intros _|reflexivity].
    destruct (Z.le_gt_cases 0 days) as [H|H]; [|lia].
    rewrite Zle_Qle in H. apply Qle_bool_iff in H. congruence.
Qed.

Lemma number_leb_of_Z (days n : Z) :
  number_leb (JS.of_Z days) (JS.of_Z n) = true <-> days <= n.
Proof. unfold number_leb, JS.of_Z. rewrite Qle_bool_iff, <- Zle_Qle. reflexivity. Qed.

(** X20.  The thresholds of [calculateCertificationStatus], in the
    milliseconds [t] of the date and of the start of today.  A
    certification that is not completed and has a due date is [expired]
    when the date lies a whole day or more before the start of today, and
    [not_started] otherwise, so also all through the day it is due; without
    a due date it is [not_started].  A completed certification with an
    expiry date is [expired] a whole day or more before the start of today,
    [expiring_soon] from there up to thirty days after the start of today,
    and [active] later; without an expiry date it is [active].  A date that
    is no date never makes [expired]: the status is [not_started] or
    [active], with [NaN] as the number of days. *)
Theorem calculateCertificationStatus_thresholds :
  forall completedDate expiresDate dueDate : option string,
    let result :=
      calculateCertificationStatus Date_getTime today completedDate expiresDate dueDate in
    (truthy_text completedDate = false ->
     daysUntilExpires result = None
     /\ (truthy_text dueDate = false ->
         cert_status result = status_not_started /\ daysUntilDue result = None)
     /\ (forall (d : string) (t : Z),
            dueDate = Some d -> d <> EmptyString -> Date_getTime d = JS.of_Z t ->
            (cert_status result = status_expired <-> t <= today - day)
            /\ (cert_status result = status_not_started <-> today - day < t))
     /\ (forall d : string,
            dueDate = Some d -> d <> EmptyString -> Date_getTime d = JS.NaN ->
            cert_status result = status_not_started
            /\ daysUntilDue result = Some JS.NaN))
    /\ (truthy_text completedDate = true ->
        daysUntilDue result = None
        /\ (truthy_text expiresDate = false ->
            cert_status result = status_active /\ daysUntilExpires result = None)
        /\ (forall (e : string) (t : Z),
               expiresDate = Some e -> e <> EmptyString -> Date_getTime e = JS.of_Z t ->
               (cert_status result = status_expired <-> t <= today - day)
               /\ (cert_status result = status_expiring_soon
                   <-> today - day < t <= today + 30 * day)
               /\ (cert_status result = status_active <-> today + 30 * day < t))
        /\ (forall e : string,
               expiresDate = Some e -> e <> EmptyString -> Date_getTime e = JS.NaN ->
               cert_status result = status_active
               /\ daysUntilExpires result = Some JS.NaN)).
Proof.
  intros completedDate expiresDate dueDate result. subst result.
  unfold calculateCertificationStatus.
  assert (Htruthy : forall s : string, s <> EmptyString -> JS.truthy_string s = true)
    by (intros [|c s] H; [congruence | reflexivity]).
  split; intros Hc; rewrite Hc; cbn [negb].
  - split; [destruct (truthy_text dueDate);
            [destruct (number_ltb _ _)|]; reflexivity|].
    split; [intros Hd; rewrite Hd; split; reflexivity|].
    split.
    + intros d t -> Hd Ht. cbn [truthy_text]. change (default EmptyString (Some d)) with d.
      rewrite (Htruthy d Hd). cbv zeta.
      destruct (days_until_time d t Ht) as (days & -> & Hdays).
      pose proof (number_ltb_0 days) as Hlt. pose proof (Hdays (-1)) as Hone.
      destruct (number_ltb (JS.of_Z days) (JS.of_Z 0)); cbn [cert_status].
      * assert (days <= -1) by (apply Hlt; reflexivity).
        split; split; (discriminate || lia || reflexivity || idtac); intros; lia.
      * assert (~ days <= -1) by (intros H; apply Hlt in H; discriminate).
        split; split; (discriminate || reflexivity || idtac); intros; lia.
    + intros d -> Hd Ht. cbn [truthy_text]. change (default EmptyString (Some d)) with d.
      rewrite (Htruthy d Hd). cbv zeta.
      unfold days_until. rewrite Ht. split; reflexivity.
  - split; [destruct (truthy_text expiresDate);
            [destruct (number_ltb _ _); [|destruct (number_leb _ _)]|]; reflexivity|].
    split; [intros He; rewrite He; split; reflexivity|].
    split.
    + intros e t -> He Ht. cbn [truthy_text]. change (default EmptyString (Some e)) with e.
      rewrite (Htruthy e He). cbv zeta.
      destruct (days_until_time e t Ht) as (days & -> & Hdays).
      pose proof (number_ltb_0 days) as Hlt. pose proof (Hdays (-1)) as Hone.
      pose proof (number_leb_of_Z days expiringWithinDays) as Hle.
      pose proof (Hdays 30) as Hthirty. unfold expiringWithinDays in *.
      destruct (number_ltb (JS.of_Z days) (JS.of_Z 0)); cbn [cert_status].
      * assert (days <= -1) by (apply Hlt; reflexivity).
        repeat split; (discriminate || lia || idtac); intros; lia.
      * assert (~ days <= -1) by (intros H; apply Hlt in H; discriminate).
        destruct (number_leb (JS.of_Z days) (JS.of_Z 30)); cbn [cert_status].
        -- assert (days <= 30) by (apply Hle; reflexivity).
           repeat split; (discriminate || lia || idtac); intros; lia.
        -- assert (~ days <= 30) by (intros H'; apply Hle in H'; discriminate).
           repeat split; (discriminate || lia || idtac); intros; lia.
    + intros e -> He Ht. cbn [truthy_text]. change (default EmptyString (Some e)) with e.
      rewrite (Htruthy e He). cbv zeta.
      unfold days_until. rewrite Ht. split; reflexivity.
Qed.

End StatusProperties.

(** ** Where the requests go *)

Lemma prefix_append (s t : string) : String.prefix s (s +:+ t) = true.
Proof.
  induction s as [|c s IH]; [destruct t; reflexivity|].
  rewrite append_cons. cbn [String.prefix].
  destruct (ascii_dec c c) as [_|Hne]; [exact IH | congruence].
Qed.

Section Destinations.

Context {rt : Runtime}.
Variable env : Env.
Variable config : BambooHRConfig.

Lemma authorized_of_fetches_only (r : Request) (tr : list Event) :
  Headers_get (req_headers r) "Authorization" = Some (getAuthHeader config) ->
  String.prefix (baseUrl config) (req_url r) = true ->
  fetches_only r tr -> authorized config tr.
Proof.
  intros Hauth Hurl Htr. unfold authorized. eapply Forall_impl; [exact Htr|].
  intros [r'| |]; cbn; [intros ->; split; assumption | trivial..].
Qed.

Lemma single_fetch_trace {A} (m : M A) (r : Request) (w : World) :
  snd (m w) = fetched env r w -> trace (snd (m w)) = (trace w ++ [EvFetch r])%list.
Proof. intros ->. reflexivity. Qed.

(** X21.  Every request that the client sends carries the Basic
    [Authorization] header made of the configured key and goes to a URL
    under the base URL of the configured company: so it is for every
    [fetch] of [makeRequest], whatever the method, the retries and the
    answers, and for the one [fetch] of [getReport], of [uploadFile] and of
    [uploadPhoto]. *)
Theorem requests_are_authorized :
  forall w : World,
    (forall (endpoint : string) (method : Method) (body : option JS.value)
            (queryParams : option QueryParams) (maxRetries : Z),
        exists added : list Event,
          trace (snd (makeRequest env config endpoint method body queryParams maxRetries w))
          = (trace w ++ added)%list
          /\ authorized config added)
    /\ (forall (endpoint : string) (format : Format),
          exists added : list Event,
            trace (snd (getReport env config endpoint format w)) = (trace w ++ added)%list
            /\ authorized config added)
    /\ (forall (endpoint : string) (fileData : FileData) (fileName : string)
               (categoryId : option string),
          exists added : list Event,
            trace (snd (uploadFile env config endpoint fileData fileName categoryId w))
            = (trace w ++ added)%list
            /\ authorized config added)
    /\ (forall (endpoint : string) (photoData : FileData),
          exists added : list Event,
            trace (snd (uploadPhoto env config endpoint photoData w)) = (trace w ++ added)%list
            /\ authorized config added).
Proof.
  intros w. split; [|split; [|split]].
  - intros endpoint method body queryParams maxRetries.
    assert (Hreq : forall tr : list Event,
               fetches_only (request_options config endpoint method body queryParams) tr ->
               authorized config tr).
    { intros tr Htr. refine (authorized_of_fetches_only _ tr _ _ Htr); [reflexivity|].
      unfold request_options, request_url. cbn [req_url].
      destruct queryParams as [q|]; [rewrite append_assoc|]; apply prefix_append. }
    destruct (request_cases env config endpoint method body queryParams maxRetries w)
      as [Hnet | (_ & v & Hhit)].
    + rewrite Hnet. unfold network.
      destruct (loop_effort env config endpoint method body queryParams maxRetries
                  (Z.to_nat (maxRetries + 1)) 0 None 1000
                  (entered endpoint method queryParams w))
        as (added & Htr & _ & Hsame & _).
      exists added. rewrite Htr, entered_trace. split; [reflexivity | apply Hreq, Hsame].
    + rewrite Hhit. exists []. cbn [snd]. rewrite entered_trace, List.app_nil_r.
      split; [reflexivity | constructor].
  - intros endpoint format. exists [EvFetch (report_request config endpoint format)]. split.
    + apply single_fetch_trace.
      unfold getReport, bind, fetch.
      destruct (net env (fetches w)) as [n m|r]; [reflexivity|].
      destruct (ok r); cbn [negb]; [|reflexivity].
      destruct format; unfold Response_json, Response_text, bind, ret, throw;
        try destruct (json r); reflexivity.
    + constructor; [|constructor]. split; [destruct format; reflexivity|].
      apply prefix_append.
  - intros endpoint fileData fileName categoryId.
    exists [EvFetch (upload_request config endpoint (clock w) fileData fileName categoryId)].
    split.
    + apply single_fetch_trace.
      unfold uploadFile, bind, Date_now, fetch.
      destruct (net env (fetches w)) as [n m|r]; [reflexivity|].
      destruct (ok r); reflexivity.
    + constructor; [|constructor]. split; [reflexivity | apply prefix_append].
  - intros endpoint photoData.
    exists [EvFetch (photo_request config endpoint photoData)]. split.
    + apply single_fetch_trace.
      unfold uploadPhoto, bind, fetch.
      destruct (net env (fetches w)) as [n m|r]; [reflexivity|].
      destruct (ok r); reflexivity.
    + constructor; [|constructor]. split; [reflexivity | apply prefix_append].
Qed.

End Destinations.

(** ** tools/assessments.ts: the certifications of a report *)

Lemma one_of_a_kind {A} (l : list A) (a : A) :
  NoDup l -> (forall x : A, In x l -> x = a) -> (length l <= 1)%nat.
Proof.
  intros Hnd Hall. destruct l as [|x [|y l]]; cbn; try lia.
  exfalso. apply NoDup_cons in Hnd as [Hx _]. apply Hx.
  rewrite (Hall x), <- (Hall y); [left | right; left | left]; reflexivity.
Qed.

Lemma truthy_text_nonempty (f : string) : f <> EmptyString -> JS.truthy_string f = true.
Proof. destruct f; [congruence | reflexivity]. Qed.

Lemma filtered_out_false (f value : string) :
  filtered_out (Some f) value = false -> f <> EmptyString -> f <> "all" -> value = f.
Proof.
  unfold filtered_out. intros H Hne Hall.
  rewrite (truthy_text_nonempty f Hne) in H.
  destruct (String.eqb_spec f "all") as [E|_]; [congruence|].
  destruct (String.eqb_spec value f) as [E|_]; [exact E | discriminate H].
Qed.

Section CertificationProperties.

Variable Date_getTime : string -> JS.number.
Variable today : Z.

Local Abbreviation parse := (parse_entry Date_getTime today).
Local Abbreviation entries := (parse_entries Date_getTime today).

Lemma parse_entries_in (employee : Employee) (fc fs fk : option string)
    (table : list (string * CertificationFieldConfig)) (cert : Certification.t) :
  In cert (entries employee fc fs fk table)
  <-> exists entry : string * CertificationFieldConfig,
        In entry table /\ parse employee fc fs fk entry = Some cert.
Proof.
  induction table as [|entry rest IH]; cbn [parse_entries].
  - split; [intros [] | intros (e & [] & _)].
  - destruct (parse employee fc fs fk entry) as [c|] eqn:E.
    + split.
      * intros [<- | Hin]; [exists entry; split; [left; reflexivity | exact E]|].
        apply IH in Hin as (e & Hin & He). exists e. split; [right; exact Hin | exact He].
      * intros (e & [<- | Hin] & He); [left; congruence|].
        right. apply IH. exists e. split; assumption.
    + rewrite IH. split.
      * intros (e & Hin & He). exists e. split; [right; exact Hin | exact He].
      * intros (e & [<- | Hin] & He); [congruence|]. exists e. split; assumption.
Qed.

Lemma parse_entry_code (employee : Employee) (fc fs fk : option string)
    (entry : string * CertificationFieldConfig) (cert : Certification.t) :
  parse employee fc fs fk entry = Some cert ->
  Certification.certificationCode cert = fst entry.
Proof.
  destruct entry as [code config]. unfold parse_entry.
  repeat match goal with
         | |- context [if ?b then _ else _] => destruct b
         end; try discriminate; intros [= <-]; reflexivity.
Qed.

Lemma parse_entries_codes (employee : Employee) (fc fs fk : option string)
    (table : list (string * CertificationFieldConfig)) :
  sublist (List.map Certification.certificationCode (entries employee fc fs fk table))
          (List.map fst table).
Proof.
  induction table as [|entry rest IH]; cbn [parse_entries List.map]; [constructor|].
  destruct (parse employee fc fs fk entry) as [c|] eqn:E.
  - cbn [List.map]. rewrite (parse_entry_code _ _ _ _ _ _ E). constructor. exact IH.
  - constructor. exact IH.
Qed.

Lemma filtered_out_admits (filter : option string) (value : string) :
  filtered_out filter value = false <-> admits filter value.
Proof.
  destruct filter as [f|]; cbn [filtered_out admits]; [|split; trivial].
  destruct f as [|c f]; [split; [left; reflexivity | reflexivity]|].
  cbn [JS.truthy_string andb].
  destruct (String.eqb_spec (String c f) "all") as [E|E];
    [split; [right; left; exact E | reflexivity]|].
  cbn [negb andb].
  destruct (String.eqb_spec value (String c f)) as [Ev|Ev].
  - split; [right; right; congruence | reflexivity].
  - split; [discriminate|]. intros [H | [H | H]]; [discriminate H | congruence | congruence].
Qed.

Lemma code_filter_admits (filter : option string) (code : string) :
  truthy_text filter && negb (String.eqb code (default EmptyString filter)) = false
  <-> admits_code filter code.
Proof.
  destruct filter as [f|]; cbn [truthy_text admits_code]; [|split; trivial].
  change (default EmptyString (Some f)) with f.
  destruct f as [|c f]; [split; [left; reflexivity | reflexivity]|].
  cbn [JS.truthy_string andb].
  destruct (String.eqb_spec code (String c f)) as [E|E].
  - split; [right; congruence | reflexivity].
  - split; [discriminate|]. intros [H | H]; [discriminate H | congruence].
Qed.

(** X22.  What [parseEmployeeCertifications] lists for a row of the
    report whose fields hold texts.  A certification is in the list exactly
    when it is the certification of an entry of the table that the filters
    let pass and for which the row holds a completed date or a due date (an
    expiry date alone is passed over): it carries the id and the name of
    the row, the code, the name and the category of the entry, the dates
    that the row holds in the fields of the entry (the expiry date only
    where the entry has a field for it), and the status and the days that
    [calculateCertificationStatus] gives for these dates.  The filter on
    the category and the one on the status let pass what equals them, and
    everything when they are not given, empty or [all]; the filter on the
    code has no [all].  The list follows the order of the table and holds
    at most one certification for a code: with a filter on the code, at
    most one at all. *)
Theorem parseEmployeeCertifications_invariants :
  forall (employee : Employee) (filterCategory filterStatus filterCode : option string),
    let certs :=
      parseEmployeeCertifications Date_getTime today employee
        filterCategory filterStatus filterCode in
    (forall cert : Certification.t,
        In cert certs
        <-> exists (code : string) (config : CertificationFieldConfig),
              In (code, config) CERTIFICATION_FIELDS
              /\ admits filterCategory (category_text (category config))
              /\ admits_code filterCode code
              /\ (truthy_text (employee !! completed config) = true
                  \/ truthy_text (employee !! due config) = true)
              /\ let completedDate := employee !! completed config in
                 let dueDate := employee !! due config in
                 let expiresDate :=
                   match expires config with
                   | Some e => if JS.truthy_string e then employee !! e else None
                   | None => None
                   end in
                 let result :=
                   calculateCertificationStatus Date_getTime today
                     completedDate expiresDate dueDate in
                 admits filterStatus (status_text (cert_status result))
                 /\ cert
                    = {| Certification.employeeId := default EmptyString (employee !! "id");
                         Certification.employeeName :=
                           default EmptyString (employee !! "displayName");
                         Certification.certificationCode := code;
                         Certification.certificationName := cert_name config;
                         Certification.category := category config;
                         Certification.completedDate := completedDate;
                         Certification.dueDate := dueDate;
                         Certification.expiresDate := expiresDate;
                         Certification.status := cert_status result;
                         Certification.daysUntilDue := daysUntilDue result;
                         Certification.daysUntilExpires := daysUntilExpires result |})
    /\ sublist (List.map Certification.certificationCode certs)
               (List.map fst CERTIFICATION_FIELDS)
    /\ NoDup (List.map Certification.certificationCode certs)
    /\ (forall f : string,
          filterCode = Some f -> f <> EmptyString -> (length certs <= 1)%nat).
Proof.
  intros employee fc fs fk certs. subst certs. unfold parseEmployeeCertifications.
  assert (Hcodes : NoDup (List.map fst CERTIFICATION_FIELDS)).
  { apply (bool_decide_eq_true_1 (NoDup (List.map fst CERTIFICATION_FIELDS))).
    vm_compute. reflexivity. }
  assert (Hnodup : NoDup (List.map Certification.certificationCode
                            (entries employee fc fs fk CERTIFICATION_FIELDS))).
  { exact (sublist_NoDup _ _ Hcodes
             (parse_entries_codes employee fc fs fk CERTIFICATION_FIELDS)). }
  assert (Hentry : forall (code : string) (config : CertificationFieldConfig)
                          (cert : Certification.t),
             parse employee fc fs fk (code, config) = Some cert
             <-> admits fc (category_text (category config))
                 /\ admits_code fk code
                 /\ (truthy_text (employee !! completed config) = true
                     \/ truthy_text (employee !! due config) = true)
                 /\ let completedDate := employee !! completed config in
                    let dueDate := employee !! due config in
                    let expiresDate :=
                      match expires config with
                      | Some e => if JS.truthy_string e then employee !! e else None
                      | None => None
                      end in
                    let result :=
                      calculateCertificationStatus Date_getTime today
                        completedDate expiresDate dueDate in
                    admits fs (status_text (cert_status result))
                    /\ cert
                       = {| Certification.employeeId :=
                              default EmptyString (employee !! "id");
                            Certification.employeeName :=
                              default EmptyString (employee !! "displayName");
                            Certification.certificationCode := code;
                            Certification.certificationName := cert_name config;
                            Certification.category := category config;
                            Certification.completedDate := completedDate;
                            Certification.dueDate := dueDate;
                            Certification.expiresDate := expiresDate;
                            Certification.status := cert_status result;
                            Certification.daysUntilDue := daysUntilDue result;
                            Certification.daysUntilExpires := daysUntilExpires result |}).
  { intros code config cert. unfold parse_entry. cbv zeta.
    rewrite <- (filtered_out_admits fc), <- (code_filter_admits fk),
      <- (filtered_out_admits fs).
    destruct (filtered_out fc (category_text (category config)));
      [split; [discriminate | intros (H & _); discriminate H]|].
    destruct (truthy_text fk && negb (String.eqb code (default EmptyString fk)));
      [split; [discriminate | intros (_ & H & _); discriminate H]|].
    destruct (truthy_text (employee !! completed config));
      destruct (truthy_text (employee !! due config)); cbn [negb andb];
      try (split; [discriminate | intros (_ & _ & [H | H] & _); discriminate H]);
      (destruct (filtered_out fs _);
       [split; [discriminate | intros (_ & _ & _ & H & _); discriminate H]|];
       split;
       [intros [= <-]; repeat split; (reflexivity || (left; reflexivity) || (right; reflexivity))
       |intros (_ & _ & _ & _ & ->); reflexivity]). }
  split; [|split; [|split]].
  - intros cert. rewrite parse_entries_in. split.
    + intros ([code config] & Hin & He).
      pose proof (parse_entry_code _ _ _ _ _ _ He) as Hcode. cbn [fst] in Hcode.
      exists code, config. split; [exact Hin|]. apply Hentry. exact He.
    + intros (code & config & Hin & He).
      exists (code, config). split; [exact Hin|]. apply Hentry. exact He.
  - apply parse_entries_codes.
  - exact Hnodup.
  - intros f -> Hne.
    rewrite <- (length_map Certification.certificationCode).
    apply (one_of_a_kind _ f Hnodup).
    intros x Hx. apply in_map_iff in Hx as (cert & <- & Hin).
    apply parse_entries_in in Hin as ([code config] & _ & He).
    rewrite (parse_entry_code _ _ _ _ _ _ He). cbn [fst].
    apply Hentry in He as (_ & Hk & _).
    destruct Hk as [Hk | Hk]; congruence.
Qed.

Lemma filter_sublist {A} (f : A -> bool) (l : list A) : sublist (List.filter f l) l.
Proof.
  induction l as [|x l IH]; cbn [List.filter]; [constructor|].
  destruct (f x); constructor; exact IH.
Qed.

Lemma filter_all {A} (f : A -> bool) (l : list A) :
  (forall x : A, In x l -> f x = true) -> List.filter f l = l.
Proof.
  induction l as [|x l IH]; intros H; cbn [List.filter]; [reflexivity|].
  rewrite (H x (or_introl eq_refl)), IH; [reflexivity|].
  intros y Hy. apply H. right. exact Hy.
Qed.

Lemma date_after_later (a b : string) :
  date_after Date_getTime a b = true <-> later_than Date_getTime a b.
Proof.
  unfold date_after, later_than, number_ltb. split.
  - destruct (Date_getTime b) as [|tb]; [discriminate|].
    destruct (Date_getTime a) as [|ta]; [discriminate|].
    intros H. apply negb_true_iff in H.
    exists ta, tb. split; [reflexivity|]. split; [reflexivity|].
    apply Qnot_le_lt. intros Hle. apply Qle_bool_iff in Hle. congruence.
  - intros (ta & tb & -> & -> & Hlt). apply negb_true_iff.
    destruct (Qle_bool ta tb) eqn:E; [|reflexivity].
    apply Qle_bool_iff in E. exfalso. exact (Qlt_not_le _ _ Hlt E).
Qed.

Lemma past_bound_later (bound date : option string) :
  past_bound Date_getTime bound date = false
  <-> forall d b : string,
        date = Some d -> d <> EmptyString -> bound = Some b -> b <> EmptyString ->
        ~ later_than Date_getTime d b.
Proof.
  unfold past_bound. split.
  - intros H d b -> Hd -> Hb Hlater. cbn [truthy_text] in H.
    rewrite (truthy_text_nonempty d Hd), (truthy_text_nonempty b Hb) in H.
    change (default EmptyString (Some d)) with d in H.
    change (default EmptyString (Some b)) with b in H.
    apply date_after_later in Hlater. cbn [andb] in H. congruence.
  - intros H. destruct bound as [b|]; [|reflexivity].
    destruct date as [d|]; [|cbn [truthy_text]; rewrite andb_false_r; reflexivity].
    cbn [truthy_text].
    destruct b as [|cb b]; [reflexivity|]. destruct d as [|cd d]; [reflexivity|].
    cbn [JS.truthy_string andb].
    change (default EmptyString (Some (String cd d))) with (String cd d).
    change (default EmptyString (Some (String cb b))) with (String cb b).
    destruct (date_after Date_getTime (String cd d) (String cb b)) eqn:E; [|reflexivity].
    exfalso. apply (H (String cd d) (String cb b)); try reflexivity; try discriminate.
    apply date_after_later. exact E.
Qed.

Lemma before_bound_later (bound date : option string) :
  before_bound Date_getTime bound date = false
  <-> forall d b : string,
        date = Some d -> d <> EmptyString -> bound = Some b -> b <> EmptyString ->
        ~ later_than Date_getTime b d.
Proof.
  unfold before_bound. split.
  - intros H d b -> Hd -> Hb Hlater. cbn [truthy_text] in H.
    rewrite (truthy_text_nonempty d Hd), (truthy_text_nonempty b Hb) in H.
    change (default EmptyString (Some d)) with d in H.
    change (default EmptyString (Some b)) with b in H.
    apply date_after_later in Hlater. cbn [andb] in H. congruence.
  - intros H. destruct bound as [b|]; [|reflexivity].
    destruct date as [d|]; [|cbn [truthy_text]; rewrite andb_false_r; reflexivity].
    cbn [truthy_text].
    destruct b as [|cb b]; [reflexivity|]. destruct d as [|cd d]; [reflexivity|].
    cbn [JS.truthy_string andb].
    change (default EmptyString (Some (String cd d))) with (String cd d).
    change (default EmptyString (Some (String cb b))) with (String cb b).
    destruct (date_after Date_getTime (String cb b) (String cd d)) eqn:E; [|reflexivity].
    exfalso. apply (H (String cd d) (String cb b)); try reflexivity; try discriminate.
    apply date_after_later. exact E.
Qed.

Lemma in_date_range_within (dueBefore dueAfter expiresBefore expiresAfter : option string)
    (cert : Certification.t) :
  in_date_range Date_getTime dueBefore dueAfter expiresBefore expiresAfter cert = true
  <-> within_date_bounds Date_getTime dueBefore dueAfter expiresBefore expiresAfter cert.
Proof.
  unfold in_date_range, within_date_bounds.
  pose proof (past_bound_later dueBefore (Certification.dueDate cert)) as H1.
  pose proof (before_bound_later dueAfter (Certification.dueDate cert)) as H2.
  pose proof (past_bound_later expiresBefore (Certification.expiresDate cert)) as H3.
  pose proof (before_bound_later expiresAfter (Certification.expiresDate cert)) as H4.
  split.
  - intros H.
    destruct (past_bound _ dueBefore _); [discriminate H|].
    destruct (before_bound _ dueAfter _); [discriminate H|].
    destruct (past_bound _ expiresBefore _); [discriminate H|].
    destruct (before_bound _ expiresAfter _); [discriminate H|].
    split; intros d b Hd Hne; split; intros Hb Hbne.
    + exact (proj1 H1 eq_refl d b Hd Hne Hb Hbne).
    + exact (proj1 H2 eq_refl d b Hd Hne Hb Hbne).
    + exact (proj1 H3 eq_refl d b Hd Hne Hb Hbne).
    + exact (proj1 H4 eq_refl d b Hd Hne Hb Hbne).
  - intros [Hdue Hexp].
    rewrite (proj2 H1), (proj2 H2), (proj2 H3), (proj2 H4); [reflexivity | ..];
      intros d b Hd Hne Hb Hbne.
    + exact (proj2 (Hexp d b Hd Hne) Hb Hbne).
    + exact (proj1 (Hexp d b Hd Hne) Hb Hbne).
    + exact (proj2 (Hdue d b Hd Hne) Hb Hbne).
    + exact (proj1 (Hdue d b Hd Hne) Hb Hbne).
Qed.

(** X23.  [filterByDateRange] keeps the certifications in their order and
    keeps exactly those that have no date beyond a bound: a certification
    of the list is kept when, and only when, its due date (if it has one)
    is not later than [dueBefore] and not earlier than [dueAfter], and its
    expiry date likewise, a bound that is not given or is no date
    excluding nothing.  So a kept certification with a due date has it at
    or before [dueBefore] and at or after [dueAfter], in the milliseconds
    of the dates; a certification within all the bounds is never dropped
    (when all are, the list comes back as it is); and a certification that
    has neither a due date nor an expiry date passes every bound. *)
Theorem filterByDateRange_bounds :
  forall (certifications : list Certification.t)
         (dueBefore dueAfter expiresBefore expiresAfter : option string),
    let kept :=
      filterByDateRange Date_getTime certifications
        dueBefore dueAfter expiresBefore expiresAfter in
    let within :=
      within_date_bounds Date_getTime dueBefore dueAfter expiresBefore expiresAfter in
    sublist kept certifications
    /\ (forall cert : Certification.t,
          In cert kept <-> In cert certifications /\ within cert)
    /\ ((forall cert : Certification.t, In cert certifications -> within cert) ->
        kept = certifications)
    /\ (forall (cert : Certification.t) (date : string) (t : Z),
          In cert kept ->
          (Certification.dueDate cert = Some date -> date <> EmptyString ->
           Date_getTime date = JS.of_Z t ->
           (forall (bound : string) (tb : Z),
               dueBefore = Some bound -> bound <> EmptyString ->
               Date_getTime bound = JS.of_Z tb -> t <= tb)
           /\ (forall (bound : string) (tb : Z),
                 dueAfter = Some bound -> bound <> EmptyString ->
                 Date_getTime bound = JS.of_Z tb -> tb <= t))
          /\ (Certification.expiresDate cert = Some date -> date <> EmptyString ->
              Date_getTime date = JS.of_Z t ->
              (forall (bound : string) (tb : Z),
                  expiresBefore = Some bound -> bound <> EmptyString ->
                  Date_getTime bound = JS.of_Z tb -> t <= tb)
              /\ (forall (bound : string) (tb : Z),
                    expiresAfter = Some bound -> bound <> EmptyString ->
                    Date_getTime bound = JS.of_Z tb -> tb <= t)))
    /\ (forall cert : Certification.t,
          In cert certifications ->
          truthy_text (Certification.dueDate cert) = false ->
          truthy_text (Certification.expiresDate cert) = false ->
          In cert kept)
    /\ ((forall bound : string,
            In (Some bound) [dueBefore; dueAfter; expiresBefore; expiresAfter] ->
            Date_getTime bound = JS.NaN) ->
        kept = certifications).
Proof.
  intros certifications dueBefore dueAfter expiresBefore expiresAfter kept within.
  subst kept within. unfold filterByDateRange.
  assert (Hiff : forall cert : Certification.t,
             In cert (List.filter
                        (in_date_range Date_getTime dueBefore dueAfter
                           expiresBefore expiresAfter) certifications)
             <-> In cert certifications
                 /\ within_date_bounds Date_getTime dueBefore dueAfter
                      expiresBefore expiresAfter cert).
  { intros cert. rewrite filter_In, in_date_range_within. reflexivity. }
  assert (Hnot : forall (a b : string) (ta tb : Z),
             Date_getTime a = JS.of_Z ta -> Date_getTime b = JS.of_Z tb ->
             ~ later_than Date_getTime a b -> ta <= tb).
  { intros a b ta tb Ha Hb Hno.
    destruct (Z.le_gt_cases ta tb) as [Hle|Hgt]; [exact Hle|].
    exfalso. apply Hno. exists (inject_Z ta), (inject_Z tb).
    split; [exact Ha|]. split; [exact Hb|]. rewrite <- Zlt_Qlt. lia. }
  split; [apply filter_sublist|]. split; [exact Hiff|]. split; [|split; [|split]].
  - intros Hall. apply filter_all. intros cert Hin.
    apply in_date_range_within, Hall, Hin.
  - intros cert date t Hin. apply Hiff in Hin as [_ [Hdue Hexp]].
    split; intros Hdate Hne Ht; split; intros bound tb Hb Hbne Htb.
    + exact (Hnot _ _ _ _ Ht Htb (proj1 (Hdue date bound Hdate Hne) Hb Hbne)).
    + exact (Hnot _ _ _ _ Htb Ht (proj2 (Hdue date bound Hdate Hne) Hb Hbne)).
    + exact (Hnot _ _ _ _ Ht Htb (proj1 (Hexp date bound Hdate Hne) Hb Hbne)).
    + exact (Hnot _ _ _ _ Htb Ht (proj2 (Hexp date bound Hdate Hne) Hb Hbne)).
  - intros cert Hin Hdue Hexp. apply Hiff. split; [exact Hin|].
    split; intros d b Hd Hne; exfalso.
    + rewrite Hd in Hdue. cbn [truthy_text] in Hdue.
      rewrite (truthy_text_nonempty d Hne) in Hdue. discriminate Hdue.
    + rewrite Hd in Hexp. cbn [truthy_text] in Hexp.
      rewrite (truthy_text_nonempty d Hne) in Hexp. discriminate Hexp.
  - intros Hbounds. apply filter_all. intros cert _. apply in_date_range_within.
    assert (Hno : forall (bound : option string) (a b : string),
               In bound [dueBefore; dueAfter; expiresBefore; expiresAfter] ->
               bound = Some b ->
               ~ later_than Date_getTime a b /\ ~ later_than Date_getTime b a).
    { intros bound a b Hin -> . pose proof (Hbounds b Hin) as Hnan.
      split; intros (ta & tb & Ha & Hb & _); congruence. }
    split; intros d b Hd Hne; split; intros Hb _.
    + exact (proj1 (Hno dueBefore d b ltac:(cbn; tauto) Hb)).
    + exact (proj2 (Hno dueAfter d b ltac:(cbn; tauto) Hb)).
    + exact (proj1 (Hno expiresBefore d b ltac:(cbn; tauto) Hb)).
    + exact (proj2 (Hno expiresAfter d b ltac:(cbn; tauto) Hb)).
Qed.

End CertificationProperties.

(** * More runs *)

(** No attempt is allowed: the fallback, without a fetch. *)
Lemma no_attempt_run :
  let run := makeRequest (Plain.answers []) Plain.config "/employees/1" POST None None (-1)
               Plain.start in
  fst run = Threw (ThrowRecord unknown_error) /\ fetches (snd run) = 0%nat.
Proof.
  cbv zeta.
  destruct (unknown_error_iff_negative_retries (Plain.answers []) Plain.config
              "/employees/1" POST None None (-1) Plain.start ltac:(discriminate))
    as (Hiff & Hrun).
  split.
  - apply Hiff. lia.
  - exact (proj2 (Hrun ltac:(lia))).
Defined.

(** A GET that stores its answer leaves the entry of another path alone. *)
Lemma other_entry_run :
  let env := Plain.answers [Plain.respond 200 "OK" [("Content-Type", "application/json")] "[1]"
                              (Some (JS.VArr [JS.VNum (JS.of_Z 1)]))] in
  let kept := {| data := JS.VStr "kept"; timestamp := 0 |} in
  let w := with_cache {[ "/meta/fields" := kept ]} Plain.start in
  cache (snd (makeRequest env Plain.config "/employees/1" GET None None 3 w)) !! "/meta/fields"
  = Some kept.
Proof.
  cbv zeta.
  rewrite (other_keys_are_untouched
             (Plain.answers [Plain.respond 200 "OK" [("Content-Type", "application/json")] "[1]"
                               (Some (JS.VArr [JS.VNum (JS.of_Z 1)]))])
             Plain.config "/employees/1" GET None None 3
             (with_cache {[ "/meta/fields" := {| data := JS.VStr "kept"; timestamp := 0 |} ]}
                Plain.start)
             "/meta/fields" ltac:(vm_compute; discriminate)).
  reflexivity.
Defined.

(** A run with two rate limits: every wait of its trace is measured. *)
Lemma measured_waits_run :
  let env := Plain.answers [Plain.respond 429 "Too Many Requests" [("Retry-After", "2")] "" None;
                            Plain.respond 503 "Service Unavailable" [] "" None;
                            Plain.respond 200 "OK" [] "" None] in
  exists added : list Event,
    trace (snd (makeRequest env Plain.config "/employees/1" PUT None None 3 Plain.start)) = added
    /\ Forall (measured_wait env) added.
Proof.
  cbv zeta.
  set (env := Plain.answers [Plain.respond 429 "Too Many Requests" [("Retry-After", "2")] "" None;
                             Plain.respond 503 "Service Unavailable" [] "" None;
                             Plain.respond 200 "OK" [] "" None]).
  assert (Hrandom : forall i : nat, (0 <= random env i)%Q /\ (random env i < 1)%Q).
  { intros i. split; vm_compute; congruence. }
  destruct (every_wait_is_measured env Plain.config "/employees/1" PUT None None 3 Hrandom
              Plain.start) as (added & Htr & Hm & _).
  exists added. split; [exact Htr | exact Hm].
Defined.

(** One rate limit, then the answer: two fetches, the parsed body. *)
Lemma rate_limit_then_answer_run :
  let r1 := {| status := 429; statusText := "Too Many Requests";
               headers := [("Retry-After", "2")]; text := EmptyString; json := None |} in
  let r2 := {| status := 200; statusText := "OK";
               headers := [("Content-Type", "application/json")];
               text := "[5]"; json := Some (JS.VArr [JS.VNum (JS.of_Z 5)]) |} in
  let env := Plain.answers [Responded r1; Responded r2] in
  let run := makeRequest env Plain.config "/employees/1" GET None None 3 Plain.start in
  fst run = Returned (JS.VArr [JS.VNum (JS.of_Z 5)]) /\ fetches (snd run) = 2%nat.
Proof.
  cbv zeta.
  set (r1 := {| status := 429; statusText := "Too Many Requests";
                headers := [("Retry-After", "2")]; text := EmptyString; json := None |}).
  set (r2 := {| status := 200; statusText := "OK";
                headers := [("Content-Type", "application/json")];
                text := "[5]"; json := Some (JS.VArr [JS.VNum (JS.of_Z 5)]) |}).
  set (env := Plain.answers [Responded r1; Responded r2]).
  destruct (rate_limits_then_success env Plain.config "/employees/1" GET None None 3
              Plain.start (fun i => match i with O => r1 | _ => r2 end) 1
              (JS.VArr [JS.VNum (JS.of_Z 5)]))
    as (Hfst & _ & Hf).
  - lia.
  - intros _. reflexivity.
  - intros [|i] Hi; [split; [reflexivity | left; reflexivity] | lia].
  - reflexivity.
  - reflexivity.
  - reflexivity.
  - split; [exact Hfst | exact Hf].
Defined.

(** Two bodies that do not parse, one retry allowed: two fetches, then the
    SyntaxError. *)
Lemma unparsable_json_run :
  let r := {| status := 200; statusText := "OK";
              headers := [("Content-Type", "application/json")];
              text := "<html>"; json := None |} in
  let env := Plain.answers [Responded r; Responded r] in
  let run := makeRequest env Plain.config "/employees/1" POST None None 1 Plain.start in
  (exists msg : string, fst run = Threw (ThrowNative "SyntaxError" msg))
  /\ fetches (snd run) = 2%nat.
Proof.
  cbv zeta.
  set (r := {| status := 200; statusText := "OK";
               headers := [("Content-Type", "application/json")];
               text := "<html>"; json := None |}).
  set (env := Plain.answers [Responded r; Responded r]).
  destruct (proj2 (unparsable_json_is_sent_again env Plain.config "/employees/1" POST None None 1)
              Plain.start) as (Hfst & _ & Hf & _).
  - lia.
  - discriminate.
  - intros [|[|i]] Hi; [| |cbn in Hi; lia]; exists r; (split; [reflexivity|]);
      repeat split; reflexivity.
  - split; [exact Hfst | exact Hf].
Defined.

(** A second GET within the TTL is served from the cache, also when the
    network has gone away. *)
Lemma second_get_run :
  let r := {| status := 200; statusText := "OK";
              headers := [("Content-Type", "application/json")];
              text := "[1]"; json := Some (JS.VArr [JS.VNum (JS.of_Z 1)]) |} in
  let first := makeRequest (Plain.answers [Responded r]) Plain.config "/employees/1" GET
                 None None 3 Plain.start in
  fst first = Returned (JS.VArr [JS.VNum (JS.of_Z 1)])
  /\ makeRequest (Plain.answers []) Plain.config "/employees/1" GET None None 3 (snd first)
     = (Returned (JS.VArr [JS.VNum (JS.of_Z 1)]), snd first).
Proof.
  cbv zeta.
  set (r := {| status := 200; statusText := "OK";
               headers := [("Content-Type", "application/json")];
               text := "[1]"; json := Some (JS.VArr [JS.VNum (JS.of_Z 1)]) |}).
  pose proof (stored_answer_serves_later_gets (Plain.answers [Responded r]) Plain.config
                "/employees/1" None None 3 Plain.start r (JS.VArr [JS.VNum (JS.of_Z 1)])
                ltac:(lia) eq_refl eq_refl eq_refl eq_refl eq_refl ltac:(discriminate))
    as (Hfirst & _ & Hlater).
  split; [exact Hfirst|].
  apply (Hlater (Plain.answers []) None 3 _ eq_refl).
  unfold cacheTTL. lia.
Defined.

(** A photo that comes as base64 text: one fetch, nothing returned. *)
Lemma uploadPhoto_run :
  let env := Plain.answers [Plain.respond 200 "OK" [] "" None] in
  let run := uploadPhoto env Plain.config "/employees/4/photo" (FileBase64 "c2VjcmV0Ong=")
               Plain.start in
  fst run = Returned tt
  /\ trace (snd run)
     = [EvFetch {| req_method := POST;
                   req_url := "https://acme.bamboohr.com/api/v1/employees/4/photo";
                   req_headers := [("Authorization", "Basic c2VjcmV0Ong=");
                                   ("Content-Type", "image/jpeg");
                                   ("Content-Length", "8")];
                   req_body := Some "secret:x" |}].
Proof.
  pose proof (uploadPhoto_outcome
                (Plain.answers [Plain.respond 200 "OK" [] "" None]) Plain.config
                "/employees/4/photo" (FileBase64 "c2VjcmV0Ong=") Plain.start)
    as (_ & _ & Htr & Hok & _).
  cbv zeta. split.
  - exact (Hok _ eq_refl eq_refl).
  - rewrite Htr. vm_compute. reflexivity.
Defined.

(** The answer [Location: /files/] gives the empty id. *)
Lemma uploadFile_trailing_slash_run :
  let env := Plain.answers [Plain.respond 201 "Created" [("Location", "/files/")] "" None] in
  fst (uploadFile env Plain.config "/employees/4/files" (FileBuffer "abc") "notes.txt" None
         Plain.start)
  = Returned {| id := Some EmptyString |}.
Proof.
  pose proof (uploadFile_edges
                (Plain.answers [Plain.respond 201 "Created" [("Location", "/files/")] "" None])
                Plain.config "/employees/4/files" (FileBuffer "abc") "notes.txt" None
                Plain.start) as (_ & Hok).
  cbv zeta. destruct (Hok _ eq_refl eq_refl) as (_ & Hslash).
  exact (Hslash "/files" eq_refl).
Defined.

(** A report asked as CSV: the text of the body, although it is declared
    as JSON. *)
Lemma getReport_csv_run :
  let env := Plain.answers [Plain.respond 200 "OK" [("Content-Type", "application/json")]
                              "id,name" None] in
  fst (getReport env Plain.config "/reports/7" FormatCsv Plain.start)
  = Returned (JS.VStr "id,name").
Proof.
  pose proof (getReport_outcome
                (Plain.answers [Plain.respond 200 "OK" [("Content-Type", "application/json")]
                                  "id,name" None])
                Plain.config "/reports/7" FormatCsv Plain.start) as (Hok & _).
  cbv zeta. exact (Hok _ eq_refl eq_refl).
Defined.

(** The text of a 404 of the executor. *)
Lemma formatError_not_found_run :
  formatError (ThrowRecord {| error := "API_ERROR";
                              message := message_not_found;
                              api_status := Some 404 |})
  = "Error: " +:+ message_not_found.
Proof.
  refine (proj1 (proj1 (formatError_of_client_errors
                          (Plain.answers [Plain.respond 404 "Not Found" [] "" None])
                          Plain.config) _ _)).
  left. exists "/employees/0", GET, None, None, 3, Plain.start.
  vm_compute. reflexivity.
Defined.

(** Six characters cut to three; and three characters of four bytes and
    one code unit each that fit a limit of four. *)
Lemma truncateIfNeeded_run :
  (exists notice : Text,
      truncateIfNeeded (units "abcdef") 3 = (units "abc" ++ notice)%list
      /\ (80 < length notice)%nat)
  /\ truncateIfNeeded [233; 8364; 233]%N 4 = [233; 8364; 233]%N.
Proof.
  split.
  - destruct (proj2 (truncateIfNeeded_cases (units "abcdef") 3) ltac:(cbn; lia))
      as (notice & _ & Hcut & _ & Hnotice & _).
    exists notice. split; [exact Hcut | exact Hnotice].
  - apply (proj1 (truncateIfNeeded_cases [233; 8364; 233]%N 4)). cbn. lia.
Defined.

(** A short page that is not the last: the next offset passes over three
    items. *)
Lemma createPaginationInfo_run :
  has_more (createPaginationInfo 25 7 0 10) = true
  /\ exists n : Z,
       next_offset (createPaginationInfo 25 7 0 10) = Some n /\ n - (0 + 7) = 10 - 7.
Proof.
  pose proof (createPaginationInfo_next_offset 25 7 0 10) as (Hmore & _ & _ & _ & Hshort & _).
  split.
  - apply Hmore. lia.
  - apply Hshort; lia.
Defined.

(** One employee in a list named [employees]. *)
Lemma wrapListResponse_run :
  wrapListResponse [JS.VStr "Ada"] "employees" None !! "count"
  = Some (JS.VNum (JS.of_Z 1)).
Proof.
  pose proof (wrapListResponse_properties [JS.VStr "Ada"] "employees" None)
    as (_ & _ & Hcount & _).
  apply Hcount; [reflexivity | discriminate].
Defined.

(** An extension in capitals. *)
Lemma fileContentType_capitals_run : fileContentType "report.PDF" = "application/pdf".
Proof.
  exact (proj1 fileContentType_by_extension "report" "PDF" eq_refl).
Defined.

(** The due field of AZ-104. *)
Lemma certification_code_run : getCertificationCodeFromFieldId "4524.2" = Some "AZ-104".
Proof.
  assert (Hin : In ("AZ-104",
                    mkCertification "4524" "4524.2" (Some "4524.1") "Azure Administrator" azure)
                   CERTIFICATION_FIELDS).
  { right. right. right. left. reflexivity. }
  exact (proj1 (proj2 (proj1 certification_code_of_field_ids _ _ Hin))).
Defined.

(** A certification that expires ten days after the start of today. *)
Lemma certification_status_run :
  let getTime := fun s : string =>
                   if String.eqb s "2026-11-13" then JS.of_Z 1794528000000 else JS.NaN in
  cert_status (calculateCertificationStatus getTime 1793664000000
                 (Some "2025-11-13") (Some "2026-11-13") None)
  = status_expiring_soon.
Proof.
  cbv zeta.
  pose proof (calculateCertificationStatus_thresholds
                (fun s : string =>
                   if String.eqb s "2026-11-13" then JS.of_Z 1794528000000 else JS.NaN)
                1793664000000 (Some "2025-11-13") (Some "2026-11-13") None) as (_ & Hdone).
  destruct (Hdone eq_refl) as (_ & _ & Hdate & _).
  destruct (Hdate "2026-11-13" 1794528000000 eq_refl ltac:(discriminate) eq_refl)
    as (_ & Hsoon & _).
  apply Hsoon. lia.
Defined.

(** A rate limit whose [Retry-After] is a date: the timer runs for 1 ms. *)
Lemma retry_after_date_run :
  let r := {| status := 429; statusText := "Too Many Requests";
              headers := [("Retry-After", "Wed, 21 Oct 2015 07:28:00 GMT")];
              text := EmptyString; json := None |} in
  let after := snd (turn (Plain.answers [Responded r]) Plain.config "/employees/1" POST
                      None None 3 0 1000 Plain.start) in
  last (trace after) = Some (EvSleep JS.NaN)
  /\ clock after = clock Plain.start + 25 + 1.
Proof.
  cbv zeta.
  set (r := {| status := 429; statusText := "Too Many Requests";
               headers := [("Retry-After", "Wed, 21 Oct 2015 07:28:00 GMT")];
               text := EmptyString; json := None |}).
  pose proof (retry_after_without_usable_wait (Plain.answers [Responded r]) Plain.config
                "/employees/1" POST None None 3 0 1000 Plain.start r
                "Wed, 21 Oct 2015 07:28:00 GMT"
                eq_refl (or_introl eq_refl) ltac:(lia) eq_refl) as (Hdate & _).
  apply Hdate; [discriminate | reflexivity].
Defined.

(** A row with a completed certification that expires in ten days: it is
    listed with the dates of the row and the status of these dates. *)
Lemma parseEmployeeCertifications_run :
  let getTime := fun s : string =>
                   if String.eqb s "2026-11-13" then JS.of_Z 1794528000000 else JS.NaN in
  let employee : Employee :=
    <["id" := "7"]> (<["displayName" := "Ada"]>
      (<["4524" := "2025-11-13"]> {[ "4524.1" := "2026-11-13" ]})) in
  In {| Certification.employeeId := "7";
        Certification.employeeName := "Ada";
        Certification.certificationCode := "AZ-104";
        Certification.certificationName := "Azure Administrator";
        Certification.category := azure;
        Certification.completedDate := Some "2025-11-13";
        Certification.dueDate := None;
        Certification.expiresDate := Some "2026-11-13";
        Certification.status := status_expiring_soon;
        Certification.daysUntilDue := None;
        Certification.daysUntilExpires := Some (JS.of_Z 10) |}
     (parseEmployeeCertifications getTime 1793664000000 employee
        (Some "azure") (Some "expiring_soon") None).
Proof.
  cbv zeta.
  apply (proj1 (parseEmployeeCertifications_invariants
                  (fun s : string =>
                     if String.eqb s "2026-11-13" then JS.of_Z 1794528000000 else JS.NaN)
                  1793664000000
                  (<["id" := "7"]> (<["displayName" := "Ada"]>
                     (<["4524" := "2025-11-13"]> {[ "4524.1" := "2026-11-13" ]})))
                  (Some "azure") (Some "expiring_soon") None)).
  exists "AZ-104",
    (mkCertification "4524" "4524.2" (Some "4524.1") "Azure Administrator" azure).
  split; [right; right; right; left; reflexivity|].
  split; [right; right; reflexivity|].
  split; [exact I|].
  split; [left; reflexivity|].
  cbv zeta. split; [right; right; vm_compute; reflexivity|].
  vm_compute. reflexivity.
Defined.

(** A bound on the due date: the certification due before it is kept, the
    one due after it is dropped. *)
Lemma filterByDateRange_run :
  let getTime := fun s : string =>
                   if String.eqb s "2026-01-01" then JS.of_Z 1767225600000
                   else if String.eqb s "2026-11-13" then JS.of_Z 1794528000000
                   else if String.eqb s "2027-01-01" then JS.of_Z 1798761600000
                   else JS.NaN in
  let due (code date : string) :=
    {| Certification.employeeId := "7";
       Certification.employeeName := "Ada";
       Certification.certificationCode := code;
       Certification.certificationName := code;
       Certification.category := other;
       Certification.completedDate := None;
       Certification.dueDate := Some date;
       Certification.expiresDate := None;
       Certification.status := status_not_started;
       Certification.daysUntilDue := None;
       Certification.daysUntilExpires := None |} in
  let kept := filterByDateRange getTime [due "JIRA" "2026-01-01"; due "KNOWBE4" "2027-01-01"]
                (Some "2026-11-13") None None None in
  In (due "JIRA" "2026-01-01") kept /\ ~ In (due "KNOWBE4" "2027-01-01") kept.
Proof.
  cbv zeta.
  set (getTime := fun s : string =>
                    if String.eqb s "2026-01-01" then JS.of_Z 1767225600000
                    else if String.eqb s "2026-11-13" then JS.of_Z 1794528000000
                    else if String.eqb s "2027-01-01" then JS.of_Z 1798761600000
                    else JS.NaN).
  set (due := fun code date : string =>
    {| Certification.employeeId := "7";
       Certification.employeeName := "Ada";
       Certification.certificationCode := code;
       Certification.certificationName := code;
       Certification.category := other;
       Certification.completedDate := None;
       Certification.dueDate := Some date;
       Certification.expiresDate := None;
       Certification.status := status_not_started;
       Certification.daysUntilDue := None;
       Certification.daysUntilExpires := None |}).
  pose proof (filterByDateRange_bounds getTime
                [due "JIRA" "2026-01-01"; due "KNOWBE4" "2027-01-01"]
                (Some "2026-11-13") None None None) as (_ & Hiff & _).
  split.
  - apply Hiff. split; [left; reflexivity|].
    split; intros d b Hd Hne; [|discriminate Hd].
    injection Hd as <-. split; intros Hb Hbne; [|discriminate Hb].
    injection Hb as <-. intros (ta & tb & Ha & Hb & Hlt).
    vm_compute in Ha, Hb. injection Ha as <-. injection Hb as <-.
    vm_compute in Hlt. discriminate Hlt.
  - intros Hin. apply Hiff in Hin as [_ [Hdue _]].
    apply (proj1 (Hdue "2027-01-01" "2026-11-13" eq_refl ltac:(discriminate))
             eq_refl ltac:(discriminate)).
    exists (inject_Z 1798761600000), (inject_Z 1794528000000).
    repeat split.
Defined.

(** An entry an hour old and a server that fails: the entry is gone. *)
Lemma failed_refresh_run :
  let env := Plain.answers [Plain.respond 500 "Internal Server Error" [] "" None] in
  let old := {| data := JS.VStr "cached"; timestamp := clock Plain.start - 3600000 |} in
  let w := with_cache {[ "/employees/1" := old ]} Plain.start in
  cache (snd (makeRequest env Plain.config "/employees/1" GET None None 3 w)) !! "/employees/1"
  = None.
Proof.
  cbv zeta.
  set (env := Plain.answers [Plain.respond 500 "Internal Server Error" [] "" None]).
  set (old := {| data := JS.VStr "cached"; timestamp := clock Plain.start - 3600000 |}).
  set (w := with_cache {[ "/employees/1" := old ]} Plain.start).
  refine (proj2 (failed_refresh_drops_the_entry env Plain.config "/employees/1" GET None None 3
                   w old
                   (ThrowRecord {| error := "API_ERROR";
                                   message := "HTTP 500: Internal Server Error";
                                   api_status := Some 500 |})
                   eq_refl _ _ _)).
  - vm_compute. reflexivity.
  - vm_compute. reflexivity.
  - vm_compute. reflexivity.
Defined.
